(** * hndigest: selection, enrichment, assembly and posting of a story digest

    A shallow embedding of the curation pipeline of the repository
    (packages [hndigest] and [hn_digest]), each module followed by the
    properties proved of it:

    - [PyStr], [PyStrFacts]          the Python string operations the code relies on;
    - [Urllib]                       the part of [urllib.parse.urlparse] that yields [netloc];
    - [Hn], [HnFacts]                [select_stories] of hn.py;
    - [Telegram], [TelegramFacts]    both variants of [post_thread];
    - [Config]                       channels, labels and the keyword classifier of config.py;
    - [Formatter], [FormatterFacts]  [format_digest] and [format_story_lines] of formatter.py;
    - [Process], [FieldFacts], [ProcessFacts], [CacheFacts]
                                     the enricher of process.py: retry loop, parsing, cache;
    - [HnOrder], [HnFetch], [HnFetchFacts]
                                     order and filters of [select_stories], [fetch_stories];
    - [FormatterMore], [ConfigFacts], [TelegramMore], [ProcessMore]
                                     further properties of the modules above;
    - [Content], [ContentFacts]      [_truncate_words] and [_fetch_one] of content.py;
    - [Cli], [CliFacts]              [generate_digest] of cli.py;
    - [Categorize], [CategorizeFacts], [Translate], [TranslateFacts]
                                     the batch requests of categorize.py and translate.py.

    Text is modelled by [string], read as the UTF-8 bytes of a Python
    [str]: lengths, slices, white space, digits, [int] and [lower] work on
    the characters that the bytes encode, with the tables of the Unicode
    database.  Integers are [Z], dictionaries are [gmap], lists are lists.
    What lies outside the program (the Bot API, the generation API, the
    hash function, the clock, whether a file can be written) is a
    parameter of the definitions. *)

From Stdlib Require Import ZArith List String Ascii Bool Lia DecimalString.
From stdpp Require Import base option list gmap strings sorting.

Local Open Scope string_scope.
Local Open Scope list_scope.

(* ===================================================================== *)
(** ** Python string operations *)
(* ===================================================================== *)

Module PyStr.

(** *** Characters

    A text is the sequence of its UTF-8 bytes; a character is a lead byte
    with the continuation bytes it announces.  The tables are those of the
    Unicode database that Python 3.11 carries (Unicode 14). *)

Definition byte (c : ascii) : N := N_of_ascii c.

Definition is_cont (c : ascii) : bool := ((128 <=? byte c) && (byte c <=? 191))%N.

(** The number of continuation bytes that a lead byte announces. *)
Definition need (c : ascii) : nat :=
  let n := byte c in
  if ((194 <=? n) && (n <=? 223))%N then 1
  else if ((224 <=? n) && (n <=? 239))%N then 2
  else if ((240 <=? n) && (n <=? 244))%N then 3
  else 0.

(** The characters of a text, each as the text of its bytes. *)
Fixpoint chars (s : string) : list string :=
  match s with
  | EmptyString => []
  | String a r =>
      match need a, r with
      | 1%nat, String b r1 =>
          if is_cont b then String a (String b "") :: chars r1
          else String a "" :: chars r
      | 2%nat, String b (String c r2) =>
          if is_cont b && is_cont c then String a (String b (String c "")) :: chars r2
          else String a "" :: chars r
      | 3%nat, String b (String c (String d r3)) =>
          if is_cont b && is_cont c && is_cont d
          then String a (String b (String c (String d ""))) :: chars r3
          else String a "" :: chars r
      | _, _ => String a "" :: chars r
      end
  end.

(** A value that is no code point, for bytes that encode none. *)
Definition no_code : N := 1114112%N.

(** The code point of a character; [no_code] for bytes that are no
    UTF-8 encoding of a code point. *)
Definition code (ch : string) : N :=
  match ch with
  | String a "" => if (byte a <? 128)%N then byte a else no_code
  | String a (String b "") =>
      if Nat.eqb (need a) 1 && is_cont b
      then ((byte a - 192) * 64 + (byte b - 128))%N
      else no_code
  | String a (String b (String c "")) =>
      let v := ((byte a - 224) * 4096 + (byte b - 128) * 64 + (byte c - 128))%N in
      if Nat.eqb (need a) 2 && is_cont b && is_cont c && negb (v <? 2048)%N then v
      else no_code
  | String a (String b (String c (String d ""))) =>
      let v := ((byte a - 240) * 262144 + (byte b - 128) * 4096
                + (byte c - 128) * 64 + (byte d - 128))%N in
      if Nat.eqb (need a) 3 && is_cont b && is_cont c && is_cont d
         && negb (v <? 65536)%N && (v <? no_code)%N
      then v
      else no_code
  | _ => no_code
  end.

(** The UTF-8 bytes of a code point. *)
Definition encode (n : N) : string :=
  let b k := ascii_of_N k in
  (if n <? 128 then String (b n) ""
   else if n <? 2048 then String (b (192 + n / 64)) (String (b (128 + n mod 64)) "")
   else if n <? 65536 then
     String (b (224 + n / 4096)) (String (b (128 + (n / 64) mod 64))
       (String (b (128 + n mod 64)) ""))
   else
     String (b (240 + n / 262144)) (String (b (128 + (n / 4096) mod 64))
       (String (b (128 + (n / 64) mod 64)) (String (b (128 + n mod 64)) ""))))%N.

(** The text of a list of characters. *)
Definition join (l : list string) : string := fold_right String.append "" l.

Definition in_ranges (c : N) (table : list (N * N)) : bool :=
  existsb (fun r => (fst r <=? c) && (c <=? snd r))%N table.

(** [len(s)] *)
Definition len (s : string) : nat := length (chars s).

(** [s[:n]] *)
Definition take (n : nat) (s : string) : string := join (firstn n (chars s)).

(** *** White space *)

(** The code points for which [str.isspace] holds. *)
Definition SPACES : list (N * N) :=
  [
   (9, 13); (28, 32); (133, 133); (160, 160); (5760, 5760); (8192, 8202); (8232, 8233);
   (8239, 8239); (8287, 8287); (12288, 12288)]%N.

(** [ch.isspace()] for one character. *)
Definition isspace (ch : string) : bool := in_ranges (code ch) SPACES.

(** Dropping the elements that satisfy [p] from the left and from the
    right of a list. *)
Fixpoint ltrim {A} (p : A -> bool) (l : list A) : list A :=
  match l with
  | [] => []
  | x :: r => if p x then ltrim p r else l
  end.

Fixpoint rtrim {A} (p : A -> bool) (l : list A) : list A :=
  match l with
  | [] => []
  | x :: r =>
      match rtrim p r with
      | [] => if p x then [] else [x]
      | r' => x :: r'
      end
  end.

(** [s.lstrip()], [s.rstrip()] and [s.strip()] *)
Definition lstrip (s : string) : string := join (ltrim isspace (chars s)).
Definition rstrip (s : string) : string := join (rtrim isspace (chars s)).
Definition strip (s : string) : string :=
  join (rtrim isspace (ltrim isspace (chars s))).

(** The words of a list of characters: the longest runs without white
    space. *)
Fixpoint words (l : list string) : list string :=
  match l with
  | [] => []
  | ch :: r =>
      if isspace ch then words r
      else
        match r with
        | [] => [ch]
        | d :: _ =>
            if isspace d then ch :: words r
            else match words r with
                 | h :: t => (ch +:+ h) :: t
                 | [] => [ch]
                 end
        end
  end.

(** [s.split()] *)
Definition split_ws (s : string) : list string := words (chars s).

(** *** Letters *)

(** The code points with a lower-case mapping of one code point, other
    than the capital sigma: the range from [lo] to [hi] in steps of
    [step] maps onto the range that starts at [target]. *)
Definition LOWER : list (N * N * N * N) :=
  [
   (65, 90, 1, 97); (192, 214, 1, 224); (216, 222, 1, 248); (256, 302, 2, 257);
   (306, 310, 2, 307); (313, 327, 2, 314); (330, 374, 2, 331); (376, 376, 1, 255);
   (377, 381, 2, 378); (385, 385, 1, 595); (386, 388, 2, 387); (390, 390, 1, 596);
   (391, 391, 1, 392); (393, 394, 1, 598); (395, 395, 1, 396); (398, 398, 1, 477);
   (399, 399, 1, 601); (400, 400, 1, 603); (401, 401, 1, 402); (403, 403, 1, 608);
   (404, 404, 1, 611); (406, 406, 1, 617); (407, 407, 1, 616); (408, 408, 1, 409);
   (412, 412, 1, 623); (413, 413, 1, 626); (415, 415, 1, 629); (416, 420, 2, 417);
   (422, 422, 1, 640); (423, 423, 1, 424); (425, 425, 1, 643); (428, 428, 1, 429);
   (430, 430, 1, 648); (431, 431, 1, 432); (433, 434, 1, 650); (435, 437, 2, 436);
   (439, 439, 1, 658); (440, 440, 1, 441); (444, 444, 1, 445); (452, 452, 1, 454);
   (453, 453, 1, 454); (455, 455, 1, 457); (456, 456, 1, 457); (458, 458, 1, 460);
   (459, 475, 2, 460); (478, 494, 2, 479); (497, 497, 1, 499); (498, 500, 2, 499);
   (502, 502, 1, 405); (503, 503, 1, 447); (504, 542, 2, 505); (544, 544, 1, 414);
   (546, 562, 2, 547); (570, 570, 1, 11365); (571, 571, 1, 572); (573, 573, 1, 410);
   (574, 574, 1, 11366); (577, 577, 1, 578); (579, 579, 1, 384); (580, 580, 1, 649);
   (581, 581, 1, 652); (582, 590, 2, 583); (880, 882, 2, 881); (886, 886, 1, 887);
   (895, 895, 1, 1011); (902, 902, 1, 940); (904, 906, 1, 941); (908, 908, 1, 972);
   (910, 911, 1, 973); (913, 929, 1, 945); (932, 939, 1, 964); (975, 975, 1, 983);
   (984, 1006, 2, 985); (1012, 1012, 1, 952); (1015, 1015, 1, 1016); (1017, 1017, 1, 1010);
   (1018, 1018, 1, 1019); (1021, 1023, 1, 891); (1024, 1039, 1, 1104); (1040, 1071, 1, 1072);
   (1120, 1152, 2, 1121); (1162, 1214, 2, 1163); (1216, 1216, 1, 1231); (1217, 1229, 2, 1218);
   (1232, 1326, 2, 1233); (1329, 1366, 1, 1377); (4256, 4293, 1, 11520);
   (4295, 4295, 1, 11559); (4301, 4301, 1, 11565); (5024, 5103, 1, 43888);
   (5104, 5109, 1, 5112); (7312, 7354, 1, 4304); (7357, 7359, 1, 4349); (7680, 7828, 2, 7681);
   (7838, 7838, 1, 223); (7840, 7934, 2, 7841); (7944, 7951, 1, 7936); (7960, 7965, 1, 7952);
   (7976, 7983, 1, 7968); (7992, 7999, 1, 7984); (8008, 8013, 1, 8000); (8025, 8031, 2, 8017);
   (8040, 8047, 1, 8032); (8072, 8079, 1, 8064); (8088, 8095, 1, 8080); (8104, 8111, 1, 8096);
   (8120, 8121, 1, 8112); (8122, 8123, 1, 8048); (8124, 8124, 1, 8115); (8136, 8139, 1, 8050);
   (8140, 8140, 1, 8131); (8152, 8153, 1, 8144); (8154, 8155, 1, 8054); (8168, 8169, 1, 8160);
   (8170, 8171, 1, 8058); (8172, 8172, 1, 8165); (8184, 8185, 1, 8056); (8186, 8187, 1, 8060);
   (8188, 8188, 1, 8179); (8486, 8486, 1, 969); (8490, 8490, 1, 107); (8491, 8491, 1, 229);
   (8498, 8498, 1, 8526); (8544, 8559, 1, 8560); (8579, 8579, 1, 8580); (9398, 9423, 1, 9424);
   (11264, 11311, 1, 11312); (11360, 11360, 1, 11361); (11362, 11362, 1, 619);
   (11363, 11363, 1, 7549); (11364, 11364, 1, 637); (11367, 11371, 2, 11368);
   (11373, 11373, 1, 593); (11374, 11374, 1, 625); (11375, 11375, 1, 592);
   (11376, 11376, 1, 594); (11378, 11378, 1, 11379); (11381, 11381, 1, 11382);
   (11390, 11391, 1, 575); (11392, 11490, 2, 11393); (11499, 11501, 2, 11500);
   (11506, 11506, 1, 11507); (42560, 42604, 2, 42561); (42624, 42650, 2, 42625);
   (42786, 42798, 2, 42787); (42802, 42862, 2, 42803); (42873, 42875, 2, 42874);
   (42877, 42877, 1, 7545); (42878, 42886, 2, 42879); (42891, 42891, 1, 42892);
   (42893, 42893, 1, 613); (42896, 42898, 2, 42897); (42902, 42920, 2, 42903);
   (42922, 42922, 1, 614); (42923, 42923, 1, 604); (42924, 42924, 1, 609);
   (42925, 42925, 1, 620); (42926, 42926, 1, 618); (42928, 42928, 1, 670);
   (42929, 42929, 1, 647); (42930, 42930, 1, 669); (42931, 42931, 1, 43859);
   (42932, 42946, 2, 42933); (42948, 42948, 1, 42900); (42949, 42949, 1, 642);
   (42950, 42950, 1, 7566); (42951, 42953, 2, 42952); (42960, 42960, 1, 42961);
   (42966, 42968, 2, 42967); (42997, 42997, 1, 42998); (65313, 65338, 1, 65345);
   (66560, 66599, 1, 66600); (66736, 66771, 1, 66776); (66928, 66938, 1, 66967);
   (66940, 66954, 1, 66979); (66956, 66962, 1, 66995); (66964, 66965, 1, 67003);
   (68736, 68786, 1, 68800); (71840, 71871, 1, 71872); (93760, 93791, 1, 93792);
   (125184, 125217, 1, 125218)]%N.

(** The cased code points that are not case-ignorable, and the
    case-ignorable ones (the two properties that decide the form of a
    small sigma). *)
Definition CASED : list (N * N) :=
  [
   (65, 90); (97, 122); (170, 170); (181, 181); (186, 186); (192, 214); (216, 246); (248, 442);
   (444, 447); (452, 659); (661, 687); (880, 883); (886, 887); (891, 893); (895, 895);
   (902, 902); (904, 906); (908, 908); (910, 929); (931, 1013); (1015, 1153); (1162, 1327);
   (1329, 1366); (1376, 1416); (4256, 4293); (4295, 4295); (4301, 4301); (4304, 4346);
   (4349, 4351); (5024, 5109); (5112, 5117); (7296, 7304); (7312, 7354); (7357, 7359);
   (7424, 7467); (7531, 7543); (7545, 7578); (7680, 7957); (7960, 7965); (7968, 8005);
   (8008, 8013); (8016, 8023); (8025, 8025); (8027, 8027); (8029, 8029); (8031, 8061);
   (8064, 8116); (8118, 8124); (8126, 8126); (8130, 8132); (8134, 8140); (8144, 8147);
   (8150, 8155); (8160, 8172); (8178, 8180); (8182, 8188); (8450, 8450); (8455, 8455);
   (8458, 8467); (8469, 8469); (8473, 8477); (8484, 8484); (8486, 8486); (8488, 8488);
   (8490, 8493); (8495, 8500); (8505, 8505); (8508, 8511); (8517, 8521); (8526, 8526);
   (8544, 8575); (8579, 8580); (9398, 9449); (11264, 11387); (11390, 11492); (11499, 11502);
   (11506, 11507); (11520, 11557); (11559, 11559); (11565, 11565); (42560, 42605);
   (42624, 42651); (42786, 42863); (42865, 42887); (42891, 42894); (42896, 42954);
   (42960, 42961); (42963, 42963); (42965, 42969); (42997, 42998); (43002, 43002);
   (43824, 43866); (43872, 43880); (43888, 43967); (64256, 64262); (64275, 64279);
   (65313, 65338); (65345, 65370); (66560, 66639); (66736, 66771); (66776, 66811);
   (66928, 66938); (66940, 66954); (66956, 66962); (66964, 66965); (66967, 66977);
   (66979, 66993); (66995, 67001); (67003, 67004); (68736, 68786); (68800, 68850);
   (71840, 71903); (93760, 93823); (119808, 119892); (119894, 119964); (119966, 119967);
   (119970, 119970); (119973, 119974); (119977, 119980); (119982, 119993); (119995, 119995);
   (119997, 120003); (120005, 120069); (120071, 120074); (120077, 120084); (120086, 120092);
   (120094, 120121); (120123, 120126); (120128, 120132); (120134, 120134); (120138, 120144);
   (120146, 120485); (120488, 120512); (120514, 120538); (120540, 120570); (120572, 120596);
   (120598, 120628); (120630, 120654); (120656, 120686); (120688, 120712); (120714, 120744);
   (120746, 120770); (120772, 120779); (122624, 122633); (122635, 122654); (125184, 125251);
   (127280, 127305); (127312, 127337); (127344, 127369)]%N.

Definition CASE_IGNORABLE : list (N * N) :=
  [
   (39, 39); (46, 46); (58, 58); (94, 94); (96, 96); (168, 168); (173, 173); (175, 175);
   (180, 180); (183, 184); (688, 879); (884, 885); (890, 890); (900, 901); (903, 903);
   (1155, 1161); (1369, 1369); (1375, 1375); (1425, 1469); (1471, 1471); (1473, 1474);
   (1476, 1477); (1479, 1479); (1524, 1524); (1536, 1541); (1552, 1562); (1564, 1564);
   (1600, 1600); (1611, 1631); (1648, 1648); (1750, 1757); (1759, 1768); (1770, 1773);
   (1807, 1807); (1809, 1809); (1840, 1866); (1958, 1968); (2027, 2037); (2042, 2042);
   (2045, 2045); (2070, 2093); (2137, 2139); (2184, 2184); (2192, 2193); (2200, 2207);
   (2249, 2306); (2362, 2362); (2364, 2364); (2369, 2376); (2381, 2381); (2385, 2391);
   (2402, 2403); (2417, 2417); (2433, 2433); (2492, 2492); (2497, 2500); (2509, 2509);
   (2530, 2531); (2558, 2558); (2561, 2562); (2620, 2620); (2625, 2626); (2631, 2632);
   (2635, 2637); (2641, 2641); (2672, 2673); (2677, 2677); (2689, 2690); (2748, 2748);
   (2753, 2757); (2759, 2760); (2765, 2765); (2786, 2787); (2810, 2815); (2817, 2817);
   (2876, 2876); (2879, 2879); (2881, 2884); (2893, 2893); (2901, 2902); (2914, 2915);
   (2946, 2946); (3008, 3008); (3021, 3021); (3072, 3072); (3076, 3076); (3132, 3132);
   (3134, 3136); (3142, 3144); (3146, 3149); (3157, 3158); (3170, 3171); (3201, 3201);
   (3260, 3260); (3263, 3263); (3270, 3270); (3276, 3277); (3298, 3299); (3328, 3329);
   (3387, 3388); (3393, 3396); (3405, 3405); (3426, 3427); (3457, 3457); (3530, 3530);
   (3538, 3540); (3542, 3542); (3633, 3633); (3636, 3642); (3654, 3662); (3761, 3761);
   (3764, 3772); (3782, 3782); (3784, 3789); (3864, 3865); (3893, 3893); (3895, 3895);
   (3897, 3897); (3953, 3966); (3968, 3972); (3974, 3975); (3981, 3991); (3993, 4028);
   (4038, 4038); (4141, 4144); (4146, 4151); (4153, 4154); (4157, 4158); (4184, 4185);
   (4190, 4192); (4209, 4212); (4226, 4226); (4229, 4230); (4237, 4237); (4253, 4253);
   (4348, 4348); (4957, 4959); (5906, 5908); (5938, 5939); (5970, 5971); (6002, 6003);
   (6068, 6069); (6071, 6077); (6086, 6086); (6089, 6099); (6103, 6103); (6109, 6109);
   (6155, 6159); (6211, 6211); (6277, 6278); (6313, 6313); (6432, 6434); (6439, 6440);
   (6450, 6450); (6457, 6459); (6679, 6680); (6683, 6683); (6742, 6742); (6744, 6750);
   (6752, 6752); (6754, 6754); (6757, 6764); (6771, 6780); (6783, 6783); (6823, 6823);
   (6832, 6862); (6912, 6915); (6964, 6964); (6966, 6970); (6972, 6972); (6978, 6978);
   (7019, 7027); (7040, 7041); (7074, 7077); (7080, 7081); (7083, 7085); (7142, 7142);
   (7144, 7145); (7149, 7149); (7151, 7153); (7212, 7219); (7222, 7223); (7288, 7293);
   (7376, 7378); (7380, 7392); (7394, 7400); (7405, 7405); (7412, 7412); (7416, 7417);
   (7468, 7530); (7544, 7544); (7579, 7679); (8125, 8125); (8127, 8129); (8141, 8143);
   (8157, 8159); (8173, 8175); (8189, 8190); (8203, 8207); (8216, 8217); (8228, 8228);
   (8231, 8231); (8234, 8238); (8288, 8292); (8294, 8303); (8305, 8305); (8319, 8319);
   (8336, 8348); (8400, 8432); (11388, 11389); (11503, 11505); (11631, 11631); (11647, 11647);
   (11744, 11775); (11823, 11823); (12293, 12293); (12330, 12333); (12337, 12341);
   (12347, 12347); (12441, 12446); (12540, 12542); (40981, 40981); (42232, 42237);
   (42508, 42508); (42607, 42610); (42612, 42621); (42623, 42623); (42652, 42655);
   (42736, 42737); (42752, 42785); (42864, 42864); (42888, 42890); (42994, 42996);
   (43000, 43001); (43010, 43010); (43014, 43014); (43019, 43019); (43045, 43046);
   (43052, 43052); (43204, 43205); (43232, 43249); (43263, 43263); (43302, 43309);
   (43335, 43345); (43392, 43394); (43443, 43443); (43446, 43449); (43452, 43453);
   (43471, 43471); (43493, 43494); (43561, 43566); (43569, 43570); (43573, 43574);
   (43587, 43587); (43596, 43596); (43632, 43632); (43644, 43644); (43696, 43696);
   (43698, 43700); (43703, 43704); (43710, 43711); (43713, 43713); (43741, 43741);
   (43756, 43757); (43763, 43764); (43766, 43766); (43867, 43871); (43881, 43883);
   (44005, 44005); (44008, 44008); (44013, 44013); (64286, 64286); (64434, 64450);
   (65024, 65039); (65043, 65043); (65056, 65071); (65106, 65106); (65109, 65109);
   (65279, 65279); (65287, 65287); (65294, 65294); (65306, 65306); (65342, 65342);
   (65344, 65344); (65392, 65392); (65438, 65439); (65507, 65507); (65529, 65531);
   (66045, 66045); (66272, 66272); (66422, 66426); (67456, 67461); (67463, 67504);
   (67506, 67514); (68097, 68099); (68101, 68102); (68108, 68111); (68152, 68154);
   (68159, 68159); (68325, 68326); (68900, 68903); (69291, 69292); (69446, 69456);
   (69506, 69509); (69633, 69633); (69688, 69702); (69744, 69744); (69747, 69748);
   (69759, 69761); (69811, 69814); (69817, 69818); (69821, 69821); (69826, 69826);
   (69837, 69837); (69888, 69890); (69927, 69931); (69933, 69940); (70003, 70003);
   (70016, 70017); (70070, 70078); (70089, 70092); (70095, 70095); (70191, 70193);
   (70196, 70196); (70198, 70199); (70206, 70206); (70367, 70367); (70371, 70378);
   (70400, 70401); (70459, 70460); (70464, 70464); (70502, 70508); (70512, 70516);
   (70712, 70719); (70722, 70724); (70726, 70726); (70750, 70750); (70835, 70840);
   (70842, 70842); (70847, 70848); (70850, 70851); (71090, 71093); (71100, 71101);
   (71103, 71104); (71132, 71133); (71219, 71226); (71229, 71229); (71231, 71232);
   (71339, 71339); (71341, 71341); (71344, 71349); (71351, 71351); (71453, 71455);
   (71458, 71461); (71463, 71467); (71727, 71735); (71737, 71738); (71995, 71996);
   (71998, 71998); (72003, 72003); (72148, 72151); (72154, 72155); (72160, 72160);
   (72193, 72202); (72243, 72248); (72251, 72254); (72263, 72263); (72273, 72278);
   (72281, 72283); (72330, 72342); (72344, 72345); (72752, 72758); (72760, 72765);
   (72767, 72767); (72850, 72871); (72874, 72880); (72882, 72883); (72885, 72886);
   (73009, 73014); (73018, 73018); (73020, 73021); (73023, 73029); (73031, 73031);
   (73104, 73105); (73109, 73109); (73111, 73111); (73459, 73460); (78896, 78904);
   (92912, 92916); (92976, 92982); (92992, 92995); (94031, 94031); (94095, 94111);
   (94176, 94177); (94179, 94180); (110576, 110579); (110581, 110587); (110589, 110590);
   (113821, 113822); (113824, 113827); (118528, 118573); (118576, 118598); (119143, 119145);
   (119155, 119170); (119173, 119179); (119210, 119213); (119362, 119364); (121344, 121398);
   (121403, 121452); (121461, 121461); (121476, 121476); (121499, 121503); (121505, 121519);
   (122880, 122886); (122888, 122904); (122907, 122913); (122915, 122916); (122918, 122922);
   (123184, 123197); (123566, 123566); (123628, 123631); (125136, 125142); (125252, 125259);
   (127995, 127999); (917505, 917505); (917536, 917631); (917760, 917999)]%N.

Definition lower_code (c : N) : option N :=
  match
    List.find (fun e => let '(lo, hi, step, _) := e in
                        (lo <=? c) && (c <=? hi) && ((c - lo) mod step =? 0))%N LOWER
  with
  | Some (lo, _, _, target) => Some (target + (c - lo))%N
  | None => None
  end.

(** Whether a capital sigma is final: a cased character before it and
    none after it, case-ignorable characters not counted.  [before] holds
    the characters that precede it, the nearest first. *)
Definition final_sigma (before after : list string) : bool :=
  let ignorable ch := in_ranges (code ch) CASE_IGNORABLE in
  let cased ch := in_ranges (code ch) CASED in
  match ltrim ignorable before with
  | [] => false
  | ch :: _ =>
      cased ch &&
      match ltrim ignorable after with
      | [] => true
      | d :: _ => negb (cased d)
      end
  end.

Fixpoint lower_chars (before l : list string) : list string :=
  match l with
  | [] => []
  | ch :: r =>
      let c := code ch in
      let low :=
        if (c =? 931)%N then encode (if final_sigma before r then 962 else 963)%N
        else if (c =? 304)%N then encode 105%N +:+ encode 775%N
        else match lower_code c with
             | Some c' => encode c'
             | None => ch
             end in
      low :: lower_chars (ch :: before) r
  end.

(** [s.lower()] *)
Definition lower (s : string) : string := join (lower_chars [] (chars s)).

(** *** Digits and integers *)

(** The code points for which [str.isdigit] holds, and those of the
    decimal digits, which come in runs of ten from 0 to 9. *)
Definition DIGITS : list (N * N) :=
  [
   (48, 57); (178, 179); (185, 185); (1632, 1641); (1776, 1785); (1984, 1993); (2406, 2415);
   (2534, 2543); (2662, 2671); (2790, 2799); (2918, 2927); (3046, 3055); (3174, 3183);
   (3302, 3311); (3430, 3439); (3558, 3567); (3664, 3673); (3792, 3801); (3872, 3881);
   (4160, 4169); (4240, 4249); (4969, 4977); (6112, 6121); (6160, 6169); (6470, 6479);
   (6608, 6618); (6784, 6793); (6800, 6809); (6992, 7001); (7088, 7097); (7232, 7241);
   (7248, 7257); (8304, 8304); (8308, 8313); (8320, 8329); (9312, 9320); (9332, 9340);
   (9352, 9360); (9450, 9450); (9461, 9469); (9471, 9471); (10102, 10110); (10112, 10120);
   (10122, 10130); (42528, 42537); (43216, 43225); (43264, 43273); (43472, 43481);
   (43504, 43513); (43600, 43609); (44016, 44025); (65296, 65305); (66720, 66729);
   (68160, 68163); (68912, 68921); (69216, 69224); (69714, 69722); (69734, 69743);
   (69872, 69881); (69942, 69951); (70096, 70105); (70384, 70393); (70736, 70745);
   (70864, 70873); (71248, 71257); (71360, 71369); (71472, 71481); (71904, 71913);
   (72016, 72025); (72784, 72793); (73040, 73049); (73120, 73129); (92768, 92777);
   (92864, 92873); (93008, 93017); (120782, 120831); (123200, 123209); (123632, 123641);
   (125264, 125273); (127232, 127242); (130032, 130041)]%N.

Definition DECIMALS : list (N * N) :=
  [
   (48, 57); (1632, 1641); (1776, 1785); (1984, 1993); (2406, 2415); (2534, 2543);
   (2662, 2671); (2790, 2799); (2918, 2927); (3046, 3055); (3174, 3183); (3302, 3311);
   (3430, 3439); (3558, 3567); (3664, 3673); (3792, 3801); (3872, 3881); (4160, 4169);
   (4240, 4249); (6112, 6121); (6160, 6169); (6470, 6479); (6608, 6617); (6784, 6793);
   (6800, 6809); (6992, 7001); (7088, 7097); (7232, 7241); (7248, 7257); (42528, 42537);
   (43216, 43225); (43264, 43273); (43472, 43481); (43504, 43513); (43600, 43609);
   (44016, 44025); (65296, 65305); (66720, 66729); (68912, 68921); (69734, 69743);
   (69872, 69881); (69942, 69951); (70096, 70105); (70384, 70393); (70736, 70745);
   (70864, 70873); (71248, 71257); (71360, 71369); (71472, 71481); (71904, 71913);
   (72016, 72025); (72784, 72793); (73040, 73049); (73120, 73129); (92768, 92777);
   (92864, 92873); (93008, 93017); (120782, 120831); (123200, 123209); (123632, 123641);
   (125264, 125273); (130032, 130041)]%N.

(** [ch.isdigit()] for one character. *)
Definition isdigit (ch : string) : bool := in_ranges (code ch) DIGITS.

(** [line[0].isdigit()], false for the empty text. *)
Definition first_isdigit (s : string) : bool :=
  match chars s with
  | ch :: _ => isdigit ch
  | [] => false
  end.

Definition decimal (c : N) : option Z :=
  match List.find (fun r => (fst r <=? c) && (c <=? snd r))%N DECIMALS with
  | Some (lo, _) => Some (Z.of_N ((c - lo) mod 10))
  | None => None
  end.

(** What [int] makes of a character before it reads the number: a digit,
    a blank, a sign, an underscore, or a character that no number has.
    FS to US count as white space for [str.isspace] but not here. *)
Inductive Token := Digit (d : Z) | Blank | Plus | Minus | Underscore | Other.

Definition token (ch : string) : Token :=
  let c := code ch in
  if (c <? 127)%N then
    if ((48 <=? c) && (c <=? 57))%N then Digit (Z.of_N c - 48)
    else if (((9 <=? c) && (c <=? 13)) || (c =? 32))%N then Blank
    else if (c =? 43)%N then Plus
    else if (c =? 45)%N then Minus
    else if (c =? 95)%N then Underscore
    else Other
  else if in_ranges c SPACES then Blank
  else match decimal c with
       | Some d => Digit d
       | None => Other
       end.

Definition is_blank (t : Token) : bool :=
  match t with Blank => true | _ => false end.

(** The digits of a number, single underscores allowed between two
    digits: the value and the number of digits.  [acc] is the value read
    so far, [n] the number of digits read, [after_digit] tells whether
    the previous token was a digit. *)
Fixpoint int_digits (acc : Z) (n : nat) (after_digit : bool) (l : list Token)
  : option (Z * nat) :=
  match l with
  | [] => if after_digit then Some (acc, n) else None
  | Digit d :: r => int_digits (10 * acc + d) (S n) true r
  | Underscore :: r => if after_digit then int_digits acc n false r else None
  | _ => None
  end.

(** [sys.get_int_max_str_digits()] *)
Definition INT_MAX_STR_DIGITS : nat := 4300.

(** [int(s)]: white space around the number and one sign are accepted;
    [None] stands for [ValueError]. *)
Definition int (s : string) : option Z :=
  let l := rtrim is_blank (ltrim is_blank (map token (chars s))) in
  let '(negative, digits) :=
    match l with
    | Plus :: r => (false, r)
    | Minus :: r => (true, r)
    | _ => (false, l)
    end in
  match int_digits 0 0 false digits with
  | Some (v, n) =>
      if (INT_MAX_STR_DIGITS <? n)%nat then None
      else Some (if negative then Z.opp v else v)
  | None => None
  end.

(** [str(n)] for an integer. *)
Definition of_Z (n : Z) : string := NilZero.string_of_int (Z.to_int n).

(** *** Bytes

    The operations below look for ASCII characters or compare whole
    texts; on UTF-8 they are the same on bytes as on characters. *)

(** [s.lstrip(chars)], the set of characters given by a predicate. *)
Fixpoint lstrip_with (p : ascii -> bool) (s : string) : string :=
  match s with
  | EmptyString => EmptyString
  | String c r => if p c then lstrip_with p r else s
  end.

(** [s.rstrip(chars)] *)
Fixpoint rstrip_with (p : ascii -> bool) (s : string) : string :=
  match s with
  | EmptyString => EmptyString
  | String c r =>
      match rstrip_with p r with
      | EmptyString => if p c then EmptyString else String c EmptyString
      | r' => String c r'
      end
  end.

Definition strip_with (p : ascii -> bool) (s : string) : string :=
  rstrip_with p (lstrip_with p s).

Fixpoint mem_char (c : ascii) (cs : string) : bool :=
  match cs with
  | EmptyString => false
  | String d r => Ascii.eqb c d || mem_char c r
  end.

(** [s.strip(chars)] for ASCII [chars] *)
Definition strip_chars (chars s : string) : string :=
  strip_with (fun c => mem_char c chars) s.

(** [s.split(sep)] for a one-character separator: never the empty list. *)
Fixpoint split (sep : ascii) (s : string) : list string :=
  match s with
  | EmptyString => [EmptyString]
  | String c r =>
      if Ascii.eqb c sep then EmptyString :: split sep r
      else match split sep r with
           | h :: t => String c h :: t
           | [] => [String c EmptyString]
           end
  end.

(** [s.split(sep, 1)]: the text before the first separator and, when there
    is one, the text after it (the result list has one or two elements). *)
Fixpoint split1 (sep : ascii) (s : string) : string * option string :=
  match s with
  | EmptyString => (EmptyString, None)
  | String c r =>
      if Ascii.eqb c sep then (EmptyString, Some r)
      else let '(h, t) := split1 sep r in (String c h, t)
  end.

(** [s.startswith(p)] *)
Definition startswith (p s : string) : bool := String.prefix p s.

(** [w in s] *)
Fixpoint contains (w s : string) : bool :=
  match s with
  | EmptyString => String.prefix w EmptyString
  | String _ r => String.prefix w s || contains w r
  end.

(** [s.replace(old, new)]: occurrences are found left to right and do not
    overlap; [skip] counts the characters of the occurrence being dropped. *)
Fixpoint replace_from (skip : nat) (old new s : string) : string :=
  match s with
  | EmptyString => EmptyString
  | String c r =>
      match skip with
      | S k => replace_from k old new r
      | O =>
          if String.prefix old s
          then new +:+ replace_from (String.length old - 1) old new r
          else String c (replace_from 0 old new r)
      end
  end.

Fixpoint intersperse (new s : string) : string :=
  match s with
  | EmptyString => new
  | String c r => new +:+ String c (intersperse new r)
  end.

Definition replace (old new s : string) : string :=
  match old with
  | EmptyString => intersperse new s
  | _ => replace_from 0 old new s
  end.

(** The line feed and the double quote. *)
Definition nl : string := String (ascii_of_N 10) "".
Definition dquote : string := String (ascii_of_N 34) "".

(** What [read_text] makes of the text of a file (newline=None): a
    carriage return, with the line feed that follows it if there is one,
    is read as one line feed. *)
Fixpoint universal_newlines (s : string) : string :=
  match s with
  | EmptyString => EmptyString
  | String c r =>
      if Ascii.eqb c (ascii_of_N 13) then
        String (ascii_of_N 10)
          match r with
          | String d r' =>
              if Ascii.eqb d (ascii_of_N 10) then universal_newlines r'
              else universal_newlines r
          | EmptyString => EmptyString
          end
      else String c (universal_newlines r)
  end.

End PyStr.

Global Arguments PyStr.strip : simpl never.
Global Arguments PyStr.lstrip : simpl never.
Global Arguments PyStr.rstrip : simpl never.
Global Arguments PyStr.lower : simpl never.
Global Arguments PyStr.int : simpl never.
Global Arguments PyStr.len : simpl never.
Global Arguments PyStr.take : simpl never.
Global Arguments PyStr.first_isdigit : simpl never.
Global Arguments PyStr.split_ws : simpl never.

Example strip_ex : PyStr.strip "  1. a b  " = "1. a b".
Proof. vm_compute. reflexivity. Qed.
Example split_ex : PyStr.split "," "a,b,,c" = ["a"; "b"; ""; "c"].
Proof. reflexivity. Qed.
Example split1_ex : PyStr.split1 "." "12. a.b" = ("12", Some " a.b").
Proof. reflexivity. Qed.
Example replace_ex : PyStr.replace "www." "" "awww.www.b.www" = "ab.www".
Proof. reflexivity. Qed.
Example int_ex : PyStr.int " 1_0 " = Some 10%Z /\ PyStr.int "1__0" = None /\ PyStr.int "007" = Some 7%Z.
Proof. repeat split; vm_compute; reflexivity. Qed.
Example of_Z_ex : PyStr.of_Z 0 = "0" /\ PyStr.of_Z 120 = "120" /\ PyStr.of_Z (-5) = "-5".
Proof. repeat split; reflexivity. Qed.
Example len_ex : PyStr.len "Дайджест" = 8%nat /\ PyStr.take 3 "Дайджест" = "Дай".
Proof. split; vm_compute; reflexivity. Qed.
Example strip_nbsp_ex :
  PyStr.strip (String (ascii_of_N 194) (String (ascii_of_N 160) "a ")) = "a".
Proof. vm_compute. reflexivity. Qed.
Example isdigit_ex :
  PyStr.first_isdigit "٢" = true /\ PyStr.first_isdigit "²" = true /\
  PyStr.int "١٢" = Some 12%Z /\ PyStr.int "²" = None.
Proof. repeat split; vm_compute; reflexivity. Qed.
Example lower_ex : PyStr.lower "Ask HN: ΣΑΣ" = "ask hn: σας".
Proof. vm_compute. reflexivity. Qed.
Example universal_newlines_ex :
  PyStr.universal_newlines
    ("a" +:+ String (ascii_of_N 13) (String (ascii_of_N 10) ("b" +:+ String (ascii_of_N 13) "c")))
  = "a" +:+ String (ascii_of_N 10) ("b" +:+ String (ascii_of_N 10) "c").
Proof. vm_compute. reflexivity. Qed.

(* --------------------------------------------------------------------- *)
(** *** Facts on the string operations *)
(* --------------------------------------------------------------------- *)

Module PyStrFacts.
Import PyStr.

Lemma append_cons x (a b : string) : String x a +:+ b = String x (a +:+ b).
Proof. reflexivity. Qed.

Lemma append_assoc (a b c : string) : (a +:+ b) +:+ c = a +:+ (b +:+ c).
Proof. induction a as [|x a IH]; [done|]. by rewrite !append_cons, IH. Qed.

Lemma append_nil_r (a : string) : a +:+ "" = a.
Proof. induction a as [|x a IH]; [done|]. by rewrite append_cons, IH. Qed.

Lemma contains_one_char c s : contains (String c "") s = mem_char c s.
Proof.
  induction s as [|x s IH]; [done|]. cbn [contains mem_char String.prefix].
  rewrite IH. destruct (ascii_dec c x) as [->|Hne].
  - rewrite Ascii.eqb_refl. by destruct s.
  - destruct (Ascii.eqb c x) eqn:E; [apply Ascii.eqb_eq in E; by subst|done].
Qed.

Lemma mem_char_app c a b :
  mem_char c (a +:+ b) = mem_char c a || mem_char c b.
Proof.
  induction a as [|x a IH]; [done|].
  rewrite append_cons. cbn [mem_char]. by rewrite IH, orb_assoc.
Qed.

(** **** Trimming *)

Section Strip.
Variable p : ascii -> bool.

Lemma lstrip_with_keep c s : p c = false -> lstrip_with p (String c s) = String c s.
Proof. intros H. simpl. by rewrite H. Qed.

Lemma rstrip_with_cons c s :
  rstrip_with p (String c s) =
  match rstrip_with p s with
  | EmptyString => if p c then EmptyString else String c EmptyString
  | r => String c r
  end.
Proof. reflexivity. Qed.

(** Trimming on the right stops at a character that is kept. *)
Lemma rstrip_with_app_keep a c b :
  p c = false -> rstrip_with p (a +:+ String c b) = a +:+ String c (rstrip_with p b).
Proof.
  intros H. induction a as [|x a IH].
  - change ("" +:+ String c b) with (String c b).
    rewrite rstrip_with_cons. destruct (rstrip_with p b); [by rewrite H|done].
  - rewrite append_cons, rstrip_with_cons, IH. by destruct a.
Qed.

Lemma rstrip_with_idemp s : rstrip_with p (rstrip_with p s) = rstrip_with p s.
Proof.
  induction s as [|c s IH]; [done|]. rewrite rstrip_with_cons.
  destruct (rstrip_with p s) as [|d r] eqn:E.
  - destruct (p c) eqn:Hc; [done|]. simpl. by rewrite Hc.
  - rewrite rstrip_with_cons, IH. done.
Qed.

Lemma lstrip_with_idemp s : lstrip_with p (lstrip_with p s) = lstrip_with p s.
Proof.
  induction s as [|c s IH]; [done|]. simpl.
  destruct (p c) eqn:Hc; [done|]. simpl. by rewrite Hc.
Qed.

Lemma lstrip_rstrip_with s :
  lstrip_with p (rstrip_with p s) = rstrip_with p (lstrip_with p s).
Proof.
  induction s as [|c s IH]; [done|]. rewrite rstrip_with_cons.
  destruct (p c) eqn:Hc.
  - cbn [lstrip_with]. rewrite Hc, <- IH.
    destruct (rstrip_with p s) as [|d r]; [done|]. cbn [lstrip_with]. by rewrite Hc.
  - cbn [lstrip_with]. rewrite Hc, rstrip_with_cons.
    destruct (rstrip_with p s) as [|d r]; cbn [lstrip_with]; by rewrite Hc.
Qed.

Lemma strip_with_idemp s : strip_with p (strip_with p s) = strip_with p s.
Proof.
  unfold strip_with.
  by rewrite lstrip_rstrip_with, lstrip_with_idemp, rstrip_with_idemp.
Qed.

Lemma strip_with_rstrip s : strip_with p (rstrip_with p s) = strip_with p s.
Proof.
  unfold strip_with. by rewrite lstrip_rstrip_with, rstrip_with_idemp.
Qed.

(** A text that starts and ends on characters that are kept. *)
Lemma strip_with_field c key d value :
  p c = false -> p d = false ->
  strip_with p (String c key +:+ String d value)
  = String c key +:+ String d (rstrip_with p value).
Proof.
  intros Hc Hd. unfold strip_with.
  rewrite append_cons, lstrip_with_keep by done.
  by rewrite <- append_cons, rstrip_with_app_keep.
Qed.

Lemma mem_char_lstrip_with x s :
  mem_char x s = false -> mem_char x (lstrip_with p s) = false.
Proof.
  induction s as [|c s IH]; [done|]. simpl.
  intros [H1 H2]%orb_false_elim. destruct (p c); [by apply IH|].
  simpl. by rewrite H1, H2.
Qed.

Lemma mem_char_rstrip_with x s :
  mem_char x s = false -> mem_char x (rstrip_with p s) = false.
Proof.
  induction s as [|c s IH]; [done|]. rewrite rstrip_with_cons.
  cbn [mem_char]. intros [H1 H2]%orb_false_elim. specialize (IH H2).
  destruct (rstrip_with p s) as [|d r].
  - destruct (p c); [done|]. simpl. by rewrite H1.
  - cbn [mem_char] in *. by rewrite H1, IH.
Qed.

Lemma mem_char_strip_with x s :
  mem_char x s = false -> mem_char x (strip_with p s) = false.
Proof. intros H. by apply mem_char_rstrip_with, mem_char_lstrip_with. Qed.

End Strip.

(** **** Characters *)

Lemma append_inv_head (a b c : string) : a +:+ b = a +:+ c -> b = c.
Proof. induction a as [|x a IH]; [done|]. rewrite !append_cons. intros [=]. by apply IH. Qed.

Lemma length_append (a b : string) :
  String.length (a +:+ b) = (String.length a + String.length b)%nat.
Proof. induction a as [|x a IH]; [done|]. rewrite append_cons. simpl. by rewrite IH. Qed.

Definition starts_cont (s : string) : bool :=
  match s with
  | String c _ => is_cont c
  | EmptyString => false
  end.

(** The first character of a text and the rest of it. *)
Lemma chars_cons s ch l :
  chars s = ch :: l -> ch <> "" /\ exists r, s = ch +:+ r /\ chars r = l.
Proof.
  destruct s as [|a r]; [done|]. cbn [chars].
  destruct (need a) as [|[|[|[|n]]]].
  - intros [= <- <-]. split; [done|]. by exists r.
  - destruct r as [|b r1]; [intros [= <- <-]; split; [done|]; by exists ""|].
    destruct (is_cont b); intros [= <- <-]; (split; [done|]); [by exists r1|by exists (String b r1)].
  - destruct r as [|b [|c r2]]; try (intros [= <- <-]; split; [done|]; by eexists).
    destruct (is_cont b && is_cont c); intros [= <- <-]; (split; [done|]); by eexists.
  - destruct r as [|b [|c [|d r3]]]; try (intros [= <- <-]; split; [done|]; by eexists).
    destruct (is_cont b && is_cont c && is_cont d); intros [= <- <-]; (split; [done|]);
      by eexists.
  - intros [= <- <-]. split; [done|]. by exists r.
Qed.

Lemma chars_nil s : chars s = [] -> s = "".
Proof.
  destruct s as [|a r]; [done|]. cbn [chars].
  destruct (need a) as [|[|[|[|n]]]]; try done;
    destruct r as [|b [|c [|d r3]]]; try done;
    match goal with |- context [if ?b then _ else _] => by destruct b end.
Qed.

Lemma join_cons x l : join (x :: l) = x +:+ join l.
Proof. reflexivity. Qed.

Lemma join_app l1 l2 : join (l1 ++ l2) = join l1 +:+ join l2.
Proof.
  induction l1 as [|x l1 IH]; [done|].
  rewrite <- app_comm_cons, !join_cons, IH. by rewrite append_assoc.
Qed.

(** A text is the text of its characters. *)
Lemma join_chars s : join (chars s) = s.
Proof.
  remember (String.length s) as n eqn:Hn. revert s Hn.
  induction n as [n IH] using lt_wf_ind. intros s ->.
  destruct (chars s) as [|ch l] eqn:E; [by apply chars_nil in E|].
  apply chars_cons in E as (Hne & r & -> & <-).
  rewrite join_cons. f_equal. apply (IH (String.length r)); [|done].
  rewrite length_append. destruct ch; [done|]. simpl. lia.
Qed.

(** The characters that follow the first one are those of the rest. *)
Lemma chars_join_tail ch l : chars (join (ch :: l)) = ch :: l -> chars (join l) = l.
Proof.
  intros H. pose proof H as (_ & r & Hr & <-)%chars_cons.
  rewrite join_cons in Hr. apply append_inv_head in Hr. by rewrite Hr.
Qed.

Lemma chars_join_suffix l1 l2 : chars (join (l1 ++ l2)) = l1 ++ l2 -> chars (join l2) = l2.
Proof.
  induction l1 as [|x l1 IH]; [done|]. intros H. apply IH.
  by apply chars_join_tail in H.
Qed.

(** A text that does not start in the middle of a character does not
    change the characters of the text before it. *)
Lemma chars_eq a r :
  chars (String a r) =
  match need a, r with
  | 1%nat, String b r1 =>
      if is_cont b then String a (String b "") :: chars r1 else String a "" :: chars r
  | 2%nat, String b (String c r2) =>
      if is_cont b && is_cont c then String a (String b (String c "")) :: chars r2
      else String a "" :: chars r
  | 3%nat, String b (String c (String d r3)) =>
      if is_cont b && is_cont c && is_cont d
      then String a (String b (String c (String d ""))) :: chars r3
      else String a "" :: chars r
  | _, _ => String a "" :: chars r
  end.
Proof. reflexivity. Qed.

Lemma append_nil_l (a : string) : "" +:+ a = a.
Proof. reflexivity. Qed.

Lemma chars_app a b : starts_cont b = false -> chars (a +:+ b) = chars a ++ chars b.
Proof.
  destruct b as [|b0 b']; [intros _; by rewrite append_nil_r, app_nil_r|].
  cbn [starts_cont]. intros Hb.
  remember (String.length a) as n eqn:Hn. revert a Hn.
  induction n as [n IH] using lt_wf_ind. intros a ->.
  assert (Hrec : forall r, (String.length r < String.length a)%nat ->
                           chars (r +:+ String b0 b') = chars r ++ chars (String b0 b')).
  { intros r Hr. by apply (IH (String.length r)). }
  clear IH. destruct a as [|x r]; [done|].
  rewrite append_cons, (chars_eq x (r +:+ _)), (chars_eq x r).
  destruct (need x) as [|[|[|[|k]]]].
  - rewrite <- app_comm_cons. f_equal. apply Hrec. simpl. lia.
  - destruct r as [|y r1].
    + rewrite append_nil_l, Hb. done.
    + rewrite append_cons. destruct (is_cont y); rewrite <- app_comm_cons; f_equal.
      * apply Hrec. simpl. lia.
      * rewrite <- append_cons. apply Hrec. simpl. lia.
  - destruct r as [|y [|z r2]].
    + rewrite append_nil_l. destruct b' as [|b1 b']; [done|]. by rewrite Hb.
    + rewrite append_cons, append_nil_l, Hb, andb_false_r, <- app_comm_cons. f_equal.
      change (String y (String b0 b')) with (String y "" +:+ String b0 b').
      apply Hrec. simpl. lia.
    + rewrite !append_cons. destruct (is_cont y && is_cont z); rewrite <- app_comm_cons; f_equal.
      * apply Hrec. simpl. lia.
      * rewrite <- !append_cons. apply Hrec. simpl. lia.
  - destruct r as [|y [|z [|w r3]]].
    + rewrite append_nil_l. destruct b' as [|b1 [|b2 b']]; try done. by rewrite Hb.
    + rewrite append_cons, append_nil_l. destruct b' as [|b1 b'].
      * rewrite <- app_comm_cons. f_equal.
        change (String y (String b0 "")) with (String y "" +:+ String b0 "").
        apply Hrec. simpl. lia.
      * rewrite Hb, andb_false_r. cbn [andb]. rewrite <- app_comm_cons. f_equal.
        change (String y (String b0 (String b1 b')))
          with (String y "" +:+ String b0 (String b1 b')).
        apply Hrec. simpl. lia.
    + rewrite !append_cons, append_nil_l, Hb, andb_false_r, <- app_comm_cons. f_equal.
      change (String y (String z (String b0 b')))
        with (String y (String z "") +:+ String b0 b').
      apply Hrec. simpl. lia.
    + rewrite !append_cons. destruct (is_cont y && is_cont z && is_cont w);
        rewrite <- app_comm_cons; f_equal.
      * apply Hrec. simpl. lia.
      * rewrite <- !append_cons. apply Hrec. simpl. lia.
  - rewrite <- app_comm_cons. f_equal. apply Hrec. simpl. lia.
Qed.

(** A character that has a code point starts on a lead byte. *)
Lemma code_start ch : (code ch < no_code)%N -> starts_cont ch = false.
Proof.
  assert (Hneed : forall a, is_cont a = true -> need a = 0%nat /\ (byte a <? 128)%N = false).
  { intros a Ha. unfold is_cont in Ha. apply andb_prop in Ha as [H1 H2].
    apply N.leb_le in H1, H2. unfold need.
    assert (E1 : (194 <=? byte a)%N = false) by (apply N.leb_gt; lia).
    assert (E2 : (224 <=? byte a)%N = false) by (apply N.leb_gt; lia).
    assert (E3 : (240 <=? byte a)%N = false) by (apply N.leb_gt; lia).
    rewrite E1, E2, E3. split; [done|]. apply N.ltb_ge. lia. }
  destruct ch as [|a r]; [done|]. cbn [starts_cont].
  destruct (is_cont a) eqn:Ha; [|done]. destruct (Hneed a Ha) as [Hn Hb].
  intros H. exfalso. revert H. unfold code. rewrite Hn, Hb.
  destruct r as [|b [|c [|d [|e r]]]]; cbn [Nat.eqb andb]; unfold no_code; lia.
Qed.

Lemma in_ranges_bound c table bound :
  forallb (fun r => (snd r <? bound)%N) table = true ->
  in_ranges c table = true -> (c < bound)%N.
Proof.
  unfold in_ranges. intros Hall (r & Hr & Hc)%existsb_exists.
  rewrite forallb_forall in Hall. specialize (Hall r Hr).
  apply N.ltb_lt in Hall. apply andb_prop in Hc as [_ Hc]. apply N.leb_le in Hc. lia.
Qed.

Lemma isspace_start ch : isspace ch = true -> starts_cont ch = false.
Proof.
  intros H. apply code_start. by apply (in_ranges_bound _ SPACES).
Qed.

(** **** Trimming a list *)

Section Trim.
Context {A : Type} (p : A -> bool).

Lemma rtrim_cons x l :
  rtrim p (x :: l) =
  match rtrim p l with
  | [] => if p x then [] else [x]
  | r => x :: r
  end.
Proof. reflexivity. Qed.

Lemma ltrim_suffix l : exists k, l = k ++ ltrim p l /\ forallb p k = true.
Proof.
  induction l as [|x l (k & Hk & Hp)]; [by exists []|]. cbn [ltrim].
  destruct (p x) eqn:Hx; [|by exists []].
  exists (x :: k). cbn [app forallb]. rewrite Hx, Hp. by rewrite <- Hk.
Qed.

Lemma rtrim_prefix l : exists k, l = rtrim p l ++ k /\ forallb p k = true.
Proof.
  induction l as [|x l (k & Hk & Hp)]; [by exists []|]. rewrite rtrim_cons.
  destruct (rtrim p l) as [|y r] eqn:E.
  - destruct (p x) eqn:Hx.
    + exists (x :: k). cbn [app forallb]. rewrite Hx, Hp. by rewrite Hk at 1.
    + exists k. split; [|done]. cbn [app] in *. by rewrite Hk at 1.
  - exists k. split; [|done]. cbn [app] in *. by rewrite Hk at 1.
Qed.

Lemma rtrim_app_keep a x b :
  p x = false -> rtrim p (a ++ x :: b) = a ++ x :: rtrim p b.
Proof.
  intros Hx. induction a as [|y a IH].
  - cbn [app]. rewrite rtrim_cons. destruct (rtrim p b); [by rewrite Hx|done].
  - cbn [app]. rewrite rtrim_cons, IH. by destruct a.
Qed.

Lemma rtrim_idemp l : rtrim p (rtrim p l) = rtrim p l.
Proof.
  induction l as [|x l IH]; [done|]. rewrite rtrim_cons.
  destruct (rtrim p l) as [|y r] eqn:E.
  - destruct (p x) eqn:Hx; [done|]. cbn. by rewrite Hx.
  - by rewrite rtrim_cons, IH.
Qed.

Lemma ltrim_idemp l : ltrim p (ltrim p l) = ltrim p l.
Proof.
  induction l as [|x l IH]; [done|]. cbn [ltrim].
  destruct (p x) eqn:Hx; [done|]. cbn [ltrim]. by rewrite Hx.
Qed.

Lemma ltrim_rtrim l : ltrim p (rtrim p l) = rtrim p (ltrim p l).
Proof.
  induction l as [|x l IH]; [done|]. rewrite rtrim_cons.
  destruct (p x) eqn:Hx.
  - cbn [ltrim]. rewrite Hx, <- IH.
    destruct (rtrim p l) as [|y r]; [done|]. cbn [ltrim]. by rewrite Hx.
  - cbn [ltrim]. rewrite Hx, rtrim_cons.
    destruct (rtrim p l) as [|y r]; cbn [ltrim]; by rewrite Hx.
Qed.

Lemma ltrim_keep x l : p x = false -> ltrim p (x :: l) = x :: l.
Proof. intros H. cbn [ltrim]. by rewrite H. Qed.

Lemma ltrim_drop x l : p x = true -> ltrim p (x :: l) = ltrim p l.
Proof. intros H. cbn [ltrim]. by rewrite H. Qed.

Lemma rtrim_elem x l : x ∈ rtrim p l -> x ∈ l.
Proof.
  destruct (rtrim_prefix l) as (k & Hk & _). intros H. rewrite Hk.
  apply elem_of_app. by left.
Qed.

Lemma ltrim_elem x l : x ∈ ltrim p l -> x ∈ l.
Proof.
  destruct (ltrim_suffix l) as (k & Hk & _). intros H. rewrite Hk.
  apply elem_of_app. by right.
Qed.

End Trim.

(** **** Trimming white space *)

(** The characters of a text whose white space was trimmed are the
    characters that were kept. *)
Lemma chars_join_ltrim s : chars (join (ltrim isspace (chars s))) = ltrim isspace (chars s).
Proof.
  destruct (ltrim_suffix isspace (chars s)) as (k & Hk & _).
  apply (chars_join_suffix k). rewrite <- Hk. by rewrite join_chars.
Qed.

Lemma forallb_space_start k : forallb isspace k = true -> starts_cont (join k) = false.
Proof.
  destruct k as [|ch k]; [done|]. cbn [forallb join fold_right].
  intros [H _]%andb_prop. destruct ch as [|c ch]; [done|].
  apply isspace_start in H. by rewrite append_cons.
Qed.

Lemma chars_join_rtrim l :
  chars (join l) = l -> chars (join (rtrim isspace l)) = rtrim isspace l.
Proof.
  intros Hl. destruct (rtrim_prefix isspace l) as (k & Hk & Hp).
  assert (Hsuf : chars (join k) = k).
  { apply (chars_join_suffix (rtrim isspace l)). by rewrite <- Hk. }
  assert (H : chars (join (rtrim isspace l) +:+ join k) = rtrim isspace l ++ k).
  { rewrite <- join_app, <- Hk. exact Hl. }
  rewrite chars_app, Hsuf in H by (by apply forallb_space_start). by apply app_inv_tail in H.
Qed.

Lemma chars_lstrip s : chars (lstrip s) = ltrim isspace (chars s).
Proof. apply chars_join_ltrim. Qed.

Lemma chars_rstrip s : chars (rstrip s) = rtrim isspace (chars s).
Proof. apply chars_join_rtrim. by rewrite join_chars. Qed.

Lemma chars_strip s : chars (strip s) = rtrim isspace (ltrim isspace (chars s)).
Proof. apply chars_join_rtrim, chars_join_ltrim. Qed.

Lemma strip_idemp s : strip (strip s) = strip s.
Proof.
  unfold strip at 1. rewrite chars_strip.
  by rewrite ltrim_rtrim, ltrim_idemp, rtrim_idemp.
Qed.

Lemma strip_rstrip s : strip (rstrip s) = strip s.
Proof.
  unfold strip. rewrite chars_rstrip. by rewrite ltrim_rtrim, rtrim_idemp.
Qed.

Lemma strip_lstrip s : strip (lstrip s) = strip s.
Proof. unfold strip. rewrite chars_lstrip. by rewrite ltrim_idemp. Qed.

(** An ASCII character is a character of its own. *)
Definition ascii_char (c : ascii) : bool := (byte c <? 128)%N.

Lemma chars_ascii c s : ascii_char c = true -> chars (String c s) = String c "" :: chars s.
Proof.
  intros Hc. unfold ascii_char in Hc. apply N.ltb_lt in Hc. rewrite chars_eq. unfold need.
  assert (E1 : (194 <=? byte c)%N = false) by (apply N.leb_gt; lia).
  assert (E2 : (224 <=? byte c)%N = false) by (apply N.leb_gt; lia).
  assert (E3 : (240 <=? byte c)%N = false) by (apply N.leb_gt; lia).
  by rewrite E1, E2, E3.
Qed.

Lemma starts_cont_ascii c s : ascii_char c = true -> starts_cont (String c s) = false.
Proof.
  intros Hc. unfold ascii_char in Hc. apply N.ltb_lt in Hc. cbn [starts_cont]. unfold is_cont.
  assert (E1 : (128 <=? byte c)%N = false) by (apply N.leb_gt; lia).
  by rewrite E1.
Qed.

(** A text that starts on an ASCII character that is no white space and
    holds another one: the white space before the second one is kept. *)
Lemma strip_field c key d value :
  ascii_char c = true -> isspace (String c "") = false ->
  ascii_char d = true -> isspace (String d "") = false ->
  strip (String c key +:+ String d value) = String c key +:+ String d (rstrip value).
Proof.
  intros Hc Hcs Hd Hds. unfold strip, rstrip.
  rewrite append_cons, chars_ascii by done. rewrite ltrim_keep by done.
  rewrite chars_app by (by apply starts_cont_ascii). rewrite chars_ascii by done.
  rewrite app_comm_cons, rtrim_app_keep by done.
  rewrite join_app. cbn [join fold_right]. rewrite join_chars.
  by rewrite append_cons.
Qed.

(** White space at the start of a text is trimmed. *)
Lemma strip_space c s : isspace (String c "") = true -> ascii_char c = true ->
  strip (String c s) = strip s.
Proof. intros Hs Hc. unfold strip. by rewrite chars_ascii, ltrim_drop. Qed.

Lemma mem_char_join x l : mem_char x (join l) = existsb (mem_char x) l.
Proof.
  induction l as [|y l IH]; [done|]. cbn [join fold_right existsb].
  by rewrite mem_char_app, <- IH.
Qed.

Lemma mem_char_chars x s : mem_char x s = false -> Forall (fun ch => mem_char x ch = false) (chars s).
Proof.
  intros H. rewrite <- (join_chars s), mem_char_join in H.
  apply Forall_forall. intros ch Hch. destruct (mem_char x ch) eqn:E; [|done].
  assert (existsb (mem_char x) (chars s) = true); [|congruence].
  apply existsb_exists. exists ch. by rewrite <- list_elem_of_In.
Qed.

Lemma mem_char_join_false x l : Forall (fun ch => mem_char x ch = false) l -> mem_char x (join l) = false.
Proof.
  intros H. rewrite mem_char_join. destruct (existsb _ l) eqn:E; [|done].
  apply existsb_exists in E as (ch & Hch & Hx). rewrite Forall_forall in H.
  rewrite <- list_elem_of_In in Hch. by rewrite (H ch Hch) in Hx.
Qed.

Lemma mem_char_strip x s : mem_char x s = false -> mem_char x (strip s) = false.
Proof.
  intros H. apply mem_char_join_false, Forall_forall. intros ch Hch.
  apply rtrim_elem, ltrim_elem in Hch.
  pose proof (mem_char_chars x s H) as Hall. rewrite Forall_forall in Hall. by apply Hall.
Qed.

Lemma mem_char_rstrip x s : mem_char x s = false -> mem_char x (rstrip s) = false.
Proof.
  intros H. apply mem_char_join_false, Forall_forall. intros ch Hch.
  apply rtrim_elem in Hch.
  pose proof (mem_char_chars x s H) as Hall. rewrite Forall_forall in Hall. by apply Hall.
Qed.

(** **** Line ends *)

Lemma universal_newlines_no_cr s :
  mem_char (ascii_of_N 13) s = false -> universal_newlines s = s.
Proof.
  induction s as [|c s IH]; [done|]. cbn [mem_char universal_newlines].
  intros [H1 H2]%orb_false_elim. rewrite Ascii.eqb_sym in H1. rewrite H1. by rewrite IH.
Qed.

Lemma universal_newlines_app a b :
  mem_char (ascii_of_N 13) a = false ->
  universal_newlines (a +:+ b) = a +:+ universal_newlines b.
Proof.
  induction a as [|c a IH]; [done|]. cbn [mem_char].
  intros [H1 H2]%orb_false_elim. rewrite Ascii.eqb_sym in H1.
  rewrite !append_cons. cbn [universal_newlines]. rewrite H1. by rewrite IH.
Qed.

Lemma mem_char_universal_newlines x s :
  x <> ascii_of_N 10 -> mem_char x s = false -> mem_char x (universal_newlines s) = false.
Proof.
  intros Hx. remember (String.length s) as n eqn:Hn. revert s Hn.
  induction n as [n IH] using lt_wf_ind. intros s -> H.
  destruct s as [|c s]; [done|]. cbn [mem_char] in H. apply orb_false_elim in H as [H1 H2].
  cbn [universal_newlines]. destruct (Ascii.eqb c (ascii_of_N 13)).
  - cbn [mem_char]. apply orb_false_intro; [by apply Ascii.eqb_neq|].
    destruct s as [|d s']; [done|]. cbn [mem_char] in H2. apply orb_false_elim in H2 as [H2 H3].
    destruct (Ascii.eqb d (ascii_of_N 10)).
    + apply (IH (String.length s')); [simpl; lia|done|done].
    + apply (IH (String.length (String d s'))); [simpl; lia|done|].
      cbn [mem_char]. by rewrite H2, H3.
  - cbn [mem_char]. rewrite H1. cbn [orb]. apply (IH (String.length s)); [simpl; lia|done|done].
Qed.

(** **** Splitting *)

Lemma split_no_sep sep a : mem_char sep a = false -> split sep a = [a].
Proof.
  induction a as [|c a IH]; [done|]. cbn [mem_char split].
  intros [H1 H2]%orb_false_elim. rewrite Ascii.eqb_sym in H1.
  rewrite H1, (IH H2). done.
Qed.

Lemma split_app_sep sep a b :
  mem_char sep a = false -> split sep (a +:+ String sep b) = a :: split sep b.
Proof.
  induction a as [|c a IH].
  - intros _. change ("" +:+ String sep b) with (String sep b).
    cbn [split]. by rewrite Ascii.eqb_refl.
  - cbn [mem_char]. intros [H1 H2]%orb_false_elim. rewrite Ascii.eqb_sym in H1.
    rewrite append_cons. cbn [split]. by rewrite H1, (IH H2).
Qed.

(** No part of a split contains the separator. *)
Lemma split_parts_no_sep sep s : Forall (fun x => mem_char sep x = false) (split sep s).
Proof.
  induction s as [|c s IH]; [by repeat constructor|]. cbn [split].
  destruct (Ascii.eqb c sep) eqn:E; [by constructor|].
  destruct (split sep s) as [|h t]; [repeat constructor; simpl|].
  - by rewrite Ascii.eqb_sym, E.
  - apply Forall_cons in IH as [Hh Ht]. constructor; [|done].
    simpl. by rewrite Ascii.eqb_sym, E, Hh.
Qed.

Lemma split1_app_sep sep a b :
  mem_char sep a = false -> split1 sep (a +:+ String sep b) = (a, Some b).
Proof.
  induction a as [|c a IH].
  - intros _. change ("" +:+ String sep b) with (String sep b).
    cbn [split1]. by rewrite Ascii.eqb_refl.
  - cbn [mem_char]. intros [H1 H2]%orb_false_elim. rewrite Ascii.eqb_sym in H1.
    rewrite append_cons. cbn [split1]. by rewrite H1, (IH H2).
Qed.

Lemma split1_tail_no_char x sep s :
  mem_char x s = false -> mem_char x (default "" (snd (split1 sep s))) = false.
Proof.
  induction s as [|c s IH]; [done|]. cbn [mem_char split1].
  intros [H1 H2]%orb_false_elim. destruct (Ascii.eqb c sep); [done|].
  specialize (IH H2). by destruct (split1 sep s).
Qed.

(** **** Prefixes *)

Lemma prefix_nil_r s : String.prefix "" s = true.
Proof. by destruct s. Qed.

(** Two keys without "=" followed by "=": one text is a prefix of the
    other exactly when the keys are equal. *)
Lemma prefix_key sep field key value :
  mem_char sep field = false -> mem_char sep key = false ->
  String.prefix (field +:+ String sep "") (key +:+ String sep value) = String.eqb field key.
Proof.
  revert key. induction field as [|c field IH]; intros key Hf Hk.
  - change ("" +:+ String sep "") with (String sep "").
    destruct key as [|d key].
    + change ("" +:+ String sep value) with (String sep value). simpl.
      destruct (ascii_dec sep sep); [apply prefix_nil_r|done].
    + rewrite append_cons. simpl. simpl in Hk. apply orb_false_elim in Hk as [Hk _].
      destruct (ascii_dec sep d) as [->|]; [by rewrite Ascii.eqb_refl in Hk|done].
  - simpl in Hf. apply orb_false_elim in Hf as [Hc Hf].
    destruct key as [|d key].
    + change ("" +:+ String sep value) with (String sep value). rewrite append_cons. simpl.
      destruct (ascii_dec c sep) as [->|]; [by rewrite Ascii.eqb_refl in Hc|done].
    + simpl in Hk. apply orb_false_elim in Hk as [_ Hk].
      rewrite !append_cons. simpl. destruct (ascii_dec c d) as [->|Hne].
      * rewrite Ascii.eqb_refl. by apply IH.
      * destruct (Ascii.eqb c d) eqn:E; [apply Ascii.eqb_eq in E; done|done].
Qed.

End PyStrFacts.

(* ===================================================================== *)
(** ** urllib.parse: the network location of a URL *)
(* ===================================================================== *)

Module Urllib.

Definition is_alpha (c : ascii) : bool :=
  let n := N_of_ascii c in
  (((65 <=? n) && (n <=? 90)) || ((97 <=? n) && (n <=? 122)))%N.

Definition is_digit (c : ascii) : bool :=
  let n := N_of_ascii c in ((48 <=? n) && (n <=? 57))%N.

(** [scheme_chars]: letters, digits and "+-." *)
Definition scheme_char (c : ascii) : bool :=
  is_alpha c || is_digit c || PyStr.mem_char c "+-.".

Fixpoint all_chars (p : ascii -> bool) (s : string) : bool :=
  match s with
  | EmptyString => true
  | String c r => p c && all_chars p r
  end.

Fixpoint remove_chars (p : ascii -> bool) (s : string) : string :=
  match s with
  | EmptyString => EmptyString
  | String c r => if p c then remove_chars p r else String c (remove_chars p r)
  end.

Fixpoint take_until (p : ascii -> bool) (s : string) : string :=
  match s with
  | EmptyString => EmptyString
  | String c r => if p c then EmptyString else String c (take_until p r)
  end.

Definition is_c0_or_space (c : ascii) : bool := (N_of_ascii c <=? 32)%N.

(** TAB, LF and CR are removed from a URL before it is split. *)
Definition is_unsafe (c : ascii) : bool :=
  let n := N_of_ascii c in ((n =? 9) || (n =? 10) || (n =? 13))%N.

(** The text that follows the scheme, when the URL starts with one. *)
Definition after_scheme (url : string) : string :=
  match PyStr.split1 ":" url with
  | (String c0 r0, Some rest) =>
      if is_alpha c0 && all_chars scheme_char r0 then rest else url
  | _ => url
  end.

(** [urlparse(url).netloc]: what follows "//" up to the first of "/?#".
    The [ValueError] that urlparse raises on an unbalanced bracketed host
    is outside this model. *)
Definition netloc (url : string) : string :=
  let u := remove_chars is_unsafe (PyStr.lstrip_with is_c0_or_space url) in
  match after_scheme u with
  | String "/" (String "/" r) => take_until (fun c => PyStr.mem_char c "/?#") r
  | _ => EmptyString
  end.

End Urllib.

Example netloc_ex1 : Urllib.netloc "https://www.example.com/a?b=1" = "www.example.com".
Proof. reflexivity. Qed.
Example netloc_ex2 : Urllib.netloc "item?id=1" = "".
Proof. reflexivity. Qed.
Example netloc_ex3 : Urllib.netloc "http://user@host:8080" = "user@host:8080".
Proof. reflexivity. Qed.

(* ===================================================================== *)
(** ** Stories *)
(* ===================================================================== *)

(** A story is a Python dict.  The keys "id", "title", "url", "points" and
    "comments" are set by the fetcher; "score" and "domain" by the selector;
    "category" and "is_top" by the caller of the enricher.  A key that may
    be absent is read by the code through [get] with a default (or tested
    for truth), so an absent key is represented by that default: the empty
    string, [false], 0.  An absent or null "url" is the empty string. *)
Record Story := mkStory {
  st_id : Z;
  st_title : string;
  st_url : string;
  st_points : Z;
  st_comments : Z;
  st_score : Z;
  st_domain : string;
  st_category : string;
  st_is_top : bool
}.

(** A story as the fetcher creates it. *)
Definition fetched (i : Z) (t u : string) (p c : Z) : Story :=
  mkStory i t u p c 0 "" "" false.

(* ===================================================================== *)
(** ** hn.py: the selector *)
(* ===================================================================== *)

Module Hn.

Definition JOB_WORDS : list string :=
  ["hiring"; "who is hiring"; "who wants to be hired"; "freelancer"; "job"; "career"].

Section Selector.

(** [urlparse(url).netloc] of the standard library. *)
Variable netloc : string -> string.

(** The body of the first loop: [None] when the story is skipped,
    otherwise the story with "score" and "domain" assigned. *)
Definition prepare (s : Story) : option Story :=
  let title_lower := PyStr.lower (st_title s) in
  if existsb (fun w => PyStr.contains w title_lower) JOB_WORDS then None
  else if String.eqb (st_url s) "" && (PyStr.len (st_title s) <? 20)%nat then None
  else
    let score := (st_points s + st_comments s * 2)%Z in
    let domain :=
      if String.eqb (st_url s) "" then ""
      else PyStr.replace "www." "" (netloc (st_url s)) in
    Some (mkStory (st_id s) (st_title s) (st_url s) (st_points s) (st_comments s)
            score domain (st_category s) (st_is_top s)).

(** [list.sort(key=score, reverse=True)]: stable, larger scores first.
    [insert_desc s l] puts [s] in front of the first story that does not
    beat it, so a story keeps its place before later stories of equal score. *)
Fixpoint insert_desc (s : Story) (l : list Story) : list Story :=
  match l with
  | [] => [s]
  | x :: r =>
      if (st_score x <=? st_score s)%Z then s :: l
      else x :: insert_desc s r
  end.

Definition sort_desc (l : list Story) : list Story :=
  foldr insert_desc [] l.

(** The second loop, with its two accumulators. *)
Fixpoint walk (limit : Z) (domain_count : gmap string Z) (result : list Story)
  (l : list Story) : list Story :=
  match l with
  | [] => result
  | s :: r =>
      let d := st_domain s in
      let c := default 0%Z (domain_count !! d) in
      let room := (c <? 3)%Z in
      let result' := if room then result ++ [s] else result in
      let domain_count' := if room then <[d := (c + 1)%Z]> domain_count else domain_count in
      if (limit <=? Z.of_nat (length result'))%Z then result'
      else walk limit domain_count' result' r
  end.

Definition select_stories (stories : list Story) (limit : Z) : list Story :=
  let filtered := omap prepare stories in
  walk limit ∅ [] (sort_desc filtered).

End Selector.

(** Number of stories of a list that have a given domain. *)
Definition count_domain (d : string) (l : list Story) : nat :=
  length (filter (fun s => st_domain s = d) l).

(** Number of stories of a list that have no URL. *)
Definition count_no_url (l : list Story) : nat :=
  length (filter (fun s => st_url s = "") l).

End Hn.

Example select_scenario :
  map st_id (Hn.select_stories Urllib.netloc
    [fetched 1 "First story from a.com" "https://a.com/1" 100 0;
     fetched 2 "Second story from a.com" "https://www.a.com/2" 50 0;
     fetched 3 "A story from b.com" "https://b.com/3" 10 0] 2) = [1; 2]%Z.
Proof. vm_compute. reflexivity. Qed.

(* --------------------------------------------------------------------- *)
(** *** Properties of the selector *)
(* --------------------------------------------------------------------- *)

Module HnFacts.
Import Hn.

Lemma count_domain_snoc d l s :
  count_domain d (l ++ [s]) =
  (count_domain d l + (if decide (st_domain s = d) then 1 else 0))%nat.
Proof.
  unfold count_domain. rewrite filter_app, length_app. f_equal.
  destruct (decide (st_domain s = d)) as [E|E].
  - rewrite filter_cons_True by done. reflexivity.
  - rewrite filter_cons_False by done. reflexivity.
Qed.

(** The dictionary [domain_count] mirrors the stories admitted so far. *)
Definition counts_agree (domain_count : gmap string Z) (result : list Story) : Prop :=
  forall d, default 0%Z (domain_count !! d) = Z.of_nat (count_domain d result).

Lemma counts_agree_empty : counts_agree ∅ [].
Proof. intros d. rewrite lookup_empty. reflexivity. Qed.

Lemma counts_agree_snoc dc result s :
  counts_agree dc result ->
  counts_agree (<[st_domain s := (default 0%Z (dc !! st_domain s) + 1)%Z]> dc) (result ++ [s]).
Proof.
  intros H d. rewrite count_domain_snoc.
  destruct (decide (st_domain s = d)) as [->|E].
  - rewrite lookup_insert_eq. simpl. rewrite H. lia.
  - rewrite lookup_insert_ne by done. rewrite H. lia.
Qed.

Lemma walk_domain_cap l : forall limit dc result,
  counts_agree dc result ->
  (forall d, (count_domain d result <= 3)%nat) ->
  forall d, (count_domain d (walk limit dc result l) <= 3)%nat.
Proof.
  induction l as [|s r IH]; intros limit dc result Hag Hcap d; simpl; [apply Hcap|].
  destruct (default 0%Z (dc !! st_domain s) <? 3)%Z eqn:Hadm.
  - assert (Hcap' : forall d', (count_domain d' (result ++ [s]) <= 3)%nat).
    { intros d'. rewrite count_domain_snoc.
      destruct (decide (st_domain s = d')) as [<-|E]; [|specialize (Hcap d'); lia].
      apply Z.ltb_lt in Hadm. rewrite Hag in Hadm. lia. }
    destruct (limit <=? _)%Z; [apply Hcap'|].
    apply IH; [by apply counts_agree_snoc | apply Hcap'].
  - destruct (limit <=? _)%Z; [apply Hcap|]. by apply IH.
Qed.

Lemma walk_length l : forall limit dc result,
  (Z.of_nat (length result) < limit)%Z ->
  (Z.of_nat (length (walk limit dc result l)) <= limit)%Z.
Proof.
  induction l as [|s r IH]; intros limit dc result Hlen; simpl; [lia|].
  destruct (default 0%Z (dc !! st_domain s) <? 3)%Z.
  - destruct (limit <=? _)%Z eqn:E.
    + rewrite length_app. simpl. lia.
    + apply IH. apply Z.leb_gt in E. exact E.
  - destruct (limit <=? _)%Z eqn:E; [lia|]. by apply IH.
Qed.

Lemma walk_elem l : forall limit dc result s,
  s ∈ walk limit dc result l -> s ∈ result \/ s ∈ l.
Proof.
  induction l as [|x r IH]; intros limit dc result s; simpl; [by left|].
  destruct (default 0%Z (dc !! st_domain x) <? 3)%Z.
  - destruct (limit <=? _)%Z.
    + intros [H|H]%elem_of_app; [by left|]. right.
      apply list_elem_of_singleton in H. subst. by left.
    + intros [[H|H]%elem_of_app|H]%IH; [by left| |by right; right].
      apply list_elem_of_singleton in H. subst. right. by left.
  - destruct (limit <=? _)%Z; [by left|].
    intros [H|H]%IH; [by left|by right; right].
Qed.

Lemma insert_desc_elem s x l : x ∈ insert_desc s l -> x = s \/ x ∈ l.
Proof.
  induction l as [|y r IH]; simpl.
  - intros H%list_elem_of_singleton. by left.
  - destruct (st_score y <=? st_score s)%Z.
    + intros [->|H]%elem_of_cons; [by left|by right].
    + intros [->|H]%elem_of_cons; [right; by left|].
      destruct (IH H) as [->|H']; [by left|right; by right].
Qed.

Lemma sort_desc_elem x l : x ∈ sort_desc l -> x ∈ l.
Proof.
  induction l as [|s r IH]; simpl; [done|].
  intros [->|H]%insert_desc_elem; [by left|right; by apply IH].
Qed.

Section SelectorFacts.
Variable netloc : string -> string.

Lemma prepare_fields s s' :
  prepare netloc s = Some s' ->
  st_id s' = st_id s /\ st_title s' = st_title s /\ st_url s' = st_url s /\
  st_score s' = (st_points s + st_comments s * 2)%Z /\
  st_domain s' = (if String.eqb (st_url s) "" then ""
                  else PyStr.replace "www." "" (netloc (st_url s))).
Proof.
  unfold prepare. destruct (existsb _ _); [done|].
  destruct (_ && _); [done|]. intros [= <-]. simpl. done.
Qed.

(** Every selected story went through the first loop. *)
Lemma select_stories_prepared stories limit s' :
  s' ∈ select_stories netloc stories limit ->
  exists s, s ∈ stories /\ prepare netloc s = Some s'.
Proof.
  unfold select_stories. intros [H|H]%walk_elem; [by apply elem_of_nil in H|].
  apply sort_desc_elem in H. apply list_elem_of_omap in H. exact H.
Qed.

(** Per-domain cap: no domain occurs more than three times in the output. *)
Lemma select_stories_domain_cap stories limit d :
  (count_domain d (select_stories netloc stories limit) <= 3)%nat.
Proof.
  unfold select_stories. apply walk_domain_cap.
  - apply counts_agree_empty.
  - intros d'. unfold count_domain. simpl. lia.
Qed.

(** With a positive limit the output has at most [limit] stories. *)
Lemma select_stories_length_pos stories limit :
  (0 < limit)%Z ->
  (Z.of_nat (length (select_stories netloc stories limit)) <= limit)%Z.
Proof. intros H. unfold select_stories. apply walk_length. simpl. lia. Qed.

(** The domain the selector assigns: every occurrence of "www." is taken
    out of the network location. *)
Lemma select_stories_domain stories limit s :
  s ∈ select_stories netloc stories limit ->
  st_domain s = (if String.eqb (st_url s) "" then ""
                 else PyStr.replace "www." "" (netloc (st_url s))).
Proof.
  intros (s0 & _ & Hp)%select_stories_prepared.
  apply prepare_fields in Hp as (_ & _ & Hu & _ & Hd). by rewrite Hu.
Qed.

(** C9: a story without URL gets the empty domain, the cap of three
    applies to the empty domain, and so at most three stories without URL
    are selected, whatever the input list and the limit. *)
Theorem select_stories_no_url_cap stories limit :
  (forall s, s ∈ select_stories netloc stories limit ->
             st_url s = "" -> st_domain s = "") /\
  (count_domain "" (select_stories netloc stories limit) <= 3)%nat /\
  (count_no_url (select_stories netloc stories limit) <= 3)%nat.
Proof.
  assert (Hdom : forall s, s ∈ select_stories netloc stories limit ->
                           st_url s = "" -> st_domain s = "").
  { intros s Hs Hu. rewrite (select_stories_domain _ _ _ Hs), Hu. reflexivity. }
  split; [exact Hdom|]. split; [apply select_stories_domain_cap|].
  etrans; [|apply (select_stories_domain_cap stories limit "")].
  unfold count_no_url, count_domain.
  generalize dependent (select_stories netloc stories limit).
  induction l as [|x l IH]; intros Hdom; [done|].
  assert (IH' := IH (fun s Hs => Hdom s (list_elem_of_further _ _ _ Hs))).
  destruct (decide (st_url x = "")) as [E|E].
  - rewrite filter_cons_True by done.
    rewrite (filter_cons_True (fun s => st_domain s = "")); [simpl; lia|].
    apply Hdom; [by left|done].
  - rewrite filter_cons_False by done.
    destruct (decide (st_domain x = "")).
    + rewrite (filter_cons_True (fun s => st_domain s = "")) by done. simpl. lia.
    + rewrite (filter_cons_False (fun s => st_domain s = "")) by done. done.
Qed.

End SelectorFacts.

(** C2: with [limit = 0] the loop admits the first story before it
    compares the length of the result with the limit, so one story is
    returned although the limit allows none. *)
Theorem select_stories_limit_zero :
  let s := fetched 1 "A fairly long discussion title" "" 10 3 in
  select_stories Urllib.netloc [s] 0
    = [mkStory 1 "A fairly long discussion title" "" 10 3 16 "" "" false]
  /\ (0 < Z.of_nat (length (select_stories Urllib.netloc [s] 0)))%Z.
Proof. vm_compute. split; reflexivity. Qed.

(** C7: [replace] removes every occurrence of "www.", not only a leading
    one: for the host "docs.www.example.org" the domain assigned is
    "docs.example.org". *)
Theorem select_stories_inner_www :
  let s := fetched 7 "Guide to the new release" "https://docs.www.example.org/guide" 90 12 in
  Urllib.netloc (st_url s) = "docs.www.example.org" /\
  map st_domain (select_stories Urllib.netloc [s] 10) = ["docs.example.org"].
Proof. vm_compute. split; reflexivity. Qed.

End HnFacts.

(* ===================================================================== *)
(** ** telegram.py: posting a digest as a thread *)
(* ===================================================================== *)

Module Telegram.

(** What was asked of the Bot API, with the outcome the code saw:
    [Posted text reply_to message_id] is one call of [post_to_telegram]
    ([None] when the request failed), [Edited message_id text ok] one call
    of [edit_message]. *)
Inductive Call :=
| Posted (text : string) (reply_to : option Z) (message_id : option Z)
| Edited (message_id : Z) (text : string) (ok : bool).

Section Posting.

(** The Bot API behind [httpx.post]: a state [World] and, for each of the
    two requests, the outcome and the next state.  A failed request (any
    exception inside the [try]) is [None], respectively [false]. *)
Variable World : Type.
Variable send_message : World -> string -> string -> string -> option Z -> option Z * World.
Variable edit_message_text : World -> string -> string -> Z -> string -> bool * World.

Record Session := mkSession { world : World; calls : list Call }.

Definition start (w : World) : Session := mkSession w [].

Definition post_to_telegram (token chat_id text : string) (reply_to : option Z)
  (st : Session) : option Z * Session :=
  let '(r, w) := send_message (world st) token chat_id text reply_to in
  (r, mkSession w (calls st ++ [Posted text reply_to r])).

Definition edit_message (token chat_id : string) (message_id : Z) (text : string)
  (st : Session) : bool * Session :=
  let '(ok, w) := edit_message_text (world st) token chat_id message_id text in
  (ok, mkSession w (calls st ++ [Edited message_id text ok])).

(** hndigest/telegram.py: the loop over [messages[1:]] with its
    accumulator [reply_ids]. *)
Fixpoint post_replies (token chat_id : string) (main_id : Z) (msgs : list string)
  (reply_ids : list Z) (st : Session) : list Z * Session :=
  match msgs with
  | [] => (reply_ids, st)
  | msg :: rest =>
      let '(msg_id, st') := post_to_telegram token chat_id msg (Some main_id) st in
      let reply_ids' :=
        match msg_id with
        | Some i => reply_ids ++ [i]
        | None => reply_ids
        end in
      post_replies token chat_id main_id rest reply_ids' st'
  end.

Definition truthy {A} (l : option (list A)) : bool :=
  match l with
  | Some (_ :: _) => true
  | _ => false
  end.

(** hndigest/telegram.py: [post_thread] with the optional rewrite of the
    main post. *)
Definition post_thread (token chat_id : string) (messages : list string)
  (reply_categories : option (list string))
  (edit_main_callback : option (string -> list string -> list Z -> string))
  (st : Session) : bool * Session :=
  match messages with
  | [] => (false, st)
  | main :: replies =>
      match post_to_telegram token chat_id main None st with
      | (None, st1) => (false, st1)
      | (Some main_id, st1) =>
          let '(reply_ids, st2) := post_replies token chat_id main_id replies [] st1 in
          match reply_categories, edit_main_callback with
          | Some cats, Some callback =>
              if truthy reply_categories && (length reply_ids =? length cats)%nat then
                let updated_text := callback main cats reply_ids in
                if negb (String.eqb updated_text main)
                then (true, snd (edit_message token chat_id main_id updated_text st2))
                else (true, st2)
              else (true, st2)
          | _, _ => (true, st2)
          end
      end
  end.

(** hn_digest/telegram.py: the loop drops the identifiers. *)
Fixpoint post_replies_plain (token chat_id : string) (main_id : Z) (msgs : list string)
  (st : Session) : Session :=
  match msgs with
  | [] => st
  | msg :: rest =>
      post_replies_plain token chat_id main_id rest
        (snd (post_to_telegram token chat_id msg (Some main_id) st))
  end.

(** hn_digest/telegram.py: [post_thread]. *)
Definition post_thread_plain (token chat_id : string) (messages : list string)
  (st : Session) : bool * Session :=
  match messages with
  | [] => (false, st)
  | main :: replies =>
      match post_to_telegram token chat_id main None st with
      | (None, st1) => (false, st1)
      | (Some main_id, st1) => (true, post_replies_plain token chat_id main_id replies st1)
      end
  end.

End Posting.

(** The posts that were attempted, in order: text and addressee. *)
Definition attempts (cs : list Call) : list (string * option Z) :=
  omap (fun c => match c with
                 | Posted t r _ => Some (t, r)
                 | Edited _ _ _ => None
                 end) cs.

Definition is_edit (c : Call) : bool :=
  match c with Edited _ _ _ => true | _ => false end.

Definition is_failed_reply (c : Call) : bool :=
  match c with Posted _ (Some _) None => true | _ => false end.

Definition is_posted_reply (c : Call) : bool :=
  match c with Posted _ (Some _) (Some _) => true | _ => false end.

(** A scripted Bot API: the outcomes of the successive posts are read off
    a list; an edit succeeds. *)
Definition scripted_send (w : list (option Z)) (_ _ _ : string) (_ : option Z)
  : option Z * list (option Z) :=
  match w with
  | [] => (None, [])
  | r :: w' => (r, w')
  end.

Definition scripted_edit (w : list (option Z)) (_ _ : string) (_ : Z) (_ : string)
  : bool * list (option Z) := (true, w).

End Telegram.

(* --------------------------------------------------------------------- *)
(** *** Properties of the publisher *)
(* --------------------------------------------------------------------- *)

Module TelegramFacts.
Import Telegram.

Definition count_calls (p : Call -> bool) (cs : list Call) : nat :=
  length (List.filter p cs).

Lemma count_calls_snoc p cs c :
  count_calls p (cs ++ [c]) = (count_calls p cs + (if p c then 1 else 0))%nat.
Proof.
  unfold count_calls. rewrite List.filter_app, length_app. simpl.
  destruct (p c); reflexivity.
Qed.

Lemma existsb_count p cs : existsb p cs = true <-> (0 < count_calls p cs)%nat.
Proof.
  unfold count_calls. induction cs as [|c cs IH]; simpl; [split; [done|lia]|].
  destruct (p c); simpl; [split; [lia|done]|exact IH].
Qed.

Lemma attempts_snoc cs c :
  attempts (cs ++ [c]) = attempts cs ++ attempts [c].
Proof. unfold attempts. apply omap_app. Qed.

Section PostingFacts.
Variable World : Type.
Variable send_message : World -> string -> string -> string -> option Z -> option Z * World.
Variable edit_message_text : World -> string -> string -> Z -> string -> bool * World.

Abbreviation post_to_telegram := (post_to_telegram World send_message).
Abbreviation post_replies := (post_replies World send_message).
Abbreviation post_replies_plain := (post_replies_plain World send_message).
Abbreviation post_thread := (post_thread World send_message edit_message_text).
Abbreviation post_thread_plain := (post_thread_plain World send_message).
Abbreviation start := (start World).

Lemma post_to_telegram_eq token chat text reply_to st :
  post_to_telegram token chat text reply_to st =
  (fst (send_message (world _ st) token chat text reply_to),
   mkSession World (snd (send_message (world _ st) token chat text reply_to))
     (calls _ st ++ [Posted text reply_to (fst (send_message (world _ st) token chat text reply_to))])).
Proof.
  unfold Telegram.post_to_telegram. destruct (send_message _ _ _ _ _). reflexivity.
Qed.

Lemma post_to_telegram_calls token chat text reply_to st :
  calls _ (snd (post_to_telegram token chat text reply_to st)) =
  calls _ st ++ [Posted text reply_to (fst (post_to_telegram token chat text reply_to st))].
Proof.
  unfold Telegram.post_to_telegram. destruct (send_message _ _ _ _ _). reflexivity.
Qed.

(** The reply loop attempts every message, in order, whatever the outcome
    of the earlier ones. *)
Lemma post_replies_attempts token chat main_id msgs : forall ids st,
  attempts (calls _ (snd (post_replies token chat main_id msgs ids st))) =
  attempts (calls _ st) ++ map (fun m => (m, Some main_id)) msgs.
Proof.
  induction msgs as [|m r IH]; intros ids st; simpl; [by rewrite app_nil_r|].
  pose proof (post_to_telegram_calls token chat m (Some main_id) st) as Hc.
  destruct (post_to_telegram token chat m (Some main_id) st) as [msg_id st'].
  simpl in Hc. rewrite IH, Hc, attempts_snoc. simpl. by rewrite <- app_assoc.
Qed.

Lemma post_replies_plain_attempts token chat main_id msgs : forall st,
  attempts (calls _ (post_replies_plain token chat main_id msgs st)) =
  attempts (calls _ st) ++ map (fun m => (m, Some main_id)) msgs.
Proof.
  induction msgs as [|m r IH]; intros st; simpl; [by rewrite app_nil_r|].
  rewrite IH, post_to_telegram_calls, attempts_snoc. simpl. by rewrite <- app_assoc.
Qed.

(** The loop makes no edit, collects one identifier per successful reply
    and leaves each failed reply in the log. *)
Lemma post_replies_counts token chat main_id msgs : forall ids st,
  let r := post_replies token chat main_id msgs ids st in
  count_calls is_edit (calls _ (snd r)) = count_calls is_edit (calls _ st) /\
  (length (fst r) = length ids + (count_calls is_posted_reply (calls _ (snd r))
                                  - count_calls is_posted_reply (calls _ st)))%nat /\
  (count_calls is_posted_reply (calls _ st) <= count_calls is_posted_reply (calls _ (snd r)))%nat /\
  (count_calls is_posted_reply (calls _ (snd r)) + count_calls is_failed_reply (calls _ (snd r))
   = count_calls is_posted_reply (calls _ st) + count_calls is_failed_reply (calls _ st)
     + length msgs)%nat.
Proof.
  induction msgs as [|m r IH]; intros ids st; simpl; [lia|].
  pose proof (post_to_telegram_calls token chat m (Some main_id) st) as Hc.
  destruct (post_to_telegram token chat m (Some main_id) st) as [msg_id st'].
  simpl in Hc.
  match goal with |- context [post_replies _ _ _ r ?i st'] => specialize (IH i st') end.
  simpl in IH. destruct IH as (He & Hl & Hm & Hs).
  rewrite Hc in He, Hl, Hm, Hs.
  repeat rewrite count_calls_snoc in He. repeat rewrite count_calls_snoc in Hl.
  repeat rewrite count_calls_snoc in Hm. repeat rewrite count_calls_snoc in Hs.
  destruct msg_id; simpl in *; rewrite ?length_app in Hl; simpl in Hl; lia.
Qed.

(** C5: when the post of the root message fails, [post_thread] returns
    [False] and the root post is the only request made; when it succeeds,
    [post_thread] returns [True] and every reply is attempted, in order and
    addressed to the root, whether earlier replies failed or not.  This
    holds for both variants of [post_thread]. *)
Theorem post_thread_failure_semantics token chat main replies cats callback w :
  let root := fst (send_message w token chat main None) in
  let r := post_thread token chat (main :: replies) cats callback (start w) in
  let r' := post_thread_plain token chat (main :: replies) (start w) in
  match root with
  | None =>
      fst r = false /\ calls _ (snd r) = [Posted main None None] /\
      fst r' = false /\ calls _ (snd r') = [Posted main None None]
  | Some main_id =>
      fst r = true /\
      attempts (calls _ (snd r)) = (main, None) :: map (fun m => (m, Some main_id)) replies /\
      fst r' = true /\
      attempts (calls _ (snd r')) = (main, None) :: map (fun m => (m, Some main_id)) replies
  end.
Proof.
  cbv zeta. unfold Telegram.post_thread, Telegram.post_thread_plain.
  rewrite !post_to_telegram_eq. simpl.
  destruct (send_message w token chat main None) as [[main_id|] w1]; simpl; [|done].
  split; [|split; [|split; [done|]]].
  - destruct (Telegram.post_replies _ _ _ _ _ _ _ _) as [ids st2].
    destruct cats as [cats|], callback as [cb|]; try done.
    destruct (_ && _); [|done]. by destruct (negb _).
  - pose proof (post_replies_attempts token chat main_id replies []
                  (mkSession World w1 [Posted main None (Some main_id)])) as Ha.
    destruct (Telegram.post_replies _ _ _ _ _ _ _ _) as [ids st2]. simpl in Ha.
    assert (Hedit : forall t, attempts (calls _ (snd
               (edit_message World edit_message_text token chat main_id t st2)))
             = attempts (calls _ st2)).
    { intros t. unfold edit_message. destruct (edit_message_text _ _ _ _ _). simpl.
      rewrite attempts_snoc. simpl. by rewrite app_nil_r. }
    destruct cats as [cats|], callback as [cb|]; try exact Ha.
    destruct (_ && _); [|exact Ha]. destruct (negb _); [|exact Ha].
    simpl. rewrite Hedit. exact Ha.
  - by rewrite post_replies_plain_attempts.
Qed.

(** C10 (as the code has it): [edit_message] is called only when reply
    categories were given and as many reply identifiers were collected as
    there are reply categories; when the caller passes one category per
    reply message, this means that a rewrite is attempted only if no reply
    post failed. *)
Theorem post_thread_edit_needs_all_replies token chat main replies reply_categories callback w :
  let st := snd (post_thread token chat (main :: replies) reply_categories callback (start w)) in
  existsb is_edit (calls _ st) = true ->
  exists cats,
    reply_categories = Some cats /\
    count_calls is_posted_reply (calls _ st) = length cats /\
    (length cats = length replies -> existsb is_failed_reply (calls _ st) = false).
Proof.
  intros st Hedit. subst st. revert Hedit.
  unfold Telegram.post_thread. rewrite post_to_telegram_eq. simpl.
  destruct (send_message w token chat main None) as [[main_id|] w1]; simpl; [|done].
  pose proof (post_replies_counts token chat main_id replies []
                (mkSession World w1 [Posted main None (Some main_id)])) as Hc.
  destruct (Telegram.post_replies _ _ _ _ _ _ _ _) as [ids st2]. simpl in Hc.
  destruct Hc as (He & Hl & Hm & Hs).
  change (count_calls is_edit [Posted main None (Some main_id)]) with 0%nat in He.
  change (count_calls is_posted_reply [Posted main None (Some main_id)]) with 0%nat in Hl, Hm, Hs.
  change (count_calls is_failed_reply [Posted main None (Some main_id)]) with 0%nat in Hs.
  simpl in Hl, Hs.
  assert (Hno : existsb is_edit (calls _ st2) = true -> False).
  { intros H%existsb_count. lia. }
  destruct reply_categories as [cats|]; [|intros H; by destruct (Hno H)].
  destruct callback as [cb|]; [|intros H; by destruct (Hno H)].
  destruct (_ && (length ids =? length cats)%nat) eqn:Hcond;
    [|intros H; by destruct (Hno H)].
  destruct (negb _); [|intros H; by destruct (Hno H)].
  intros _. apply andb_prop in Hcond as [_ Heq%Nat.eqb_eq].
  unfold edit_message. destruct (edit_message_text _ _ _ _ _) as [ok w3]. simpl.
  exists cats. split; [done|]. split.
  - change (count_calls is_posted_reply (calls World st2 ++ [Edited main_id (cb main cats ids) ok]) = length cats).
    rewrite count_calls_snoc. simpl. lia.
  - intros Hlen.
    destruct (existsb is_failed_reply (calls World st2 ++ [Edited main_id (cb main cats ids) ok])) eqn:E; [|done].
    apply existsb_count in E. rewrite count_calls_snoc in E. simpl in E. lia.
Qed.

End PostingFacts.

Definition add_links (main : string) (cats : list string) (ids : list Z) : string :=
  main +:+ " | " +:+ String.concat ", " cats.

(** C10 as stated fails when the list of categories is shorter than the
    list of replies: the first reply fails, the second succeeds, one
    identifier was collected for one category, and the main post is edited. *)
Lemma post_thread_edit_despite_failed_reply :
  calls _ (snd (post_thread (list (option Z)) scripted_send scripted_edit "token" "@channel"
                  ["main"; "reply one"; "reply two"] (Some ["ai"]) (Some add_links)
                  (start _ [Some 100; None; Some 102]%Z)))
  = [Posted "main" None (Some 100%Z);
     Posted "reply one" (Some 100%Z) None;
     Posted "reply two" (Some 100%Z) (Some 102%Z);
     Edited 100%Z "main | ai" true].
Proof. vm_compute. reflexivity. Qed.

(** An instance: two replies, two categories, every post succeeds, and
    the main post is edited. *)
Lemma post_thread_edit_needs_all_replies_witness :
  exists cats,
    Some ["ai"; "code"] = Some cats /\
    count_calls is_posted_reply
      (calls _ (snd (post_thread (list (option Z)) scripted_send scripted_edit "token" "@channel"
                       ["main"; "reply one"; "reply two"] (Some ["ai"; "code"]) (Some add_links)
                       (start _ [Some 100; Some 101; Some 102]%Z)))) = length cats /\
    (length cats = length ["reply one"; "reply two"] ->
     existsb is_failed_reply
       (calls _ (snd (post_thread (list (option Z)) scripted_send scripted_edit "token" "@channel"
                        ["main"; "reply one"; "reply two"] (Some ["ai"; "code"]) (Some add_links)
                        (start _ [Some 100; Some 101; Some 102]%Z)))) = false).
Proof.
  apply (post_thread_edit_needs_all_replies (list (option Z)) scripted_send scripted_edit
           "token" "@channel" "main" ["reply one"; "reply two"] (Some ["ai"; "code"])
           (Some add_links) [Some 100; Some 101; Some 102]%Z).
  vm_compute. reflexivity.
Defined.

End TelegramFacts.

(* ===================================================================== *)
(** ** config.py: channels, labels and the keyword classifier *)
(* ===================================================================== *)

Module Config.

Record Channel := mkChannel {
  ch_id : string;
  telegram : string;
  ch_title : string;
  language : string;
  prompt : string;
  footer : string;
  first_issue_date : string;
  days : Z;
  limit : Z;
  min_points : Z
}.

Definition HN_ITEM (story_id : Z) : string :=
  "https://news.ycombinator.com/item?id=" +:+ PyStr.of_Z story_id.

(** [d.get(k, default)] on a table written as an association list. *)
Fixpoint assoc {A} (k : string) (d : list (string * A)) (dflt : A) : A :=
  match d with
  | [] => dflt
  | (k', v) :: r => if String.eqb k k' then v else assoc k r dflt
  end.

Definition CATEGORY_NAMES : list (string * list (string * string)) :=
  [("top", [("uz", "Eng yaxshilar"); ("ru", "Лучшее"); ("en", "Top")]);
   ("ai", [("uz", "AI"); ("ru", "AI"); ("en", "AI")]);
   ("code", [("uz", "Kod"); ("ru", "Код"); ("en", "Code")]);
   ("data", [("uz", "Ma'lumotlar"); ("ru", "Данные"); ("en", "Data")]);
   ("science", [("uz", "Fan"); ("ru", "Наука"); ("en", "Science")]);
   ("security", [("uz", "Xavfsizlik"); ("ru", "Безопасность"); ("en", "Security")]);
   ("design", [("uz", "Dizayn"); ("ru", "Дизайн"); ("en", "Design")]);
   ("business", [("uz", "Biznes"); ("ru", "Бизнес"); ("en", "Business")]);
   ("work", [("uz", "Ish"); ("ru", "Работа"); ("en", "Work")]);
   ("learn", [("uz", "O'rganish"); ("ru", "Обучение"); ("en", "Learn")]);
   ("show_hn", [("uz", "Show HN"); ("ru", "Show HN"); ("en", "Show HN")]);
   ("ask_hn", [("uz", "Ask HN"); ("ru", "Ask HN"); ("en", "Ask HN")]);
   ("other", [("uz", "Boshqalar"); ("ru", "Другое"); ("en", "Other")])].

Definition LABELS : list (string * list (string * string)) :=
  [("points", [("uz", "ball"); ("ru", "баллов"); ("en", "points")]);
   ("comments", [("uz", "izoh"); ("ru", "комм."); ("en", "comments")])].

Definition MONTHS : list (string * list string) :=
  [("uz", ["yan"; "fev"; "mar"; "apr"; "may"; "iyun"; "iyul"; "avg"; "sen"; "okt"; "noy"; "dek"]);
   ("ru", ["янв"; "фев"; "мар"; "апр"; "май"; "июн"; "июл"; "авг"; "сен"; "окт"; "ноя"; "дек"]);
   ("en", ["Jan"; "Feb"; "Mar"; "Apr"; "May"; "Jun"; "Jul"; "Aug"; "Sep"; "Oct"; "Nov"; "Dec"])].

Definition category_name (key lang : string) : string :=
  assoc lang (assoc key CATEGORY_NAMES []) key.

Section Classifier.

(** The table [CATEGORIES] of config.py: for each category, in the order
    of the table, its keywords and its domains.  No property below depends
    on its entries, so the table is a parameter. *)
Variable CATEGORIES : list (string * (list string * list string)).

Definition is_thread_kind (cat_key : string) : bool :=
  String.eqb cat_key "show_hn" || String.eqb cat_key "ask_hn".

(** The second loop of [categorize_story]. *)
Fixpoint first_match (title_lower domain : string)
  (table : list (string * (list string * list string))) : option string :=
  match table with
  | [] => None
  | (cat_key, (keywords, domains)) :: r =>
      if is_thread_kind cat_key then first_match title_lower domain r
      else if existsb (fun kw => PyStr.contains kw title_lower) keywords then Some cat_key
      else if existsb (fun d => PyStr.contains d domain) domains then Some cat_key
      else first_match title_lower domain r
  end.

Definition categorize_story (story : Story) : string :=
  let title_lower := PyStr.lower (st_title story) in
  let domain := PyStr.lower (st_domain story) in
  let kw_of k := fst (assoc k CATEGORIES ([], [])) in
  if existsb (fun kw => PyStr.contains kw title_lower) (kw_of "show_hn") then "show_hn"
  else if existsb (fun kw => PyStr.contains kw title_lower) (kw_of "ask_hn") then "ask_hn"
  else default "other" (first_match title_lower domain CATEGORIES).

End Classifier.

End Config.

(* ===================================================================== *)
(** ** formatter.py: the assembler *)
(* ===================================================================== *)

Module Formatter.
Import Config.

(** U+00A0, U+00B7 and U+2014 in UTF-8. *)
Definition nbsp : string := String (ascii_of_N 194) (String (ascii_of_N 160) "").
Definition middot : string := String (ascii_of_N 194) (String (ascii_of_N 183) "").
Definition mdash : string :=
  String (ascii_of_N 226) (String (ascii_of_N 128) (String (ascii_of_N 148) "")).

Definition escape_html (text : string) : string :=
  PyStr.replace ">" "&gt;" (PyStr.replace "<" "&lt;" (PyStr.replace "&" "&amp;" text)).

Definition format_category_header (cat_key lang : string) : string :=
  "<b># " +:+ category_name cat_key lang +:+ "</b>".

Definition is_hn_thread (s : Story) : bool :=
  String.eqb (st_category s) "show_hn" || String.eqb (st_category s) "ask_hn".

(** The first line of a story block. *)
Definition title_line (s : Story) (titles : gmap Z string) : string :=
  let title := escape_html (default (st_title s) (titles !! st_id s)) in
  let url := st_url s in
  let hn_url := HN_ITEM (st_id s) in
  if is_hn_thread s then
    "<b><a href=" +:+ PyStr.dquote +:+ hn_url +:+ PyStr.dquote +:+ ">" +:+ title +:+ "</a></b>"
  else if negb (String.eqb url "") then
    "<b><a href=" +:+ PyStr.dquote +:+ url +:+ PyStr.dquote +:+ ">" +:+ title +:+ "</a></b>"
  else "<b>" +:+ title +:+ "</b>".

Definition meta_line (s : Story) (lang : string) : string :=
  let hn_url := HN_ITEM (st_id s) in
  let points := PyStr.of_Z (st_points s) in
  let comments := PyStr.of_Z (st_comments s) in
  let lbl_points := assoc lang (assoc "points" LABELS []) "points" in
  let lbl_comments := assoc lang (assoc "comments" LABELS []) "comments" in
  if is_hn_thread s then
    "<i>" +:+ points +:+ nbsp +:+ lbl_points +:+ " " +:+ middot +:+ " "
      +:+ comments +:+ nbsp +:+ lbl_comments +:+ "</i>"
  else
    "<i>" +:+ points +:+ nbsp +:+ lbl_points +:+ " " +:+ middot +:+ " <a href="
      +:+ PyStr.dquote +:+ hn_url +:+ PyStr.dquote +:+ ">" +:+ comments +:+ nbsp +:+ lbl_comments
      +:+ "</a></i>".

Definition format_story_lines (s : Story) (titles : gmap Z string)
  (summaries : option (gmap Z string)) (lang : string) : list string :=
  let summary_lines :=
    if is_hn_thread s then []
    else
      let summary := default "" (default ∅ summaries !! st_id s) in
      if negb (String.eqb summary "") then [escape_html summary] else [] in
  [title_line s titles] ++ summary_lines ++ [meta_line s lang].

(** What [datetime] yields for a run: the calendar fields of [now] and of
    [now - channel.days], and the whole days elapsed since the first issue. *)
Record Clock := mkClock {
  start_day : Z; start_month : nat;
  now_day : Z; now_month : nat; now_year : Z;
  days_since_first : Z
}.

Definition issue_number (clock : Clock) : Z :=
  Z.max 1 (days_since_first clock / 7 + 1).

Definition category_order : list string :=
  ["ai"; "code"; "data"; "science"; "security"; "design"; "business"; "work";
   "learn"; "show_hn"; "ask_hn"; "other"].

Section Assembler.
Variable CATEGORIES : list (string * (list string * list string)).

(** [s.get("category") or categorize_story(s)] *)
Definition category_of (s : Story) : string :=
  if String.eqb (st_category s) "" then categorize_story CATEGORIES s else st_category s.

(** The stories of the top section. *)
Definition top_stories (stories : list Story) : list Story :=
  let flagged := List.filter st_is_top stories in
  let chosen := match flagged with [] => firstn 10 stories | _ => flagged end in
  firstn 10 chosen.

(** The loop that fills the dictionary [by_category]. *)
Definition by_category (top_ids : gset Z) (stories : list Story) : gmap string (list Story) :=
  foldl (fun m s =>
           if decide (st_id s ∈ top_ids) then m
           else let cat := category_of s in <[cat := default [] (m !! cat) ++ [s]]> m)
        ∅ stories.

Definition story_blocks (titles sums : gmap Z string) (lang : string) (l : list Story) : list string :=
  flat_map (fun s => "" :: format_story_lines s titles (Some sums) lang) l.

(** The text of the main post for a given top section. *)
Definition main_message (channel : Channel) (clock : Clock) (titles sums : gmap Z string)
  (top : list Story) : string :=
  let lang := language channel in
  let issue := issue_number clock in
  let months := assoc lang MONTHS (assoc "en" MONTHS []) in
  let start_str := PyStr.of_Z (start_day clock) +:+ " " +:+ nth (start_month clock - 1) months "" in
  let now_str := PyStr.of_Z (now_day clock) +:+ " " +:+ nth (now_month clock - 1) months ""
                 +:+ " " +:+ PyStr.of_Z (now_year clock) in
  let main_lines :=
    ["<b>" +:+ ch_title channel +:+ " #" +:+ PyStr.of_Z issue +:+ "</b> | <i>"
       +:+ start_str +:+ " " +:+ mdash +:+ " " +:+ now_str +:+ "</i>";
     "";
     format_category_header "top" lang]
    ++ story_blocks titles sums lang top
    ++ [""; footer channel; "#digest_" +:+ PyStr.of_Z issue] in
  String.concat PyStr.nl main_lines.

(** The text of a category reply for the stories it shows. *)
Definition category_message (channel : Channel) (clock : Clock) (titles sums : gmap Z string)
  (cat_key : string) (shown : list Story) : string :=
  let lang := language channel in
  String.concat PyStr.nl
    ([format_category_header cat_key lang]
     ++ story_blocks titles sums lang shown
     ++ [""; "#digest_" +:+ PyStr.of_Z (issue_number clock)]).

Definition format_digest (channel : Channel) (clock : Clock) (stories : list Story)
  (titles : gmap Z string) (summaries : option (gmap Z string)) : list string :=
  let sums := default ∅ summaries in
  let top := top_stories stories in
  let top_ids : gset Z := list_to_set (map st_id top) in
  let groups := by_category top_ids stories in
  main_message channel clock titles sums top ::
  omap (fun cat_key =>
          match default [] (groups !! cat_key) with
          | [] => None
          | cat_stories =>
              Some (category_message channel clock titles sums cat_key (firstn 5 cat_stories))
          end) category_order.

End Assembler.

End Formatter.

(* --------------------------------------------------------------------- *)
(** *** Properties of the assembler *)
(* --------------------------------------------------------------------- *)

Module FormatterFacts.
Import Config Formatter PyStrFacts.

Definition nonempty {A} (l : list A) : bool :=
  match l with [] => false | _ => true end.

Lemma nonempty_firstn {A} n (l : list A) : nonempty (firstn (S n) l) = nonempty l.
Proof. by destruct l. Qed.

Lemma omap_sections {A B} (g : string -> list A) (h : string -> list A -> B) ks :
  omap (fun k => match g k with
                 | [] => None
                 | l => Some (h k (firstn 5 l))
                 end) ks
  = map (fun k => h k (firstn 5 (g k)))
      (List.filter (fun k => nonempty (firstn 5 (g k))) ks).
Proof.
  induction ks as [|k ks IH]; [done|]. cbn -[firstn].
  destruct (g k) as [|x l] eqn:E; cbn -[firstn].
  - change (nonempty (firstn 5 (@nil A))) with false. cbn iota. exact IH.
  - change (nonempty (firstn 5 (x :: l))) with true. cbn -[firstn]. by rewrite E, IH.
Qed.

Section AssemblerFacts.
Variable CATEGORIES : list (string * (list string * list string)).

Abbreviation category_of := (category_of CATEGORIES).
Abbreviation by_category := (by_category CATEGORIES).
Abbreviation format_digest := (format_digest CATEGORIES).

(** The stories left for the category sections: those whose id is not the
    id of a top story. *)
Definition remaining (stories : list Story) : list Story :=
  filter (fun s => st_id s ∉ map st_id (top_stories stories)) stories.

(** The stories a category section shows. *)
Definition shown (cat_key : string) (stories : list Story) : list Story :=
  firstn 5 (filter (fun s => category_of s = cat_key) (remaining stories)).

(** The categories that get a reply, in the order of the replies. *)
Definition sections (stories : list Story) : list string :=
  List.filter (fun k => nonempty (shown k stories)) category_order.

Lemma by_category_foldl (ids : gset Z) k stories : forall m : gmap string (list Story),
  default [] (foldl (fun m s =>
                 if decide (st_id s ∈ ids) then m
                 else <[category_of s := default [] (m !! category_of s) ++ [s]]> m)
              m stories !! k)
  = default [] (m !! k)
    ++ filter (fun s => category_of s = k) (filter (fun s => st_id s ∉ ids) stories).
Proof.
  induction stories as [|s r IH]; intros m; simpl; [by rewrite app_nil_r|].
  rewrite IH. destruct (decide (st_id s ∈ ids)) as [Hin|Hin].
  - by rewrite (filter_cons_False (fun s => st_id s ∉ ids)) by (intros H; by apply H).
  - rewrite (filter_cons_True (fun s => st_id s ∉ ids)) by done.
    destruct (decide (category_of s = k)) as [<-|Hk].
    + rewrite lookup_insert_eq, filter_cons_True by done. simpl. by rewrite <- app_assoc.
    + by rewrite lookup_insert_ne, filter_cons_False by done.
Qed.

Lemma by_category_lookup (ids : gset Z) k stories :
  default [] (by_category ids stories !! k)
  = filter (fun s => category_of s = k) (filter (fun s => st_id s ∉ ids) stories).
Proof. unfold Formatter.by_category. by rewrite by_category_foldl, lookup_empty. Qed.

Lemma filter_ext_elem {A} (P Q : A -> Prop) `{!forall x, Decision (P x)}
  `{!forall x, Decision (Q x)} (l : list A) :
  (forall x, P x <-> Q x) -> filter P l = filter Q l.
Proof.
  intros Hiff. induction l as [|x l IH]; [done|].
  destruct (decide (P x)) as [HP|HP].
  - rewrite !filter_cons_True by (done || by apply Hiff). by rewrite IH.
  - rewrite !filter_cons_False by (done || by rewrite <- Hiff). done.
Qed.

Lemma top_stories_length stories : (length (top_stories stories) <= 10)%nat.
Proof. unfold top_stories. rewrite length_firstn. lia. Qed.

Lemma top_stories_nonempty stories : stories <> [] -> top_stories stories <> [].
Proof.
  unfold top_stories. destruct stories as [|s r]; [done|]. intros _.
  destruct (List.filter st_is_top (s :: r)) as [|x l]; simpl; done.
Qed.

Lemma top_stories_fallback stories :
  List.filter st_is_top stories = [] -> top_stories stories = firstn 10 stories.
Proof.
  unfold top_stories. intros ->. rewrite firstn_firstn. reflexivity.
Qed.

Lemma format_digest_messages channel clock stories titles summaries :
  format_digest channel clock stories titles summaries
  = main_message channel clock titles (default ∅ summaries) (top_stories stories)
    :: map (fun k => category_message channel clock titles (default ∅ summaries) k
                       (shown k stories))
         (sections stories).
Proof.
  unfold Formatter.format_digest, sections. f_equal.
  rewrite omap_sections.
  assert (Hk : forall k, firstn 5 (default []
              (by_category (list_to_set (map st_id (top_stories stories))) stories !! k))
            = shown k stories).
  { intros k. unfold shown, remaining. rewrite by_category_lookup. do 2 f_equal.
    apply filter_ext_elem. intros s. by rewrite elem_of_list_to_set. }
  rewrite (List.filter_ext _ (fun k => nonempty (shown k stories)))
    by (intros k; by rewrite Hk).
  apply map_ext. intros k. by rewrite Hk.
Qed.

(** C4: the digest is the root message followed by the category replies.
    The root message is made of the header, the title of the top section,
    one block per story of the top section (an empty line and the lines of
    the story), the footer and the tag; its top section has at most 10
    stories, has a story whenever the input has one, and is made of the
    first 10 stories of the input when none is flagged.  A reply is made
    of the title of its category, one block per story that it shows, and
    the tag; it shows at least 1 and at most 5 stories, all of its
    category and none of the top section; the replies follow the fixed
    order of the categories, and a category of which no story is left has
    no reply. *)
Theorem format_digest_invariant channel clock stories titles summaries :
  let lang := language channel in
  let issue := PyStr.of_Z (Z.max 1 (days_since_first clock / 7 + 1)) in
  let months := assoc lang MONTHS (assoc "en" MONTHS []) in
  let header :=
    "<b>" +:+ ch_title channel +:+ " #" +:+ issue +:+ "</b> | <i>"
      +:+ (PyStr.of_Z (start_day clock) +:+ " " +:+ nth (start_month clock - 1) months "")
      +:+ " " +:+ mdash +:+ " "
      +:+ (PyStr.of_Z (now_day clock) +:+ " " +:+ nth (now_month clock - 1) months ""
           +:+ " " +:+ PyStr.of_Z (now_year clock))
      +:+ "</i>" in
  let tag := "#digest_" +:+ issue in
  let block := fun s => "" :: format_story_lines s titles (Some (default ∅ summaries)) lang in
  let flagged := List.filter st_is_top stories in
  let top := firstn 10 (match flagged with [] => stories | _ => flagged end) in
  let left := fun k => filter (fun s => category_of s = k)
                         (filter (fun s => st_id s ∉ map st_id top) stories) in
  let replied := List.filter (fun k => nonempty (left k)) category_order in
  format_digest channel clock stories titles summaries
  = String.concat PyStr.nl
      ([header; ""; format_category_header "top" lang]
       ++ flat_map block top
       ++ [""; footer channel; tag])
    :: map (fun k => String.concat PyStr.nl
                       ([format_category_header k lang]
                        ++ flat_map block (firstn 5 (left k))
                        ++ [""; tag]))
         replied
  /\ (length top <= 10)%nat
  /\ (stories <> [] -> top <> [])
  /\ (flagged = [] -> top = firstn 10 stories)
  /\ (forall k, k ∈ replied ->
        (1 <= length (firstn 5 (left k)) <= 5)%nat /\
        forall s, s ∈ firstn 5 (left k) -> category_of s = k /\ s ∉ top)
  /\ (forall k, left k = [] -> k ∉ replied)
  /\ length (format_digest channel clock stories titles summaries)
     = S (length replied).
Proof.
  intros lang issue months header tag block flagged top left replied.
  assert (Htop : top_stories stories = top).
  { unfold top_stories, top. fold flagged. destruct flagged; [|done].
    by rewrite firstn_firstn. }
  assert (Hleft : forall k, shown k stories = firstn 5 (left k)).
  { intros k. unfold shown, remaining, left. by rewrite Htop. }
  assert (Hsec : sections stories = replied).
  { unfold sections, replied. apply List.filter_ext. intros k. rewrite Hleft.
    apply nonempty_firstn. }
  assert (Hfd : format_digest channel clock stories titles summaries
    = String.concat PyStr.nl
        ([header; ""; format_category_header "top" lang]
         ++ flat_map block top
         ++ [""; footer channel; tag])
      :: map (fun k => String.concat PyStr.nl
                         ([format_category_header k lang]
                          ++ flat_map block (firstn 5 (left k))
                          ++ [""; tag]))
           replied).
  { rewrite format_digest_messages, Htop, Hsec. f_equal.
    apply map_ext. intros k. unfold category_message, story_blocks. by rewrite Hleft. }
  split; [exact Hfd|].
  split; [rewrite <- Htop; apply top_stories_length|].
  split; [rewrite <- Htop; apply top_stories_nonempty|].
  split; [rewrite <- Htop; apply top_stories_fallback|].
  split; [|split].
  - intros k Hk. apply list_elem_of_In, filter_In in Hk as [_ Hne].
    split.
    + rewrite length_firstn. destruct (left k); [done|]. cbn [length]. lia.
    + intros s Hs. apply (elem_of_sublist _ (left k)) in Hs; [|apply sublist_take].
      apply list_elem_of_filter in Hs as [Hc Hs].
      apply list_elem_of_filter in Hs as [Hid _]. split; [done|].
      intros Hin. apply Hid. by apply list_elem_of_In, in_map, list_elem_of_In.
  - intros k Hk Hin. apply list_elem_of_In, filter_In in Hin as [_ Hne]. by rewrite Hk in Hne.
  - rewrite Hfd. simpl. by rewrite length_map.
Qed.

End AssemblerFacts.

(** **** Escaping *)

(** A string rewritten character by character. *)
Fixpoint map_chars (f : ascii -> string) (s : string) : string :=
  match s with
  | EmptyString => EmptyString
  | String c r => f c +:+ map_chars f r
  end.

Definition escape_char (c : ascii) : string :=
  if Ascii.eqb c "&" then "&amp;"
  else if Ascii.eqb c "<" then "&lt;"
  else if Ascii.eqb c ">" then "&gt;"
  else String c "".

Lemma map_chars_app f a b : map_chars f (a +:+ b) = map_chars f a +:+ map_chars f b.
Proof.
  induction a as [|x a IH]; [done|].
  rewrite append_cons. cbn [map_chars]. by rewrite IH, append_assoc.
Qed.

Lemma map_chars_compose f g s :
  map_chars g (map_chars f s) = map_chars (fun c => map_chars g (f c)) s.
Proof. induction s as [|x s IH]; cbn [map_chars]; [done|]. by rewrite map_chars_app, IH. Qed.

Lemma map_chars_ext f g s : (forall c, f c = g c) -> map_chars f s = map_chars g s.
Proof. intros H. induction s as [|x s IH]; cbn [map_chars]; [done|]. by rewrite H, IH. Qed.

(** Replacing a single character is a character-wise rewriting. *)
Lemma replace_one_char c new s :
  PyStr.replace (String c "") new s
  = map_chars (fun x => if Ascii.eqb x c then new else String x "") s.
Proof.
  unfold PyStr.replace. induction s as [|x s IH]; [done|].
  cbn [PyStr.replace_from String.prefix String.length Nat.sub map_chars].
  rewrite IH. destruct (ascii_dec c x) as [->|Hne].
  - rewrite Ascii.eqb_refl. by destruct s.
  - destruct (Ascii.eqb x c) eqn:E; [apply Ascii.eqb_eq in E; by subst|done].
Qed.

(** [escape_html] rewrites each of the three characters into its entity
    and leaves every other character alone. *)
Lemma escape_html_chars t : escape_html t = map_chars escape_char t.
Proof.
  unfold escape_html. rewrite !replace_one_char, !map_chars_compose.
  apply map_chars_ext. intros c.
  destruct c as [[] [] [] [] [] [] [] []]; reflexivity.
Qed.

Lemma escape_html_no_angle t :
  PyStr.contains "<" (escape_html t) = false /\ PyStr.contains ">" (escape_html t) = false.
Proof.
  rewrite escape_html_chars, !contains_one_char.
  induction t as [|c t [IH1 IH2]]; [done|].
  cbn [map_chars]. rewrite !mem_char_app, IH1, IH2, !orb_false_r.
  destruct c as [[] [] [] [] [] [] [] []]; split; reflexivity.
Qed.

(** The title and the summary of a story block are escaped. *)
Lemma format_story_lines_escapes s titles sums lang :
  exists title_text,
    format_story_lines s titles (Some sums) lang =
      [title_line s titles]
      ++ (if is_hn_thread s then []
          else if String.eqb (default "" (sums !! st_id s)) "" then []
          else [escape_html (default "" (sums !! st_id s))])
      ++ [meta_line s lang]
    /\ title_text = escape_html (default (st_title s) (titles !! st_id s))
    /\ title_line s titles =
         if is_hn_thread s then
           "<b><a href=" +:+ PyStr.dquote +:+ HN_ITEM (st_id s) +:+ PyStr.dquote +:+ ">" +:+ title_text +:+ "</a></b>"
         else if String.eqb (st_url s) "" then "<b>" +:+ title_text +:+ "</b>"
         else "<b><a href=" +:+ PyStr.dquote +:+ st_url s +:+ PyStr.dquote +:+ ">" +:+ title_text +:+ "</a></b>".
Proof.
  eexists. split; [|split; [reflexivity|]].
  - unfold format_story_lines. simpl. destruct (is_hn_thread s); [done|].
    by destruct (String.eqb _ "").
  - unfold title_line. destruct (is_hn_thread s); [done|]. by destruct (String.eqb (st_url s) "").
Qed.

(** C8: the URL of a story is put into the [href] attribute as it is: the
    title and the summary of this story are escaped, the "&" of its URL
    is not. *)
Theorem format_story_lines_raw_url :
  let s := mkStory 42 "R&D <labs>" "https://example.com/search?q=a&lang=en" 120 7 134
             "example.com" "science" false in
  format_story_lines s {[ 42%Z := "R&D <labs>" ]} (Some {[ 42%Z := "Q&A on <b>" ]}) "en"
  = ["<b><a href=" +:+ PyStr.dquote +:+ "https://example.com/search?q=a&lang=en" +:+ PyStr.dquote
       +:+ ">R&amp;D &lt;labs&gt;</a></b>";
     "Q&amp;A on &lt;b&gt;";
     "<i>120" +:+ nbsp +:+ "points " +:+ middot +:+ " <a href=" +:+ PyStr.dquote
       +:+ "https://news.ycombinator.com/item?id=42" +:+ PyStr.dquote +:+ ">7" +:+ nbsp
       +:+ "comments</a></i>"]
  /\ escape_html (st_url s) = "https://example.com/search?q=a&amp;lang=en".
Proof. vm_compute. split; reflexivity. Qed.

End FormatterFacts.

(* ===================================================================== *)
(** ** process.py: the enricher *)
(* ===================================================================== *)

Module Process.
Import Config.

Record StoryResult := mkResult {
  category : string;
  is_top : bool;
  translation : string;
  summary : string
}.

(** [TRANSLATION_TRANSLATE.format(language=..., instructions=...)] *)
Definition TRANSLATION_TRANSLATE (language instructions : string) : string :=
  "Translate the title to " +:+ language +:+ " (" +:+ instructions +:+ ")".

Definition TRANSLATION_KEEP : string :=
  "Keep the original title as-is (do not translate)".

(** [PROCESS_PROMPT.format(translation_instruction=..., language=..., stories=...)] *)
Definition PROCESS_PROMPT (translation_instruction language stories : string) : string :=
  String.concat PyStr.nl
    ["You are a Hacker News editor curating a weekly digest.";
     "";
     "For each story below, do ALL of the following:";
     "1. Categorize into ONE category: ai, code, data, science, security, design, business, work, learn, other";
     "   (Do NOT assign show_hn or ask_hn — those are detected separately)";
     "2. Mark the 10 most interesting stories as " +:+ PyStr.dquote +:+ "top" +:+ PyStr.dquote
       +:+ " rank (others are " +:+ PyStr.dquote +:+ "regular" +:+ PyStr.dquote +:+ "):";
     "   - Genuinely novel, important, or thought-provoking";
     "   - NOT just highest points — a brilliant technical post beats routine drama";
     "   - Prefer diversity: don't put 10 AI stories in top";
     "3. " +:+ translation_instruction;
     "4. Write a one-sentence summary (max 20 words) in " +:+ language;
     "";
     "Category guide:";
     "- ai: AI/ML, LLMs, autonomous vehicles, neural networks, robotics";
     "- code: Programming languages, compilers, Git, Linux, open source, APIs, Docker, CLI tools";
     "- data: Databases, SQL, Postgres, Redis, data engineering, analytics, data science";
     "- science: Research, physics, biology, space, NASA, quantum, climate, arxiv";
     "- security: Vulnerabilities, breaches, malware, privacy, encryption, CVEs";
     "- design: UI/UX, typography, CSS, SVG, accessibility, Figma";
     "- business: Startups, funding, acquisitions, regulations, legal, antitrust, policy";
     "- work: Career, remote work, management, hiring, interviews, workplace culture";
     "- learn: Tutorials, guides, educational content, talks, " +:+ PyStr.dquote
       +:+ "how I built" +:+ PyStr.dquote +:+ ", courses";
     "- other: Everything else";
     "";
     "Stories:";
     stories;
     "";
     "Return EXACTLY one line per story in this format:";
     "1. category=ai, rank=top, title=Translated title here, summary=One sentence summary here";
     "2. category=code, rank=regular, title=Another title, summary=Another summary";
     "";
     "IMPORTANT: Return one line for EVERY story. Do not skip any."].

(** Modelled from the spec: hn_digest/categorize.py is not among the
    sources.  [_extract_field] reads a value out of the comma-separated
    "key=value" fields of section 4.3; it is transcribed from the function
    of the same name in hndigest/categorize.py, the sibling package. *)
Fixpoint _extract_field_parts (parts : list string) (field : string) : string :=
  match parts with
  | [] => ""
  | part :: rest =>
      let part := PyStr.strip part in
      if PyStr.startswith (field +:+ "=") part
      then PyStr.strip (default "" (snd (PyStr.split1 "=" part)))
      else _extract_field_parts rest field
  end.

Definition _extract_field (text field : string) : string :=
  _extract_field_parts (PyStr.split "," text) field.

(** Modelled from the spec: the ten categories that the enricher may
    assign, as PROCESS_PROMPT enumerates them (the 12-category scheme of
    the spec without the two thread kinds); hn_digest/categorize.py, which
    defines the set, is not among the sources.  The definitions and the
    general lemmas below take the set as a parameter; this value is used
    where a concrete run is evaluated and where a theorem needs to know
    the valid categories. *)
Definition PROMPT_CATEGORIES : list string :=
  ["ai"; "code"; "data"; "science"; "security"; "design"; "business"; "work"; "learn"; "other"].

(** What one request to the generation API comes to in the [try] block:
    the text of the first candidate, the [HTTPStatusError] that
    [raise_for_status] raised, or any other exception. *)
Inductive Response :=
| Generated (text : string)
| HttpStatusError (status_code : Z)
| OtherException.

(** The effects of a run, in order, each request with its outcome. *)
Inductive Event :=
| Request (prompt : string) (response : Response)
| Sleep (seconds : Z).

(** What [cache_file.write_text(text)] comes to: the text is stored, or
    an exception is raised ([OSError], [UnicodeEncodeError]) and the file
    is left as it was ([None]) or holding some other text. *)
Inductive WriteOutcome :=
| Written
| WriteError (residue : option string).

(** The files after a write of [text] to the file of [key]. *)
Definition write_file (outcome : WriteOutcome) (key text : string)
  (files : gmap string string) : gmap string string :=
  match outcome with
  | Written => <[key := text]> files
  | WriteError (Some residue) => <[key := residue]> files
  | WriteError None => files
  end.

Section Enricher.

(** [hashlib.md5(s.encode()).hexdigest()] *)
Variable md5_hexdigest : string -> string.
(** [VALID_CATEGORIES] of hn_digest/categorize.py. *)
Variable VALID_CATEGORIES : list string.
(** The generation API behind [session.post]: a state and, for a key and a
    prompt, the outcome of the request and the next state. *)
Variable World : Type.
Variable generate : World -> string -> string -> Response * World.
(** The file system behind [write_text]: for a cache key and a text, the
    outcome of the write in a state of the world. *)
Variable write_text : World -> string -> string -> WriteOutcome.

(** The files of [CACHE_DIR] (by cache key), the generation API, and the
    log of the effects so far. *)
Record State := mkState {
  cache : gmap string string;
  world : World;
  log : list Event
}.

Definition valid_category (cat : string) : bool :=
  existsb (String.eqb cat) VALID_CATEGORIES.

Definition _content_hash (content : string) : string :=
  PyStr.take 8 (md5_hexdigest content).

Definition _cache_key_for_story (story : Story) (content language : string) : string :=
  let content_h := if String.eqb content "" then "empty" else _content_hash content in
  md5_hexdigest ("process_v1|" +:+ PyStr.of_Z (st_id story) +:+ "|" +:+ st_title story
                 +:+ "|" +:+ content_h +:+ "|" +:+ language).

Definition _parse_cache_line (val : string) : option StoryResult :=
  let cat := _extract_field val "category" in
  let rank := _extract_field val "rank" in
  let title := _extract_field val "title" in
  let summary := _extract_field val "summary" in
  if negb (valid_category cat) then None
  else Some (mkResult cat (String.eqb rank "top") title summary).

Definition _serialize_result (r : StoryResult) : string :=
  let rank := if is_top r then "top" else "regular" in
  "category=" +:+ category r +:+ ",rank=" +:+ rank +:+ ",title=" +:+ translation r
  +:+ ",summary=" +:+ summary r.

Definition story_prompt_lines (contents : gmap Z string) (i : nat) (s : Story) : string :=
  let parts :=
    [PyStr.of_Z (Z.of_nat i + 1) +:+ ". Title: " +:+ st_title s +:+ " ("
       +:+ PyStr.of_Z (st_points s) +:+ " pts, " +:+ PyStr.of_Z (st_comments s) +:+ " comments)"]
    ++ (let content := default "" (contents !! st_id s) in
        if negb (String.eqb content "")
        then ["Article: " +:+ PyStr.take (Z.to_nat 12000) content]
        else []) in
  String.concat PyStr.nl parts.

Definition _build_prompt (stories : list Story) (contents : gmap Z string)
  (channel : Channel) : string :=
  let translation_instruction :=
    if negb (String.eqb (prompt channel) "")
    then TRANSLATION_TRANSLATE (language channel) (prompt channel)
    else TRANSLATION_KEEP in
  let story_lines := imap (story_prompt_lines contents) stories in
  PROCESS_PROMPT translation_instruction (language channel)
    (String.concat (PyStr.nl +:+ "---" +:+ PyStr.nl) story_lines).

(** [line and line[0].isdigit()] *)
Definition first_is_digit (line : string) : bool := PyStr.first_isdigit line.

Definition quotes : string := PyStr.dquote +:+ "'".

Definition _parse_result_line (line : string) : option (Z * StoryResult) :=
  let line := PyStr.strip line in
  if negb (first_is_digit line) then None
  else
    match PyStr.split1 "." line with
    | (_, None) => None
    | (index, Some tail) =>
        match PyStr.int (PyStr.strip index) with
        | None => None
        | Some n =>
            let num := (n - 1)%Z in
            let rest := PyStr.strip tail in
            let rest_lower := PyStr.lower rest in
            let cat := _extract_field rest_lower "category" in
            let rank := _extract_field rest_lower "rank" in
            let title := _extract_field rest "title" in
            let summary := _extract_field rest "summary" in
            let cat := if negb (valid_category cat) then "other" else cat in
            Some (num, mkResult cat (String.eqb rank "top")
                         (PyStr.strip_chars quotes title)
                         (PyStr.strip_chars quotes summary))
        end
    end.

Definition cache_key (contents : gmap Z string) (channel : Channel) (s : Story) : string :=
  _cache_key_for_story s (default "" (contents !! st_id s)) (language channel).

(** The first loop: what the cache holds for the stories of the batch.
    [read_text] reads the line ends of a file as line feeds. *)
Definition read_cache (files : gmap string string) (stories : list Story)
  (contents : gmap Z string) (channel : Channel) : gmap Z StoryResult :=
  foldl (fun cached s =>
           match files !! cache_key contents channel s with
           | Some text =>
               match _parse_cache_line (PyStr.strip (PyStr.universal_newlines text)) with
               | Some result => <[st_id s := result]> cached
               | None => cached
               end
           | None => cached
           end) ∅ stories.

(** The body of the loop over the lines of the response: the dictionary
    [results] and the files of the cache after one line.  [None] for
    [results] means that a write raised: the exception leaves the loop and
    the [try] block, the results are lost, what was written stays. *)
Definition parse_line (w : World) (stories : list Story) (contents : gmap Z string)
  (channel : Channel) (acc : option (gmap Z StoryResult) * gmap string string) (line : string)
  : option (gmap Z StoryResult) * gmap string string :=
  match fst acc with
  | None => acc
  | Some results =>
      match _parse_result_line line with
      | None => acc
      | Some (num, result) =>
          if negb ((0 <=? num)%Z && (num <? Z.of_nat (length stories))%Z) then acc
          else
            match stories !! Z.to_nat num with
            | None => acc
            | Some story =>
                let key := cache_key contents channel story in
                let text := _serialize_result result in
                let outcome := write_text w key text in
                (match outcome with
                 | Written => Some (<[st_id story := result]> results)
                 | WriteError _ => None
                 end,
                 write_file outcome key text (snd acc))
            end
      end
  end.

Definition parse_response (w : World) (stories : list Story) (contents : gmap Z string)
  (channel : Channel) (files : gmap string string) (response_text : string)
  : option (gmap Z StoryResult) * gmap string string :=
  foldl (parse_line w stories contents channel) (Some ∅, files)
    (PyStr.split (ascii_of_N 10) response_text).

(** The retry loop [for attempt in range(3)], over the attempts left.
    [Some results] is the [return results] of a successful attempt, [None]
    the end of the loop (by exhaustion or [break]). *)
Fixpoint attempt_loop (attempts : list Z) (api_key prompt : string) (stories : list Story)
  (contents : gmap Z string) (channel : Channel) (st : State)
  : option (gmap Z StoryResult) * State :=
  match attempts with
  | [] => (None, st)
  | attempt :: rest =>
      let '(response, w) := generate (world st) api_key prompt in
      let st1 := mkState (cache st) w (log st ++ [Request prompt response]) in
      match response with
      | Generated text =>
          let '(results, files) :=
            parse_response w stories contents channel (cache st1) (PyStr.strip text) in
          (results, mkState files (world st1) (log st1))
      | HttpStatusError status_code =>
          if (status_code =? 429)%Z then
            let wait := ((attempt + 1) * 10)%Z in
            attempt_loop rest api_key prompt stories contents channel
              (mkState (cache st1) (world st1) (log st1 ++ [Sleep wait]))
          else (None, st1)
      | OtherException => (None, st1)
      end
  end.

Definition process_stories (api_key : string) (stories : list Story)
  (contents : gmap Z string) (channel : Channel) (st : State)
  : gmap Z StoryResult * State :=
  if String.eqb api_key "" || match stories with [] => true | _ => false end then (∅, st)
  else
    let cached := read_cache (cache st) stories contents channel in
    if (size cached =? length stories)%nat then (cached, st)
    else
      let prompt := _build_prompt stories contents channel in
      match attempt_loop [0; 1; 2]%Z api_key prompt stories contents channel st with
      | (Some results, st') => (results, st')
      | (None, st') => (cached, st')
      end.

End Enricher.

(** The responses that the requests of a log received, in order. *)
Definition responses (events : list Event) : list Response :=
  omap (fun e => match e with Request _ r => Some r | Sleep _ => None end) events.

Definition rate_limited (r : Response) : bool :=
  match r with
  | HttpStatusError status_code => (status_code =? 429)%Z
  | _ => false
  end.

Definition failed (r : Response) : bool :=
  match r with Generated _ => false | _ => true end.

(** A file system on which every write succeeds. *)
Definition writable {World} (_ : World) (_ _ : string) : WriteOutcome := Written.

(** A scripted generation API: the outcomes of the successive requests
    are read off a list. *)
Definition scripted (w : list Response) (_ _ : string) : Response * list Response :=
  match w with
  | [] => (OtherException, [])
  | r :: w' => (r, w')
  end.

End Process.

(* --------------------------------------------------------------------- *)
(** *** Properties of the enricher: the fields of a line *)
(* --------------------------------------------------------------------- *)

Module FieldFacts.
Import Process PyStr PyStrFacts.

(** A part "key=value" of a line: the field [key] has the value, trimmed;
    any other field is looked for in the parts that follow. *)
Lemma extract_parts_field c key value rest field :
  ascii_char c = true -> isspace (String c "") = false ->
  mem_char "=" (String c key) = false ->
  mem_char "=" field = false ->
  _extract_field_parts ((String c key +:+ String "=" value) :: rest) field
  = if String.eqb field (String c key) then strip value
    else _extract_field_parts rest field.
Proof.
  intros Hc Hcs Hkey Hfield. cbn [_extract_field_parts].
  assert (Hs : strip (String c key +:+ String "=" value)
               = String c key +:+ String "=" (rstrip value))
    by (by apply strip_field).
  rewrite !Hs. unfold startswith. change (field +:+ "=") with (field +:+ String "=" "").
  rewrite prefix_key by done. destruct (String.eqb field (String c key)); [|done].
  rewrite split1_app_sep by done. cbn [snd default]. apply strip_rstrip.
Qed.

(** The same for a part that follows a comma and a blank. *)
Lemma extract_parts_field_blank c key value rest field :
  ascii_char c = true -> isspace (String c "") = false ->
  mem_char "=" (String c key) = false ->
  mem_char "=" field = false ->
  _extract_field_parts (String " " (String c key +:+ String "=" value) :: rest) field
  = if String.eqb field (String c key) then strip value
    else _extract_field_parts rest field.
Proof.
  intros Hc Hcs Hkey Hfield.
  rewrite <- (extract_parts_field c key value rest field) by done.
  cbn [_extract_field_parts]. by rewrite strip_space.
Qed.

Lemma extract_parts_no_comma parts field :
  Forall (fun x => mem_char "," x = false) parts ->
  mem_char "," (_extract_field_parts parts field) = false.
Proof.
  induction 1 as [|part rest Hp _ IH]; [done|]. cbn [_extract_field_parts].
  destruct (startswith _ _); [|done].
  apply mem_char_strip, split1_tail_no_char. by apply mem_char_strip.
Qed.

Lemma extract_field_no_comma text field : mem_char "," (_extract_field text field) = false.
Proof. apply extract_parts_no_comma, split_parts_no_sep. Qed.

Lemma extract_field_stripped text field :
  strip (_extract_field text field) = _extract_field text field.
Proof.
  unfold _extract_field. induction (split "," text) as [|part rest IH]; [done|].
  cbn [_extract_field_parts]. destruct (startswith _ _); [|done].
  apply strip_idemp.
Qed.

Lemma strip_chars_no_comma chars s :
  mem_char "," s = false -> mem_char "," (strip_chars chars s) = false.
Proof. apply mem_char_strip_with. Qed.

(** The four fields of a line in the format that the prompt asks for. *)
Lemma extract_documented c k t s field :
  mem_char "," c = false -> mem_char "," k = false ->
  mem_char "," t = false -> mem_char "," s = false ->
  mem_char "=" field = false ->
  _extract_field ("category=" +:+ c +:+ ", rank=" +:+ k +:+ ", title=" +:+ t
                  +:+ ", summary=" +:+ s) field
  = if String.eqb field "category" then strip c
    else if String.eqb field "rank" then strip k
    else if String.eqb field "title" then strip t
    else if String.eqb field "summary" then strip s
    else "".
Proof.
  intros Hc Hk Ht Hs Hf. unfold _extract_field.
  change ("category=" +:+ c +:+ ", rank=" +:+ k +:+ ", title=" +:+ t +:+ ", summary=" +:+ s)
    with (("category" +:+ String "=" c) +:+ String ","
          ((" rank" +:+ String "=" k) +:+ String ","
           ((" title" +:+ String "=" t) +:+ String ","
            (" summary" +:+ String "=" s)))).
  rewrite !split_app_sep, split_no_sep
    by (rewrite mem_char_app; cbn [mem_char Ascii.eqb Bool.eqb andb orb];
        by rewrite ?Hc, ?Hk, ?Ht, ?Hs).
  change (" rank" +:+ String "=" k) with (String " " ("rank" +:+ String "=" k)).
  change (" title" +:+ String "=" t) with (String " " ("title" +:+ String "=" t)).
  change (" summary" +:+ String "=" s) with (String " " ("summary" +:+ String "=" s)).
  rewrite extract_parts_field, !extract_parts_field_blank by done. reflexivity.
Qed.

End FieldFacts.

(* --------------------------------------------------------------------- *)
(** *** Properties of the enricher: the retry loop *)
(* --------------------------------------------------------------------- *)

Module ProcessFacts.
Import Config Process PyStr PyStrFacts FieldFacts.

(** The events of the attempt number [k] (counted from 0) that received
    the response [r]: the request and, after a 429, the wait of
    [10 * (k + 1)] seconds. *)
Definition attempt_events (prompt : string) (k : nat) (r : Response) : list Event :=
  Request prompt r :: (if rate_limited r then [Sleep (10 * (Z.of_nat k + 1))] else []).

(** The events of a run that received the responses [rs], in order. *)
Definition retry_events (prompt : string) (rs : list Response) : list Event :=
  concat (imap (attempt_events prompt) rs).

Section EnricherFacts.
Variable md5_hexdigest : string -> string.
Variable VALID_CATEGORIES : list string.
Variable World : Type.
Variable generate : World -> string -> string -> Response * World.
Variable write_text : World -> string -> string -> WriteOutcome.

Abbreviation State := (State World).
Abbreviation read_cache := (read_cache md5_hexdigest VALID_CATEGORIES).
Abbreviation cache_key := (cache_key md5_hexdigest).
Abbreviation valid_category := (valid_category VALID_CATEGORIES).
Abbreviation _parse_result_line := (_parse_result_line VALID_CATEGORIES).
Abbreviation _parse_cache_line := (_parse_cache_line VALID_CATEGORIES).
Abbreviation parse_line := (parse_line md5_hexdigest VALID_CATEGORIES World write_text).
Abbreviation parse_response := (parse_response md5_hexdigest VALID_CATEGORIES World write_text).
Abbreviation attempt_loop :=
  (attempt_loop md5_hexdigest VALID_CATEGORIES World generate write_text).
Abbreviation process_stories :=
  (process_stories md5_hexdigest VALID_CATEGORIES World generate write_text).

Ltac lookup_cases H :=
  repeat match type of H with
         | (_ :: _) !! ?k = Some _ => destruct k; simpl in H
         | [] !! _ = Some _ => discriminate H
         | Some _ = Some _ => injection H as <-
         end.

(** The three attempts, case by case on the responses. *)
Lemma attempt_loop_spec api_key prompt stories contents channel (st : State) :
  let r := attempt_loop [0; 1; 2]%Z api_key prompt stories contents channel st in
  exists rs,
    log _ (snd r) = log _ st ++ retry_events prompt rs /\
    rs <> [] /\
    (length rs <= 3)%nat /\
    (forall k x, rs !! k = Some x ->
       ((S k < length rs)%nat <-> rate_limited x = true /\ (k < 2)%nat)) /\
    (Forall (fun x => failed x = true) rs -> fst r = None /\ cache _ (snd r) = cache _ st) /\
    (forall results, fst r = Some results -> exists text, last rs = Some (Generated text)).
Proof.
  cbv zeta. cbn [Process.attempt_loop].
  repeat match goal with
  | |- context [generate ?w ?k ?p] =>
      let c := fresh "code" in let E := fresh "E" in
      destruct (generate w k p) as [[text|c|] ?]; cbn [world cache log];
      [destruct (Process.parse_response _ _ _ _ _ _ _ _ _) as [results files]
      |destruct (c =? 429)%Z eqn:E
      |]
  end; cbn [fst snd world cache log];
  rewrite <- ?app_assoc; cbn [app];
  match goal with
  | |- exists rs, _ ++ ?tr = _ ++ _ /\ _ =>
      let rs := eval cbn in (responses tr) in exists rs
  end;
  unfold retry_events, attempt_events; simpl; unfold compose; simpl;
  rewrite ?E, ?E0, ?E1; simpl;
  (split; [reflexivity|]); (split; [done|]); (split; [lia|]);
  (split; [intros k x Hk; lookup_cases Hk; simpl; rewrite ?E, ?E0, ?E1;
           (split; [try lia; try (intros _; split; [done|lia])|intros [? ?]; try done; try lia])|]);
  (split; [intros H; repeat (apply Forall_cons in H as [? H]); try done
          |intros ? ?; try done; by eexists]).
Qed.


(** **** Parsing the response *)

Lemma valid_or_other cat :
  let cat' := if negb (valid_category cat) then "other" else cat in
  valid_category cat' = true \/ cat' = "other".
Proof. cbv zeta. destruct (valid_category cat) eqn:E; cbn [negb]; [by left|by right]. Qed.


End EnricherFacts.

Definition demo_channel : Channel :=
  mkChannel "hn_en" "@hn_digest" "HN Digest" "en" "" "footer" "2024-01-01" 7 50 50.

Definition demo_stories : list Story :=
  [fetched 11 "A new kind of database engine" "https://a.example/db" 100 5;
   fetched 12 "Ask HN: how do you read papers?" "" 50 5].

(** Rate limited twice, then answered: three requests, waits of 10 and 20
    seconds, and the result of the third response. *)
Example retry_scenario :
  let answer := "1. category=ai, rank=top, title=Engines, summary=About engines" in
  let r := process_stories (fun s => s) PROMPT_CATEGORIES (list Response) scripted writable
             "key" demo_stories ∅ demo_channel
             (mkState _ ∅ [HttpStatusError 429; HttpStatusError 429; Generated answer] []) in
  let prompt := _build_prompt demo_stories ∅ demo_channel in
  log _ (snd r)
  = [Request prompt (HttpStatusError 429); Sleep 10;
     Request prompt (HttpStatusError 429); Sleep 20;
     Request prompt (Generated answer)]
  /\ fst r = {[ 11%Z := mkResult "ai" true "Engines" "About engines" ]}.
Proof. vm_compute. split; reflexivity. Qed.


End ProcessFacts.
(* --------------------------------------------------------------------- *)
(** *** Properties of the enricher: the cache *)
(* --------------------------------------------------------------------- *)

Module CacheFacts.
Import Config Process PyStr PyStrFacts FieldFacts.

(** A result as it comes back from the cache: the title and the summary
    lose the white space around them. *)
Definition trim_result (r : StoryResult) : StoryResult :=
  mkResult (category r) (is_top r) (strip (translation r)) (strip (summary r)).

(** The four fields of a serialized result. *)
Definition rank_text (r : StoryResult) : string := if is_top r then "top" else "regular".

Lemma serialize_fields r :
  _serialize_result r
  = ("category" +:+ String "=" (category r)) +:+ String ","
    (("rank" +:+ String "=" (rank_text r)) +:+ String ","
     (("title" +:+ String "=" (translation r)) +:+ String ","
      ("summary" +:+ String "=" (summary r)))).
Proof. unfold _serialize_result, rank_text. rewrite !append_assoc. reflexivity. Qed.

Lemma strip_serialize r :
  strip (_serialize_result r)
  = _serialize_result (mkResult (category r) (is_top r) (translation r) (rstrip (summary r))).
Proof.
  unfold _serialize_result. cbn [category is_top translation summary].
  set (k := if is_top r then "top" else "regular").
  assert (E : forall s,
    "category=" +:+ category r +:+ ",rank=" +:+ k +:+ ",title=" +:+ translation r
      +:+ ",summary=" +:+ s
    = ("category=" +:+ category r +:+ ",rank=" +:+ k +:+ ",title=" +:+ translation r
       +:+ ",summary") +:+ String "=" s).
  { intros s. rewrite !append_assoc. reflexivity. }
  rewrite !E.
  exact (strip_field "c" _ "=" _ eq_refl eq_refl eq_refl eq_refl).
Qed.

Lemma extract_serialized r field :
  mem_char "," (category r) = false ->
  mem_char "," (translation r) = false ->
  mem_char "," (summary r) = false ->
  mem_char "=" field = false ->
  _extract_field (_serialize_result r) field
  = if String.eqb field "category" then strip (category r)
    else if String.eqb field "rank" then strip (rank_text r)
    else if String.eqb field "title" then strip (translation r)
    else if String.eqb field "summary" then strip (summary r)
    else "".
Proof.
  intros Hc Ht Hs Hf. unfold _extract_field. rewrite serialize_fields.
  assert (Hk : mem_char "," (rank_text r) = false) by (unfold rank_text; by destruct (is_top r)).
  rewrite !split_app_sep, split_no_sep by (rewrite mem_char_app; simpl; by rewrite ?Hc, ?Hk, ?Ht, ?Hs).
  rewrite !extract_parts_field by done. reflexivity.
Qed.

(** What [read_text] makes of the text of a result. *)
Lemma universal_newlines_sep a x b :
  x <> ascii_of_N 10 ->
  universal_newlines (a +:+ String x b) = universal_newlines a +:+ universal_newlines (String x b).
Proof.
  intros Hx. remember (String.length a) as n eqn:Hn. revert a Hn.
  induction n as [n IH] using lt_wf_ind. intros a ->.
  destruct a as [|c a]; [done|]. rewrite append_cons.
  cbn [universal_newlines]. destruct (Ascii.eqb c (ascii_of_N 13)).
  - rewrite append_cons. f_equal. destruct a as [|d a'].
    + rewrite append_nil_l. apply Ascii.eqb_neq in Hx. by rewrite Hx.
    + rewrite append_cons. destruct (Ascii.eqb d (ascii_of_N 10)).
      * apply (IH (String.length a')); [simpl; lia|done].
      * rewrite <- append_cons. apply (IH (String.length (String d a'))); [simpl; lia|done].
  - rewrite append_cons. f_equal. apply (IH (String.length a)); [simpl; lia|done].
Qed.

Lemma universal_newlines_serialize r :
  mem_char (ascii_of_N 13) (category r) = false ->
  universal_newlines (_serialize_result r)
  = _serialize_result (mkResult (category r) (is_top r)
                         (universal_newlines (translation r))
                         (universal_newlines (summary r))).
Proof.
  intros Hc. unfold _serialize_result. cbn [category is_top translation summary].
  set (k := if is_top r then "top" else "regular").
  assert (Hk : mem_char (ascii_of_N 13) k = false) by (unfold k; by destruct (is_top r)).
  rewrite (universal_newlines_app "category=") by done.
  rewrite (universal_newlines_app (category r)) by done.
  rewrite (universal_newlines_app ",rank=") by done.
  rewrite (universal_newlines_app k) by done.
  rewrite (universal_newlines_app ",title=") by done.
  change (",summary=" +:+ summary r) with (String "," ("summary=" +:+ summary r)).
  rewrite universal_newlines_sep by done.
  change (String "," ("summary=" +:+ summary r)) with (",summary=" +:+ summary r).
  by rewrite (universal_newlines_app ",summary=").
Qed.

Section RoundTrip.
Variable VALID_CATEGORIES : list string.

Abbreviation valid_category := (valid_category VALID_CATEGORIES).
Abbreviation _parse_cache_line := (_parse_cache_line VALID_CATEGORIES).
Abbreviation _parse_result_line := (_parse_result_line VALID_CATEGORIES).

(** What holds of every result that a response line yields. *)
Definition well_formed (r : StoryResult) : Prop :=
  valid_category (category r) = true /\
  strip (category r) = category r /\
  mem_char "," (category r) = false /\
  mem_char "," (translation r) = false /\
  mem_char "," (summary r) = false.

(** Writing a result to the cache and reading it back. *)
Lemma parse_cache_line_serialize r :
  well_formed r ->
  _parse_cache_line (strip (_serialize_result r)) = Some (trim_result r).
Proof.
  intros (Hv & Hst & Hc & Ht & Hs). rewrite strip_serialize.
  unfold Process._parse_cache_line.
  rewrite !extract_serialized
    by (cbn [category translation summary]; by (done || apply mem_char_rstrip)).
  cbn [category translation summary String.eqb Ascii.eqb Bool.eqb].
  rewrite Hst, Hv. cbn [negb]. unfold trim_result, rank_text.
  cbn [category translation summary is_top].
  f_equal. f_equal; [by destruct (is_top r)|apply strip_rstrip].
Qed.

Lemma parse_result_line_well_formed line num r :
  valid_category "other" = true ->
  _parse_result_line line = Some (num, r) -> well_formed r.
Proof.
  intros Hother. unfold Process._parse_result_line.
  destruct (negb _); [done|].
  destruct (split1 "." (strip line)) as [index [tail|]]; [|done].
  destruct (int (strip index)) as [n|]; [|done].
  intros [= <- <-]. unfold well_formed. cbn [category translation summary].
  repeat split; try (apply strip_chars_no_comma, extract_field_no_comma).
  - destruct (valid_category (_extract_field _ "category")) eqn:E; simpl; by rewrite ?E.
  - destruct (negb _); [by vm_compute|apply extract_field_stripped].
  - destruct (negb _); [done|apply extract_field_no_comma].
Qed.

(** The same through a file: the line ends are read as line feeds. *)
Lemma parse_cache_line_read r :
  well_formed r -> mem_char (ascii_of_N 13) (category r) = false ->
  _parse_cache_line (strip (universal_newlines (_serialize_result r)))
  = Some (mkResult (category r) (is_top r)
            (strip (universal_newlines (translation r)))
            (strip (universal_newlines (summary r)))).
Proof.
  intros (Hv & Hst & Hc & Ht & Hs) Hcr. rewrite universal_newlines_serialize by done.
  rewrite parse_cache_line_serialize; [done|].
  unfold well_formed. cbn [category translation summary].
  repeat split; try done; by apply mem_char_universal_newlines.
Qed.

End RoundTrip.

Lemma NoDup_fmap_eq {A B} (f : A -> B) (l : list A) x y :
  NoDup (f <$> l) -> x ∈ l -> y ∈ l -> f x = f y -> x = y.
Proof.
  induction l as [|a l IH]; [by intros _ ?%elem_of_nil|].
  rewrite fmap_cons, NoDup_cons. intros [Ha Hl] Hx Hy Hxy.
  apply elem_of_cons in Hx as [->|Hx], Hy as [->|Hy]; [done| | |by apply IH].
  - destruct Ha. rewrite Hxy. by apply list_elem_of_fmap_2.
  - destruct Ha. rewrite <- Hxy. by apply list_elem_of_fmap_2.
Qed.

Section Idempotence.
Variable md5_hexdigest : string -> string.
Variable VALID_CATEGORIES : list string.
Variable World : Type.
Variable generate : World -> string -> string -> Response * World.
Variable write_text : World -> string -> string -> WriteOutcome.

Abbreviation State := (State World).
Abbreviation read_cache := (read_cache md5_hexdigest VALID_CATEGORIES).
Abbreviation cache_key := (cache_key md5_hexdigest).
Abbreviation parse_line := (parse_line md5_hexdigest VALID_CATEGORIES World write_text).
Abbreviation parse_response := (parse_response md5_hexdigest VALID_CATEGORIES World write_text).
Abbreviation attempt_loop :=
  (attempt_loop md5_hexdigest VALID_CATEGORIES World generate write_text).
Abbreviation process_stories :=
  (process_stories md5_hexdigest VALID_CATEGORIES World generate write_text).

Variable stories : list Story.
Variable contents : gmap Z string.
Variable channel : Channel.

(** What the cache holds for a story: the result its file parses to. *)
Definition entry (files : gmap string string) (s : Story) : option StoryResult :=
  files !! cache_key contents channel s
  ≫= fun text => _parse_cache_line VALID_CATEGORIES (strip (universal_newlines text)).

Definition read_step (files : gmap string string) (cached : gmap Z StoryResult) (s : Story)
  : gmap Z StoryResult :=
  match entry files s with
  | Some result => <[st_id s := result]> cached
  | None => cached
  end.

Lemma read_cache_foldl files l :
  Process.read_cache md5_hexdigest VALID_CATEGORIES files l contents channel
  = foldl (read_step files) ∅ l.
Proof.
  unfold Process.read_cache. generalize (∅ : gmap Z StoryResult).
  induction l as [|s l IH]; intros acc; [done|]. simpl. rewrite IH. f_equal.
  unfold read_step, entry. by destruct (files !! _).
Qed.

Lemma read_step_other files l : forall cached id,
  id ∉ st_id <$> l -> foldl (read_step files) cached l !! id = cached !! id.
Proof.
  induction l as [|x l IH]; intros cached id Hid; [done|].
  rewrite fmap_cons, not_elem_of_cons in Hid. destruct Hid as [Hx Hl].
  simpl. rewrite IH by done. unfold read_step.
  destruct (entry files x); [by rewrite lookup_insert_ne|done].
Qed.

Lemma read_step_hit files l : forall cached s r,
  NoDup (st_id <$> l) -> s ∈ l -> entry files s = Some r ->
  foldl (read_step files) cached l !! st_id s = Some r.
Proof.
  induction l as [|x l IH]; intros cached s r Hnd Hs Hr; [by apply elem_of_nil in Hs|].
  rewrite fmap_cons, NoDup_cons in Hnd. destruct Hnd as [Hx Hnd].
  apply elem_of_cons in Hs as [->|Hs]; simpl.
  - rewrite read_step_other by done. unfold read_step. rewrite Hr. apply lookup_insert_eq.
  - by apply IH.
Qed.

Lemma read_step_origin files l : forall cached id r,
  foldl (read_step files) cached l !! id = Some r ->
  cached !! id = Some r \/ exists s, s ∈ l /\ st_id s = id /\ entry files s = Some r.
Proof.
  induction l as [|x l IH]; intros cached id r H; [by left|].
  simpl in H. apply IH in H as [H|(s & Hs & Hid & Hr)].
  - unfold read_step in H. destruct (entry files x) as [rx|] eqn:Ex; [|by left].
    destruct (decide (st_id x = id)) as [<-|Hne].
    + rewrite lookup_insert_eq in H. injection H as <-. right. exists x. by repeat split; [left|..].
    + rewrite lookup_insert_ne in H by done. by left.
  - right. exists s. by repeat split; [right|..].
Qed.

Hypothesis ids_distinct : NoDup (st_id <$> stories).

(** The early return is taken when every story of the batch is found. *)
Lemma read_cache_complete files :
  (forall s, s ∈ stories -> is_Some (read_cache files stories contents channel !! st_id s)) ->
  size (read_cache files stories contents channel) = length stories.
Proof.
  intros Hall. rewrite <- (length_fmap st_id stories), <- size_dom.
  rewrite <- (size_list_to_set (C := gset Z)) by done. f_equal.
  apply set_eq. intros id. rewrite elem_of_dom, elem_of_list_to_set. split.
  - intros [r Hr]. rewrite read_cache_foldl in Hr.
    apply read_step_origin in Hr as [Hr|(s & Hs & <- & _)]; [done|].
    by apply list_elem_of_fmap_2.
  - intros (s & -> & Hs)%list_elem_of_fmap. by apply Hall.
Qed.

Hypothesis keys_distinct : NoDup (cache_key contents channel <$> stories).
Hypothesis other_valid : valid_category VALID_CATEGORIES "other" = true.
Hypothesis valid_names :
  forall c, valid_category VALID_CATEGORIES c = true -> mem_char (ascii_of_N 13) c = false.

(** After any number of response lines, the file of a story holds the
    result that [results] has for it. *)
Definition in_step (acc : option (gmap Z StoryResult) * gmap string string) : Prop :=
  forall results, fst acc = Some results ->
  (forall s r, s ∈ stories -> results !! st_id s = Some r ->
     snd acc !! cache_key contents channel s = Some (_serialize_result r) /\
     well_formed VALID_CATEGORIES r) /\
  (forall id, is_Some (results !! id) -> id ∈ st_id <$> stories).

Lemma parse_line_in_step w acc line :
  in_step acc -> in_step (parse_line w stories contents channel acc line).
Proof.
  destruct acc as [[results|] files]; intros Hacc; unfold Process.parse_line;
    cbn [fst snd]; [|done].
  destruct (Hacc results eq_refl) as [Hfiles Hdom]. cbn [fst snd] in Hfiles, Hdom.
  destruct (Process._parse_result_line _ _) as [[num result]|] eqn:Hp; [|done].
  destruct (negb _); [done|].
  destruct (stories !! Z.to_nat num) as [story|] eqn:Hst; [|done].
  apply list_elem_of_lookup_2 in Hst. cbv zeta.
  destruct (write_text _ _ _); [|by intros ? [=]].
  intros ? [= <-]. cbn [write_file snd]. split.
  - intros s r Hs Hr. destruct (decide (st_id s = st_id story)) as [E|E].
    + assert (s = story) as -> by (by eapply (NoDup_fmap_eq st_id)).
      rewrite lookup_insert_eq in Hr. injection Hr as <-.
      rewrite lookup_insert_eq. split; [done|].
      by eapply parse_result_line_well_formed.
    + rewrite lookup_insert_ne in Hr by done.
      rewrite lookup_insert_ne; [by apply Hfiles|].
      intros Hk. apply E. f_equal. symmetry.
      by eapply (NoDup_fmap_eq (cache_key contents channel)).
  - intros id [r Hr]. destruct (decide (st_id story = id)) as [<-|E].
    + by apply list_elem_of_fmap_2.
    + rewrite lookup_insert_ne in Hr by done. by apply Hdom.
Qed.

Lemma parse_response_in_step w files text :
  in_step (parse_response w stories contents channel files text).
Proof.
  unfold Process.parse_response.
  assert (H0 : in_step (Some ∅, files)).
  { intros ? [= <-]. split; simpl; [intros s r _ Hr; by rewrite lookup_empty in Hr|].
    intros id [r Hr]. by rewrite lookup_empty in Hr. }
  revert H0. generalize (Some (∅ : gmap Z StoryResult), files).
  induction (split _ text) as [|line lines IH]; intros acc Hacc; [done|].
  simpl. apply IH. by apply parse_line_in_step.
Qed.

(** A successful attempt returns what the response parses to, over the
    cache as it was at the start of the loop. *)
Lemma attempt_loop_some api_key prompt attempts : forall (st st' : State) results,
  attempt_loop attempts api_key prompt stories contents channel st = (Some results, st') ->
  exists w text,
    parse_response w stories contents channel (cache _ st) text = (Some results, cache _ st').
Proof.
  induction attempts as [|attempt rest IH]; intros st st' results; [done|].
  cbn [Process.attempt_loop].
  destruct (generate (world _ st) api_key prompt) as [[text|code|] w]; cbn [cache world log].
  - destruct (Process.parse_response _ _ _ _ _ _ _ _ _ _) as [res files] eqn:Hp.
    intros [= -> <-]. by exists w, (strip text).
  - destruct (code =? 429)%Z; [|done]. intros H. by apply IH in H.
  - done.
Qed.

(** The second call, under the hypotheses of the section. *)
Lemma process_stories_again api_key (st : State) :
  let r1 := process_stories api_key stories contents channel st in
  let r2 := process_stories api_key stories contents channel (snd r1) in
  (forall s, s ∈ stories -> is_Some (fst r1 !! st_id s)) ->
  snd r2 = snd r1 /\
  (forall id, fst r2 !! id = None <-> fst r1 !! id = None) /\
  (forall id x, fst r1 !! id = Some x ->
     exists y, fst r2 !! id = Some y /\
       ((category y = category x /\ is_top y = is_top x /\
         translation y = strip (universal_newlines (translation x)) /\
         summary y = strip (universal_newlines (summary x))) \/ y = x)).
Proof.
  cbv zeta. intros Hall.
  remember (process_stories api_key stories contents channel st) as r1 eqn:Hr1.
  unfold Process.process_stories in Hr1.
  destruct (String.eqb api_key "" || _) eqn:Hskip.
  { subst r1. simpl. unfold Process.process_stories. rewrite Hskip.
    split; [done|]. split; [done|]. intros id x Hx. by rewrite lookup_empty in Hx. }
  destruct (size _ =? length stories)%nat eqn:Hsize.
  { subst r1. simpl. unfold Process.process_stories. rewrite Hskip, Hsize.
    split; [done|]. split; [done|]. cbn [fst snd]. intros id x Hx.
    exists x. split; [done|]. by right. }
  destruct (Process.attempt_loop _ _ _ _ _ _ _ _ _ _ _ _) as [[results|] st'] eqn:Hloop;
    subst r1; cbn [fst snd] in *.
  - apply attempt_loop_some in Hloop as (w & text & Hp).
    pose proof (parse_response_in_step w (cache _ st) text) as Hstep.
    rewrite Hp in Hstep. destruct (Hstep results eq_refl) as [Hfiles Hdom].
    cbn [fst snd] in Hfiles, Hdom.
    assert (Hread : forall s r, s ∈ stories -> results !! st_id s = Some r ->
              read_cache (cache _ st') stories contents channel !! st_id s
              = Some (mkResult (category r) (is_top r)
                        (strip (universal_newlines (translation r)))
                        (strip (universal_newlines (summary r))))).
    { intros s r Hs Hr. destruct (Hfiles s r Hs Hr) as [Hf Hwf].
      rewrite read_cache_foldl. apply read_step_hit; [done..|].
      unfold entry. rewrite Hf. simpl. apply parse_cache_line_read; [done|].
      apply valid_names, Hwf. }
    assert (Hsize' : size (read_cache (cache _ st') stories contents channel) = length stories).
    { apply read_cache_complete. intros s Hs. destruct (Hall s Hs) as [r Hr].
      rewrite (Hread s r Hs Hr). by eexists. }
    unfold Process.process_stories. rewrite Hskip.
    apply Nat.eqb_eq in Hsize'. rewrite Hsize'. split; [done|]. cbn [fst snd]. split.
    + intros id. destruct (decide (id ∈ st_id <$> stories)) as [Hin|Hnin].
      * apply list_elem_of_fmap in Hin as (s & -> & Hs). destruct (Hall s Hs) as [r Hr].
        rewrite (Hread s r Hs Hr), Hr. done.
      * rewrite read_cache_foldl, read_step_other, lookup_empty by done.
        destruct (results !! id) as [r|] eqn:E; [|done].
        destruct Hnin. apply Hdom. by eexists.
    + intros id x Hx.
      assert (Hin : id ∈ st_id <$> stories) by (apply Hdom; by eexists).
      apply list_elem_of_fmap in Hin as (s & -> & Hs).
      eexists. split; [by apply Hread|]. left. done.
  - apply Nat.eqb_neq in Hsize. destruct Hsize. by apply read_cache_complete.
Qed.

End Idempotence.

Lemma prompt_categories_names c :
  valid_category PROMPT_CATEGORIES c = true -> mem_char (ascii_of_N 13) c = false.
Proof.
  unfold valid_category. intros (x & Hx & Heq)%existsb_exists.
  apply String.eqb_eq in Heq as ->. apply list_elem_of_In in Hx.
  unfold PROMPT_CATEGORIES in Hx.
  repeat (apply elem_of_cons in Hx as [->|Hx]; [reflexivity|]).
  by apply elem_of_nil in Hx.
Qed.

(** C1 (as the code has it), with the categories of the prompt as the
    valid ones: when the ids and the cache keys of the batch are pairwise
    distinct and the first call returned a result for every story, a
    second call with the same arguments makes no request, leaves the cache
    as it is, and returns a result for the same stories, each with the
    category and the top flag of the first call, and with its title and
    its summary when these have no white space around them and no
    carriage return. *)
Theorem process_stories_idempotent
  (md5_hexdigest : string -> string) (World : Type)
  (generate : World -> string -> string -> Response * World)
  (write_text : World -> string -> string -> WriteOutcome)
  (stories : list Story) (contents : gmap Z string) (channel : Channel)
  (api_key : string) (st : Process.State World) :
  let run := process_stories md5_hexdigest PROMPT_CATEGORIES World generate write_text
               api_key stories contents channel in
  let r1 := run st in
  let r2 := run (snd r1) in
  NoDup (st_id <$> stories) ->
  NoDup (cache_key md5_hexdigest contents channel <$> stories) ->
  (forall s, s ∈ stories -> is_Some (fst r1 !! st_id s)) ->
  snd r2 = snd r1 /\
  (forall id, fst r2 !! id = None <-> fst r1 !! id = None) /\
  (forall id x, fst r1 !! id = Some x ->
     exists y, fst r2 !! id = Some y /\
       category y = category x /\ is_top y = is_top x /\
       (strip (translation x) = translation x ->
        mem_char (ascii_of_N 13) (translation x) = false ->
        translation y = translation x) /\
       (strip (summary x) = summary x ->
        mem_char (ascii_of_N 13) (summary x) = false ->
        summary y = summary x)).
Proof.
  cbv zeta. intros Hids Hkeys Hall.
  destruct (process_stories_again md5_hexdigest PROMPT_CATEGORIES World generate write_text
              stories contents channel Hids Hkeys eq_refl prompt_categories_names
              api_key st Hall) as (Hst & Hdom & Hres).
  split; [done|]. split; [done|].
  intros id x Hx. destruct (Hres id x Hx) as (y & Hy & [(Hc & Ht & Htitle & Hsum)| ->]).
  - exists y. split; [done|]. split; [done|]. split; [done|]. split.
    + intros Hs Hcr. by rewrite Htitle, universal_newlines_no_cr, Hs.
    + intros Hs Hcr. by rewrite Hsum, universal_newlines_no_cr, Hs.
  - by exists x.
Qed.

Definition demo_state (script : list Response) : Process.State (list Response) :=
  mkState (list Response) ∅ script [].

Definition demo_run (st : Process.State (list Response)) :=
  process_stories (fun s => s) PROMPT_CATEGORIES (list Response) scripted writable
    "key" ProcessFacts.demo_stories ∅ ProcessFacts.demo_channel st.

(** The claim C1 as stated fails when the response of the first call has
    a line for the first story only: the cache is populated for that
    story, and the second call makes a request again. *)
Lemma process_stories_second_call_differs :
  let partial := demo_state
    [Generated "1. category=ai, rank=top, title=Engines, summary=About engines";
     HttpStatusError 500] in
  size (cache _ (snd (demo_run partial))) = 1%nat /\
  length (responses (log _ (snd (demo_run partial)))) = 1%nat /\
  length (responses (log _ (snd (demo_run (snd (demo_run partial)))))) = 2%nat.
Proof. vm_compute. repeat split; reflexivity. Qed.

(** What the round trip through the files does to a title: the white
    space that the quotes protected in the response is lost, and a
    carriage return comes back as a line feed. *)
Example process_stories_round_trip :
  let st := demo_state
    [Generated ("1. category=ai, rank=top, title=' Engines', summary=About engines"
                +:+ nl +:+ "2. category=work, rank=regular, title=Pa"
                +:+ String (ascii_of_N 13) "pers, summary=Reading")] in
  translation <$> fst (demo_run st)
  = {[ 11%Z := " Engines"; 12%Z := "Pa" +:+ String (ascii_of_N 13) "pers" ]} /\
  translation <$> fst (demo_run (snd (demo_run st)))
  = {[ 11%Z := "Engines"; 12%Z := "Pa" +:+ nl +:+ "pers" ]} /\
  log _ (snd (demo_run (snd (demo_run st)))) = log _ (snd (demo_run st)).
Proof. vm_compute. repeat split; reflexivity. Qed.

(** An instance: the response covers both stories of the batch. *)
Lemma process_stories_idempotent_witness :
  let st := demo_state
    [Generated ("1. category=ai, rank=top, title=Engines, summary=About engines"
                +:+ nl +:+ "2. category=work, rank=regular, title=Papers, summary=Reading")] in
  snd (demo_run (snd (demo_run st))) = snd (demo_run st) /\
  (forall id, fst (demo_run (snd (demo_run st))) !! id = None
              <-> fst (demo_run st) !! id = None) /\
  (forall id x, fst (demo_run st) !! id = Some x ->
     exists y, fst (demo_run (snd (demo_run st))) !! id = Some y /\
       category y = category x /\ is_top y = is_top x /\
       (strip (translation x) = translation x ->
        mem_char (ascii_of_N 13) (translation x) = false ->
        translation y = translation x) /\
       (strip (summary x) = summary x ->
        mem_char (ascii_of_N 13) (summary x) = false ->
        summary y = summary x)).
Proof.
  apply (process_stories_idempotent (fun s => s) (list Response) scripted writable
           ProcessFacts.demo_stories ∅ ProcessFacts.demo_channel "key").
  - compute_done.
  - compute_done.
  - intros s Hs. apply list_elem_of_In in Hs. simpl in Hs.
    destruct Hs as [<-|[<-|[]]]; vm_compute; eexists; reflexivity.
Defined.

End CacheFacts.

(* ===================================================================== *)
(** * Further properties *)
(* ===================================================================== *)

(* --------------------------------------------------------------------- *)
(** *** The selector: order, filters and the greedy walk *)
(* --------------------------------------------------------------------- *)

Module HnOrder.
Import Hn HnFacts.

(** Larger scores first. *)
Definition by_score (a b : Story) : Prop := (st_score b <= st_score a)%Z.

Lemma sublist_filter_mono {A} (P : A -> Prop) `{!forall x, Decision (P x)} (l1 l2 : list A) :
  l1 `sublist_of` l2 -> filter P l1 `sublist_of` filter P l2.
Proof.
  induction 1 as [|x l1 l2 _ IH|x l1 l2 _ IH]; [done| |].
  - rewrite !filter_cons. destruct (decide (P x)); [by constructor|done].
  - rewrite filter_cons. destruct (decide (P x)); [by constructor|done].
Qed.

Lemma sublist_strongly_sorted {A} (R : A -> A -> Prop) (l1 l2 : list A) :
  l1 `sublist_of` l2 -> StronglySorted R l2 -> StronglySorted R l1.
Proof.
  induction 1 as [|x l1 l2 Hs IH|x l1 l2 Hs IH]; [done| |].
  - rewrite !StronglySorted_cons. intros [Hall Hl]. split; [|by apply IH].
    rewrite Forall_forall in Hall |- *. intros y Hy. apply Hall.
    by eapply elem_of_sublist.
  - rewrite StronglySorted_cons. intros [_ Hl]. by apply IH.
Qed.

Lemma insert_desc_sorted s l :
  StronglySorted by_score l -> StronglySorted by_score (insert_desc s l).
Proof.
  induction l as [|x r IH]; intros Hl; simpl; [by repeat constructor|].
  destruct (st_score x <=? st_score s)%Z eqn:E.
  - apply Z.leb_le in E. apply StronglySorted_cons. split; [|done].
    apply StronglySorted_cons in Hl as [Hall _]. constructor; [done|].
    eapply Forall_impl; [exact Hall|]. unfold by_score. intros y Hy. simpl in *. lia.
  - apply Z.leb_gt in E. apply StronglySorted_cons in Hl as [Hall Hr].
    apply StronglySorted_cons. split; [|by apply IH].
    rewrite Forall_forall. intros y [->|Hy]%insert_desc_elem.
    + unfold by_score. lia.
    + rewrite Forall_forall in Hall. by apply Hall.
Qed.

Lemma sort_desc_sorted l : StronglySorted by_score (sort_desc l).
Proof.
  induction l as [|s r IH]; simpl; [constructor|]. by apply insert_desc_sorted.
Qed.

(** A story is put behind the stories that beat it only: the stories of
    any one score keep their order. *)
Lemma insert_desc_ties k s l :
  filter (fun x => st_score x = k) (insert_desc s l)
  = filter (fun x => st_score x = k) (s :: l).
Proof.
  induction l as [|x r IH]; simpl; [done|].
  destruct (st_score x <=? st_score s)%Z eqn:E; [done|]. apply Z.leb_gt in E.
  rewrite filter_cons, IH, !filter_cons.
  destruct (decide (st_score x = k)), (decide (st_score s = k)); try done. lia.
Qed.

Lemma sort_desc_ties k l :
  filter (fun x => st_score x = k) (sort_desc l) = filter (fun x => st_score x = k) l.
Proof.
  induction l as [|s r IH]; simpl; [done|].
  rewrite insert_desc_ties, !filter_cons, IH. done.
Qed.

(** The walk appends to [result] a subsequence of the list it walks. *)
Lemma walk_sublist l : forall limit dc result,
  exists taken, walk limit dc result l = result ++ taken /\ taken `sublist_of` l.
Proof.
  induction l as [|s r IH]; intros limit dc result; simpl.
  { exists []. by rewrite app_nil_r. }
  destruct (default 0%Z (dc !! st_domain s) <? 3)%Z.
  - destruct (limit <=? _)%Z.
    + exists [s]. split; [done|]. constructor. apply sublist_nil_l.
    + destruct (IH limit (<[st_domain s:=(default 0 (dc !! st_domain s) + 1)%Z]> dc)
                  (result ++ [s])) as (taken & -> & Hsub).
      exists (s :: taken). rewrite <- app_assoc. split; [done|]. by constructor.
  - destruct (limit <=? _)%Z.
    + exists []. rewrite app_nil_r. split; [done|]. apply sublist_nil_l.
    + destruct (IH limit dc result) as (taken & -> & Hsub).
      exists taken. split; [done|]. by constructor.
Qed.

Lemma count_domain_cons d s l :
  count_domain d (s :: l) =
  ((if decide (st_domain s = d) then 1 else 0) + count_domain d l)%nat.
Proof.
  unfold count_domain. rewrite filter_cons. by destruct (decide (st_domain s = d)).
Qed.

Lemma insert_desc_perm s l : insert_desc s l ≡ₚ s :: l.
Proof.
  induction l as [|x r IH]; simpl; [done|].
  destruct (st_score x <=? st_score s)%Z; [done|]. rewrite IH. apply Permutation_swap.
Qed.

Lemma sort_desc_perm l : sort_desc l ≡ₚ l.
Proof.
  induction l as [|s r IH]; simpl; [done|]. by rewrite insert_desc_perm, IH.
Qed.

(** When the walk ends below the limit, it has taken from every domain
    all the stories it met, up to three. *)
Lemma walk_fills l : forall limit dc result,
  counts_agree dc result ->
  (forall d, (count_domain d result <= 3)%nat) ->
  (Z.of_nat (length (walk limit dc result l)) < limit)%Z ->
  forall d, count_domain d (walk limit dc result l)
            = Nat.min 3 (count_domain d result + count_domain d l).
Proof.
  induction l as [|s r IH]; intros limit dc result Hag Hcap Hlen d.
  { cbn [walk]. change (count_domain d []) with 0%nat. specialize (Hcap d). lia. }
  cbn [walk] in Hlen |- *. cbv zeta in Hlen |- *. rewrite count_domain_cons.
  destruct (default 0%Z (dc !! st_domain s) <? 3)%Z eqn:Hroom.
  - apply Z.ltb_lt in Hroom. rewrite Hag in Hroom.
    destruct (limit <=? Z.of_nat (length (result ++ [s])))%Z eqn:E.
    { apply Z.leb_le in E. lia. }
    rewrite IH; [|by apply counts_agree_snoc| |done].
    + rewrite count_domain_snoc. destruct (decide (st_domain s = d)); lia.
    + intros d'. rewrite count_domain_snoc. specialize (Hcap d').
      destruct (decide (st_domain s = d')) as [<-|]; lia.
  - apply Z.ltb_ge in Hroom. rewrite Hag in Hroom.
    destruct (limit <=? Z.of_nat (length result))%Z eqn:E.
    { apply Z.leb_le in E. lia. }
    rewrite IH by done. specialize (Hcap (st_domain s)).
    destruct (decide (st_domain s = d)) as [<-|]; lia.
Qed.

Section Order.
Variable netloc : string -> string.

Lemma select_stories_sublist stories limit :
  select_stories netloc stories limit `sublist_of` sort_desc (omap (prepare netloc) stories).
Proof.
  unfold select_stories.
  destruct (walk_sublist (sort_desc (omap (prepare netloc) stories)) limit ∅ [])
    as (taken & -> & Hsub). done.
Qed.

(** X1: the selected stories are in order of score, larger scores first. *)
Theorem select_stories_sorted stories limit :
  StronglySorted by_score (select_stories netloc stories limit).
Proof.
  eapply sublist_strongly_sorted; [apply select_stories_sublist|apply sort_desc_sorted].
Qed.

(** X2: among the selected stories, those of equal score are in the order
    in which the input list has them. *)
Theorem select_stories_ties stories limit k :
  filter (fun s => st_score s = k) (select_stories netloc stories limit)
  `sublist_of` filter (fun s => st_score s = k) (omap (prepare netloc) stories).
Proof.
  rewrite <- (sort_desc_ties k (omap (prepare netloc) stories)). apply sublist_filter_mono, select_stories_sublist.
Qed.

(** X3: a selected story is an input story that has no job word in its
    title and that has a URL or a title of 20 characters at least; it
    keeps id, title, URL, points and comments, and its score is its
    points plus twice its comments. *)
Theorem select_stories_filters stories limit s' :
  s' ∈ select_stories netloc stories limit ->
  exists s, s ∈ stories /\
    st_id s' = st_id s /\ st_title s' = st_title s /\ st_url s' = st_url s /\
    st_points s' = st_points s /\ st_comments s' = st_comments s /\
    st_score s' = (st_points s + 2 * st_comments s)%Z /\
    (forall w, w ∈ JOB_WORDS -> PyStr.contains w (PyStr.lower (st_title s)) = false) /\
    (st_url s <> "" \/ (20 <= PyStr.len (st_title s))%nat).
Proof.
  intros (s & Hs & Hp)%select_stories_prepared. exists s. split; [done|].
  unfold prepare in Hp.
  destruct (existsb _ JOB_WORDS) eqn:Hjob; [done|].
  destruct (String.eqb (st_url s) "" && _) eqn:Hshort; [done|].
  injection Hp as <-. simpl. repeat split; try done; try lia.
  - intros w Hw. destruct (PyStr.contains w _) eqn:E; [|done].
    assert (existsb (fun w => PyStr.contains w (PyStr.lower (st_title s))) JOB_WORDS = true).
    { apply existsb_exists. exists w. split; [by apply list_elem_of_In|done]. }
    congruence.
  - apply andb_false_iff in Hshort as [H|H].
    + left. by apply String.eqb_neq in H.
    + right. apply Nat.ltb_ge in H. lia.
Qed.

(** X4: when fewer stories than the limit are selected, nothing was left
    out but for the cap: of every domain, the selection holds all the
    stories that passed the filters, or three of them. *)
Theorem select_stories_fills stories limit d :
  (Z.of_nat (length (select_stories netloc stories limit)) < limit)%Z ->
  count_domain d (select_stories netloc stories limit)
  = Nat.min 3 (count_domain d (omap (prepare netloc) stories)).
Proof.
  intros Hlen. unfold select_stories in *. rewrite walk_fills; [|apply counts_agree_empty| |done].
  - unfold count_domain at 1. simpl. f_equal. unfold count_domain.
    by rewrite (sort_desc_perm (omap (prepare netloc) stories)).
  - intros d'. unfold count_domain. simpl. lia.
Qed.

End Order.

Definition sample : list Story :=
  [fetched 1 "A compiler for tiny machines" "https://www.a.example/1" 40 5;
   fetched 2 "Who is hiring? (May)" "https://news.example/hiring" 300 200;
   fetched 3 "Databases in anger" "https://a.example/3" 30 10;
   fetched 4 "Short" "" 500 100;
   fetched 5 "Notes on type theory" "https://a.example/5" 10 0;
   fetched 6 "Garbage collection, again" "https://a.example/6" 5 0].

Example sample_selected :
  map st_id (select_stories Urllib.netloc sample 10) = [1; 3; 5]%Z.
Proof. vm_compute. reflexivity. Qed.

(** An instance of X3: the first story selected from [sample]. *)
Lemma select_stories_filters_witness :
  exists s, s ∈ sample /\
    1%Z = st_id s /\ "A compiler for tiny machines" = st_title s /\
    "https://www.a.example/1" = st_url s /\
    40%Z = st_points s /\ 5%Z = st_comments s /\
    50%Z = (st_points s + 2 * st_comments s)%Z /\
    (forall w, w ∈ JOB_WORDS -> PyStr.contains w (PyStr.lower (st_title s)) = false) /\
    (st_url s <> "" \/ (20 <= PyStr.len (st_title s))%nat).
Proof.
  apply (select_stories_filters Urllib.netloc sample 10
           (mkStory 1 "A compiler for tiny machines" "https://www.a.example/1" 40 5 50
              "a.example" "" false)).
  assert (E : select_stories Urllib.netloc sample 10
              = [mkStory 1 "A compiler for tiny machines" "https://www.a.example/1" 40 5 50
                   "a.example" "" false;
                 mkStory 3 "Databases in anger" "https://a.example/3" 30 10 50
                   "a.example" "" false;
                 mkStory 5 "Notes on type theory" "https://a.example/5" 10 0 10
                   "a.example" "" false]) by (vm_compute; reflexivity).
  rewrite E. by left.
Defined.

(** An instance of X4: four stories of one domain pass the filters, three
    are selected, and the limit of ten is not reached. *)
Lemma select_stories_fills_witness :
  count_domain "a.example" (select_stories Urllib.netloc sample 10)
  = Nat.min 3 (count_domain "a.example" (omap (prepare Urllib.netloc) sample)).
Proof.
  apply (select_stories_fills Urllib.netloc sample 10 "a.example").
  vm_compute. reflexivity.
Defined.

End HnOrder.

(* ===================================================================== *)
(** ** hn.py: the fetcher *)
(* ===================================================================== *)

Module HnFetch.

(** A hit of the search API.  [h.get("title", "")] and [h.get("url", "")]
    read a text (absent: the empty text); "points" and "num_comments" may
    be absent or null; "objectID" is the text that [int] has to read. *)
Record Hit := mkHit {
  objectID : string;
  hit_title : string;
  hit_url : string;
  hit_points : option Z;
  num_comments : option Z
}.

(** One element of the comprehension of [_parse_hits]; [None] when
    [int(h["objectID"])] raises. *)
Definition parse_hit (h : Hit) : option Story :=
  story_id ← PyStr.int (objectID h);
  Some (fetched story_id (hit_title h) (hit_url h)
          (default 0%Z (hit_points h)) (default 0%Z (num_comments h))).

(** [_parse_hits]: [None] when an element raises. *)
Definition _parse_hits (hits : list Hit) : option (list Story) := mapM parse_hit hits.

(** The parameters of a request to the search API. *)
Record Query := mkQuery {
  tags : string;
  numericFilters : string;
  hitsPerPage : Z;
  page : Z
}.

(** What a request comes to in the [try] block: the hits of the page
    ([r.json().get("hits", [])]) or an exception. *)
Inductive SearchResponse :=
| Hits (hits : list Hit)
| SearchFailed.

Inductive FetchEvent :=
| Searched (q : Query) (r : SearchResponse)
| Paused.

Section Fetcher.

Variable World : Type.
Variable search : World -> Query -> SearchResponse * World.

Record FetchState := mkFetchState { fworld : World; trace : list FetchEvent }.

(** The stories that a response adds; [None] when the loop ends on it:
    an exception, a page without hit, or a hit that does not parse. *)
Definition page_stories (r : SearchResponse) : option (list Story) :=
  match r with
  | Hits [] => None
  | Hits hits => _parse_hits hits
  | SearchFailed => None
  end.

(** The loop [for page in range(5)], over the pages left. *)
Fixpoint fetch_loop (pages : list Z) (since min_points : Z) (tag : string)
  (stories : list Story) (st : FetchState) : list Story * FetchState :=
  match pages with
  | [] => (stories, st)
  | p :: rest =>
      let q := mkQuery tag
                 ("created_at_i>" +:+ PyStr.of_Z since +:+ ",points>=" +:+ PyStr.of_Z min_points)
                 100 p in
      let '(r, w) := search (fworld st) q in
      let st1 := mkFetchState w (trace st ++ [Searched q r]) in
      match r with
      | SearchFailed => (stories, st1)
      | Hits [] => (stories, st1)
      | Hits hits =>
          match _parse_hits hits with
          | None => (stories, st1)
          | Some parsed =>
              fetch_loop rest since min_points tag (stories ++ parsed)
                (mkFetchState (fworld st1) (trace st1 ++ [Paused]))
          end
      end
  end.

(** [fetch_stories]; [since] is the time stamp of [now - days]. *)
Definition fetch_stories (since min_points : Z) (tag : string) (st : FetchState)
  : list Story * FetchState :=
  fetch_loop [0; 1; 2; 3; 4]%Z since min_points tag [] st.

End Fetcher.

(** The requests of a trace with their responses, in order. *)
Definition searches (events : list FetchEvent) : list (Query * SearchResponse) :=
  omap (fun e => match e with Searched q r => Some (q, r) | Paused => None end) events.

End HnFetch.

Module HnFetchFacts.
Import HnFetch.

Lemma searches_app a b : searches (a ++ b) = searches a ++ searches b.
Proof. unfold searches. apply omap_app. Qed.

Section FetcherFacts.
Variable World : Type.
Variable search : World -> Query -> SearchResponse * World.

Abbreviation fetch_loop := (fetch_loop World search).
Abbreviation fetch_stories := (fetch_stories World search).

Lemma fetch_loop_spec since min_points tag pages : forall stories st,
  let r := fetch_loop pages since min_points tag stories st in
  exists qs,
    searches (trace _ (snd r)) = searches (trace _ st) ++ qs /\
    (pages <> [] -> qs <> []) /\
    (length qs <= length pages)%nat /\
    map (fun x => page (fst x)) qs = firstn (length qs) pages /\
    Forall (fun x => tags (fst x) = tag /\ hitsPerPage (fst x) = 100%Z) qs /\
    fst r = stories ++ concat (map (fun x => default [] (page_stories (snd x))) qs) /\
    (forall i x, qs !! i = Some x ->
       ((S i < length qs)%nat <-> page_stories (snd x) <> None /\ (S i < length pages)%nat)).
Proof.
  induction pages as [|p rest IH]; intros stories st; cbn [HnFetch.fetch_loop]; cbv zeta.
  { exists []. simpl. rewrite !app_nil_r.
    repeat split; try done; intros; by destruct i. }
  set (q := mkQuery tag _ 100 p).
  destruct (search (fworld _ st) q) as [r w].
  assert (Hstop : page_stories r = None ->
    exists qs,
      searches (trace _ st ++ [Searched q r]) = searches (trace _ st) ++ qs /\
      (p :: rest <> [] -> qs <> []) /\
      (length qs <= length (p :: rest))%nat /\
      map (fun x => page (fst x)) qs = firstn (length qs) (p :: rest) /\
      Forall (fun x => tags (fst x) = tag /\ hitsPerPage (fst x) = 100%Z) qs /\
      stories = stories ++ concat (map (fun x => default [] (page_stories (snd x))) qs) /\
      (forall i x, qs !! i = Some x ->
         ((S i < length qs)%nat
          <-> page_stories (snd x) <> None /\ (S i < length (p :: rest))%nat))).
  { intros Hr. exists [(q, r)]. rewrite searches_app. simpl. rewrite Hr. simpl.
    rewrite app_nil_r.
    split; [done|]. split; [done|]. split; [lia|]. split; [done|].
    split; [by repeat constructor|]. split; [done|].
    intros [|i] x Hx; [|done]. injection Hx as <-. cbn [snd]. split; [lia|].
    intros [Hne _]. by destruct Hne. }
  destruct r as [[|h hits]|]; cbn [fst snd trace]; [by apply Hstop..| |by apply Hstop].
  destruct (_parse_hits (h :: hits)) as [parsed|] eqn:Hp; cbn [fst snd trace];
    [|by apply Hstop].
  clear Hstop.
  destruct (IH (stories ++ parsed)
              (mkFetchState World w ((trace _ st ++ [Searched q (Hits (h :: hits))]) ++ [Paused])))
    as (qs & Htr & Hne & Hlen & Hpages & Hq & Hres & Hlast).
  cbn [fworld trace] in *.
  exists ((q, Hits (h :: hits)) :: qs).
  split; [|split; [|split; [|split; [|split; [|split]]]]].
  - rewrite Htr, !searches_app. simpl. by rewrite <- !app_assoc.
  - done.
  - simpl. lia.
  - simpl. by rewrite Hpages.
  - constructor; [done|exact Hq].
  - rewrite Hres. cbn [map concat fst snd page_stories]. rewrite Hp.
    cbn [default]. by rewrite <- app_assoc.
  - intros [|i] x Hx; simpl in Hx.
    + injection Hx as <-. cbn [snd page_stories length]. rewrite Hp. split.
      * intros Hlt. split; [done|]. destruct rest; [|simpl; lia].
        simpl in Hlen. lia.
      * intros [_ Hlt]. assert (qs <> []) by (apply Hne; destruct rest; [simpl in Hlt; lia|done]).
        destruct qs; [done|]. simpl. lia.
    + cbn [length]. rewrite <- !Nat.succ_lt_mono. by apply Hlast.
Qed.

(** X5: [fetch_stories] makes at least one request and asks for the pages
    0, 1, 2, ... in order, five at most, always with the same tag and
    page size; it returns the stories of the pages received, in order; a
    request is followed by the request of the next page exactly when it
    is not the fifth and brought a page with hits whose ids can all be
    read: a request that fails, or a page that has no hit or a hit whose
    id cannot be read, is the last one and adds nothing. *)
Theorem fetch_stories_paging since min_points tag st :
  let r := fetch_stories since min_points tag st in
  exists qs,
    searches (trace _ (snd r)) = searches (trace _ st) ++ qs /\
    qs <> [] /\
    (length qs <= 5)%nat /\
    map (fun x => page (fst x)) qs = firstn (length qs) [0; 1; 2; 3; 4]%Z /\
    Forall (fun x => tags (fst x) = tag /\ hitsPerPage (fst x) = 100%Z) qs /\
    fst r = concat (map (fun x => default [] (page_stories (snd x))) qs) /\
    (forall i x, qs !! i = Some x ->
       ((S i < length qs)%nat <-> page_stories (snd x) <> None /\ (i < 4)%nat)).
Proof.
  destruct (fetch_loop_spec since min_points tag [0; 1; 2; 3; 4]%Z [] st)
    as (qs & Htr & Hne & Hlen & Hpages & Hq & Hres & Hlast).
  exists qs.
  split; [done|]. split; [by apply Hne|]. split; [done|]. split; [done|].
  split; [done|]. split; [done|].
  intros i x Hx. rewrite (Hlast i x Hx). cbn [length]. split; intros [? ?]; (split; [done|lia]).
Qed.

End FetcherFacts.

End HnFetchFacts.

(* --------------------------------------------------------------------- *)
(** *** The assembler: escaping, groups, size and issue number *)
(* --------------------------------------------------------------------- *)

Module FormatterMore.
Import Config Formatter PyStr PyStrFacts FormatterFacts.

(** Every "&" of a text starts one of the three entities. *)
Fixpoint entities_only (s : string) : bool :=
  match s with
  | EmptyString => true
  | String c r =>
      (negb (Ascii.eqb c "&")
       || String.prefix "amp;" r || String.prefix "lt;" r || String.prefix "gt;" r)
      && entities_only r
  end.

Lemma entities_only_escape_char c r :
  entities_only (escape_char c +:+ r) = entities_only r.
Proof.
  unfold escape_char.
  destruct (Ascii.eqb c "&") eqn:E1.
  { change ("&amp;" +:+ r) with (String "&" (String "a" (String "m" (String "p" (String ";" r))))).
    cbn. by rewrite prefix_nil_r. }
  destruct (Ascii.eqb c "<") eqn:E2.
  { change ("&lt;" +:+ r) with (String "&" (String "l" (String "t" (String ";" r)))).
    cbn. by rewrite prefix_nil_r. }
  destruct (Ascii.eqb c ">") eqn:E3.
  { change ("&gt;" +:+ r) with (String "&" (String "g" (String "t" (String ";" r)))).
    cbn. by rewrite prefix_nil_r. }
  change (String c "" +:+ r) with (String c r). cbn [entities_only]. by rewrite E1.
Qed.

(** X6: the text that [escape_html] returns has no "<" and no ">", and
    each "&" in it starts "&amp;", "&lt;" or "&gt;". *)
Theorem escape_html_safe text :
  contains "<" (escape_html text) = false /\
  contains ">" (escape_html text) = false /\
  entities_only (escape_html text) = true.
Proof.
  destruct (escape_html_no_angle text) as [H1 H2]. split; [done|]. split; [done|].
  clear H1 H2. rewrite escape_html_chars. induction text as [|c t IH]; [done|].
  cbn [map_chars]. by rewrite entities_only_escape_char.
Qed.

(** The text that [escape_char] made of a character gives the character
    back. *)
Lemma escape_char_inj c d r r' :
  escape_char c +:+ r = escape_char d +:+ r' -> c = d /\ r = r'.
Proof.
  unfold escape_char.
  destruct (Ascii.eqb c "&") eqn:C1; [apply Ascii.eqb_eq in C1; subst|];
  [|destruct (Ascii.eqb c "<") eqn:C2; [apply Ascii.eqb_eq in C2; subst|];
    [|destruct (Ascii.eqb c ">") eqn:C3; [apply Ascii.eqb_eq in C3; subst|]]];
  (destruct (Ascii.eqb d "&") eqn:D1; [apply Ascii.eqb_eq in D1; subst|];
   [|destruct (Ascii.eqb d "<") eqn:D2; [apply Ascii.eqb_eq in D2; subst|];
     [|destruct (Ascii.eqb d ">") eqn:D3; [apply Ascii.eqb_eq in D3; subst|]]]);
  cbn; intros H; try (injection H as ?; subst); try done;
  rewrite ?Ascii.eqb_refl in *; try done.
Qed.

(** X7: [escape_html] loses nothing: two texts with the same escaped form
    are the same text. *)
Theorem escape_html_injective a b : escape_html a = escape_html b -> a = b.
Proof.
  rewrite !escape_html_chars. revert b.
  induction a as [|c a IH]; intros [|d b]; cbn [map_chars]; [done| | |].
  - intros H. exfalso. unfold escape_char in H.
    destruct (Ascii.eqb d "&"); [done|]. destruct (Ascii.eqb d "<"); [done|].
    by destruct (Ascii.eqb d ">").
  - intros H. exfalso. unfold escape_char in H.
    destruct (Ascii.eqb c "&"); [done|]. destruct (Ascii.eqb c "<"); [done|].
    by destruct (Ascii.eqb c ">").
  - intros [-> H]%escape_char_inj. f_equal. by apply IH.
Qed.

Lemma escape_html_injective_witness : "R&D <labs>" = "R&D <labs>".
Proof. apply (escape_html_injective "R&D <labs>" "R&D <labs>"). reflexivity. Defined.

(** X8: the issue number is 1 at least, it never decreases as days pass,
    and from the day of the first issue on it grows by one every seven
    days. *)
Theorem issue_number_weekly (clock clock' : Clock) :
  (1 <= issue_number clock)%Z /\
  ((days_since_first clock <= days_since_first clock')%Z ->
   (issue_number clock <= issue_number clock')%Z) /\
  ((0 <= days_since_first clock)%Z ->
   days_since_first clock' = (days_since_first clock + 7)%Z ->
   issue_number clock' = (issue_number clock + 1)%Z).
Proof.
  unfold issue_number. split; [lia|]. split.
  - intros H. pose proof (Z.div_le_mono _ _ 7 ltac:(lia) H). lia.
  - intros H0 ->.
    replace (days_since_first clock + 7)%Z with (days_since_first clock + 1 * 7)%Z by lia.
    rewrite Z.div_add by lia. pose proof (Z.div_pos (days_since_first clock) 7). lia.
Qed.

Section Groups.
Variable CATEGORIES : list (string * (list string * list string)).

Abbreviation category_of := (category_of CATEGORIES).
Abbreviation by_category := (by_category CATEGORIES).
Abbreviation format_digest := (format_digest CATEGORIES).

(** X9: the dictionary [by_category] holds, under each category, the
    stories of that category whose id is not among the top ids, in the
    order of the input: no such story is lost, none is in two groups, and
    no group holds a top story. *)
Theorem by_category_groups (top_ids : gset Z) stories k :
  default [] (by_category top_ids stories !! k)
  = filter (fun s => category_of s = k) (filter (fun s => st_id s ∉ top_ids) stories)
  /\ (forall s, s ∈ default [] (by_category top_ids stories !! k) ->
        s ∈ stories /\ (st_id s ∉ top_ids) /\ category_of s = k)
  /\ (forall s, s ∈ stories -> st_id s ∉ top_ids ->
        s ∈ default [] (by_category top_ids stories !! category_of s)).
Proof.
  assert (H : forall k', default [] (by_category top_ids stories !! k')
    = filter (fun s => category_of s = k') (filter (fun s => st_id s ∉ top_ids) stories)).
  { intros k'. unfold Formatter.by_category.
    by rewrite (FormatterFacts.by_category_foldl CATEGORIES), lookup_empty. }
  split; [apply H|]. split.
  - intros s. rewrite H, !list_elem_of_filter. tauto.
  - intros s Hs Hid. rewrite H, !list_elem_of_filter. tauto.
Qed.

(** X10: a digest has the main post and at most twelve replies; it has a
    reply as soon as a story outside the top section has one of the
    twelve categories of [category_order], and it is the main post alone
    when every story is in the top section or has a category that is none
    of the twelve. *)
Theorem format_digest_size channel clock stories titles summaries :
  let digest := format_digest channel clock stories titles summaries in
  let top_ids := map st_id (top_stories stories) in
  (1 <= length digest <= 13)%nat /\
  (forall s, s ∈ stories -> st_id s ∉ top_ids -> category_of s ∈ category_order ->
     (2 <= length digest)%nat) /\
  ((forall s, s ∈ stories -> st_id s ∈ top_ids \/ category_of s ∉ category_order) ->
   length digest = 1%nat).
Proof.
  intros digest top_ids.
  assert (Hlen : length digest = S (length (sections CATEGORIES stories))).
  { unfold digest. rewrite FormatterFacts.format_digest_messages. cbn [length].
    by rewrite length_map. }
  assert (Hleft : forall k, nonempty (shown CATEGORIES k stories) = true <->
            (exists s, s ∈ stories /\ (st_id s ∉ top_ids) /\ category_of s = k)).
  { intros k. unfold shown. rewrite nonempty_firstn. unfold remaining. fold top_ids. split.
    - destruct (filter _ (filter _ stories)) as [|s l] eqn:E; [done|]. intros _.
      assert (Hs : s ∈ filter (fun s => category_of s = k)
                         (filter (fun s => st_id s ∉ top_ids) stories))
        by (rewrite E; left).
      rewrite !list_elem_of_filter in Hs. exists s. tauto.
    - intros (s & Hs & Hid & Hk).
      assert (Hin : s ∈ filter (fun s => category_of s = k)
                          (filter (fun s => st_id s ∉ top_ids) stories))
        by (rewrite !list_elem_of_filter; tauto).
      by destruct (filter _ (filter _ stories)); [apply elem_of_nil in Hin|]. }
  split; [|split].
  - rewrite Hlen. unfold sections.
    pose proof (filter_length_le (fun k => nonempty (shown CATEGORIES k stories))
                  category_order) as Hle.
    change (length category_order) with 12%nat in Hle. lia.
  - intros s Hs Hid Hcat. rewrite Hlen.
    assert (Hin : category_of s ∈ sections CATEGORIES stories).
    { unfold sections. apply list_elem_of_In, filter_In. split; [by apply list_elem_of_In|].
      apply Hleft. by exists s. }
    destruct (sections CATEGORIES stories); [by apply elem_of_nil in Hin|]. simpl. lia.
  - intros Hall. rewrite Hlen. f_equal.
    destruct (sections CATEGORIES stories) as [|k l] eqn:E; [done|].
    assert (Hin : k ∈ sections CATEGORIES stories) by (rewrite E; left).
    unfold sections in Hin. apply list_elem_of_In, filter_In in Hin as [Hin Hne].
    apply Hleft in Hne as (s & Hs & Hid & <-).
    destruct (Hall s Hs) as [H|H]; [done|]. destruct H. by apply list_elem_of_In.
Qed.

End Groups.

End FormatterMore.

(* --------------------------------------------------------------------- *)
(** *** The keyword classifier *)
(* --------------------------------------------------------------------- *)

Module ConfigFacts.
Import Config.

(** The rule of a category applies to a story: one of its keywords occurs
    in the title, or one of its domains in the domain, both in lower
    case. *)
Definition rule_applies (rule : list string * list string) (story : Story) : Prop :=
  (exists kw, kw ∈ fst rule /\ PyStr.contains kw (PyStr.lower (st_title story)) = true) \/
  (exists d, d ∈ snd rule /\ PyStr.contains d (PyStr.lower (st_domain story)) = true).

Lemma existsb_elem {A} (f : A -> bool) l :
  existsb f l = true -> exists x, x ∈ l /\ f x = true.
Proof.
  intros (x & Hx & Hf)%existsb_exists. exists x. by rewrite list_elem_of_In.
Qed.

Lemma first_match_sound story table cat_key :
  first_match (PyStr.lower (st_title story)) (PyStr.lower (st_domain story)) table
  = Some cat_key ->
  is_thread_kind cat_key = false /\
  exists rule, (cat_key, rule) ∈ table /\ rule_applies rule story.
Proof.
  induction table as [|[k [kws doms]] r IH]; cbn [first_match]; [done|].
  destruct (is_thread_kind k) eqn:Hk.
  { intros H. destruct (IH H) as (Ht & rule & Hin & Happ).
    split; [done|]. exists rule. split; [by right|done]. }
  destruct (existsb _ kws) eqn:Hkw.
  { intros [= <-]. split; [done|]. exists (kws, doms). split; [by left|].
    left. by apply existsb_elem in Hkw. }
  destruct (existsb _ doms) eqn:Hd.
  { intros [= <-]. split; [done|]. exists (kws, doms). split; [by left|].
    right. by apply existsb_elem in Hd. }
  intros H. destruct (IH H) as (Ht & rule & Hin & Happ).
  split; [done|]. exists rule. split; [by right|done].
Qed.

Section ClassifierFacts.
Variable CATEGORIES : list (string * (list string * list string)).

(** X22: the category that [categorize_story] gives is a thread kind
    whose keyword occurs in the title, or an entry of the table other
    than the thread kinds whose rule applies to the story, or "other";
    and a title with the words "show hn" makes the story a "show_hn"
    whatever the other rules say. *)
Theorem categorize_story_sound story :
  let cat := categorize_story CATEGORIES story in
  (cat = "other" \/
   (is_thread_kind cat = true /\
    rule_applies (fst (assoc cat CATEGORIES ([], [])), []) story) \/
   (is_thread_kind cat = false /\
    exists rule, (cat, rule) ∈ CATEGORIES /\ rule_applies rule story)) /\
  ((exists kw, kw ∈ fst (assoc "show_hn" CATEGORIES ([], [])) /\
      PyStr.contains kw (PyStr.lower (st_title story)) = true) ->
   cat = "show_hn").
Proof.
  cbv zeta. unfold categorize_story. split.
  - destruct (existsb _ (fst (assoc "show_hn" _ _))) eqn:Hshow.
    { right. left. split; [done|]. left. by apply existsb_elem in Hshow. }
    destruct (existsb _ (fst (assoc "ask_hn" _ _))) eqn:Hask.
    { right. left. split; [done|]. left. by apply existsb_elem in Hask. }
    destruct (first_match _ _ _) as [k|] eqn:Hm; [|by left].
    right. right. by apply first_match_sound in Hm.
  - intros (kw & Hkw & Hc).
    assert (existsb (fun kw => PyStr.contains kw (PyStr.lower (st_title story)))
              (fst (assoc "show_hn" CATEGORIES ([], []))) = true) as ->; [|done].
    apply existsb_exists. exists kw. by rewrite <- list_elem_of_In.
Qed.

End ClassifierFacts.

End ConfigFacts.

(* --------------------------------------------------------------------- *)
(** *** The publisher: the rewrite of the main post *)
(* --------------------------------------------------------------------- *)

Module TelegramMore.
Import Telegram TelegramFacts.

(** The identifiers that the replies of a log were given, in order. *)
Definition reply_ids (cs : list Call) : list Z :=
  omap (fun c => match c with
                 | Posted _ (Some _) (Some i) => Some i
                 | _ => None
                 end) cs.

Lemma reply_ids_app a b : reply_ids (a ++ b) = reply_ids a ++ reply_ids b.
Proof. unfold reply_ids. apply omap_app. Qed.

Section Rewrite.
Variable World : Type.
Variable send_message : World -> string -> string -> string -> option Z -> option Z * World.
Variable edit_message_text : World -> string -> string -> Z -> string -> bool * World.

Abbreviation post_to_telegram := (post_to_telegram World send_message).
Abbreviation post_replies := (post_replies World send_message).
Abbreviation post_thread := (post_thread World send_message edit_message_text).
Abbreviation start := (start World).

(** The reply loop only posts, and it collects the identifiers of the
    replies in the order of the posts. *)
Lemma post_replies_log token chat main_id msgs : forall ids st,
  let r := post_replies token chat main_id msgs ids st in
  exists added,
    calls _ (snd r) = calls _ st ++ added /\
    Forall (fun c => is_edit c = false) added /\
    fst r = ids ++ reply_ids added.
Proof.
  induction msgs as [|m rest IH]; intros ids st; cbn [Telegram.post_replies]; cbv zeta.
  { exists []. by rewrite !app_nil_r. }
  rewrite (post_to_telegram_eq World send_message).
  set (o := fst (send_message (world _ st) token chat m (Some main_id))).
  set (w := snd (send_message (world _ st) token chat m (Some main_id))).
  match goal with |- context [Telegram.post_replies _ _ _ _ _ rest ?i ?s] =>
    destruct (IH i s) as (added & Hc & Hall & Hids) end.
  cbn [calls] in Hc.
  exists (Posted m (Some main_id) o :: added). split; [|split].
  - rewrite Hc. by rewrite <- app_assoc.
  - by constructor.
  - rewrite Hids. destruct o; cbn; [by rewrite <- app_assoc|done].
Qed.

(** X11: [post_thread] edits at most once, as its last request; the
    message edited is the main post, and the new text is what the callback
    makes of the main text, the categories and the identifiers of the
    replies posted, in the order of the posts; a text equal to the main
    text is not sent. *)
Theorem post_thread_edit_last token chat main replies reply_categories callback w :
  let r := post_thread token chat (main :: replies) reply_categories callback (start w) in
  exists posts,
    Forall (fun c => is_edit c = false) posts /\
    (calls _ (snd r) = posts \/
     exists main_id cats f ok,
       reply_categories = Some cats /\ callback = Some f /\
       head posts = Some (Posted main None (Some main_id)) /\
       f main cats (reply_ids posts) <> main /\
       calls _ (snd r) = posts ++ [Edited main_id (f main cats (reply_ids posts)) ok]).
Proof.
  cbv zeta. unfold Telegram.post_thread.
  rewrite (post_to_telegram_eq World send_message). cbn [Telegram.start world calls app].
  destruct (send_message w token chat main None) as [[main_id|] w1]; cbn [fst snd].
  2: { exists [Posted main None None]. split; [by repeat constructor|by left]. }
  destruct (post_replies_log token chat main_id replies []
              (mkSession World w1 [Posted main None (Some main_id)]))
    as (added & Hc & Hall & Hids).
  destruct (Telegram.post_replies _ _ _ _ _ _ _ _) as [ids st2]. cbn [fst snd calls] in *.
  exists (Posted main None (Some main_id) :: added).
  split; [by constructor|].
  assert (Hrep : reply_ids (Posted main None (Some main_id) :: added) = ids).
  { rewrite Hids. reflexivity. }
  destruct reply_categories as [cats|]; [|by left].
  destruct callback as [f|]; [|by left].
  destruct (_ && _); [|by left].
  destruct (negb _) eqn:Hneq; [|by left].
  right. unfold edit_message. destruct (edit_message_text _ _ _ _ _) as [ok w3].
  cbn [fst snd calls]. exists main_id, cats, f, ok. rewrite Hrep, Hc.
  repeat split; try done.
  apply negb_true_iff, String.eqb_neq in Hneq. done.
Qed.

(** The plain reply loop is the reply loop without its accumulator. *)
Lemma post_replies_plain_eq token chat main_id msgs : forall ids st,
  post_replies_plain World send_message token chat main_id msgs st
  = snd (post_replies token chat main_id msgs ids st).
Proof.
  induction msgs as [|m rest IH]; intros ids st;
    cbn [Telegram.post_replies Telegram.post_replies_plain]; [done|].
  rewrite (post_to_telegram_eq World send_message). cbn [snd].
  apply IH.
Qed.

(** X21: called without categories or without callback, [post_thread] of
    hndigest/telegram.py returns what [post_thread] of
    hn_digest/telegram.py returns and makes the same requests with the
    same outcomes. *)
Theorem post_thread_plain_agrees token chat messages st :
  (forall callback,
     post_thread token chat messages None callback st
     = post_thread_plain World send_message token chat messages st) /\
  (forall reply_categories,
     post_thread token chat messages reply_categories None st
     = post_thread_plain World send_message token chat messages st).
Proof.
  assert (H : forall cats callback, cats = None \/ callback = None ->
    post_thread token chat messages cats callback st
    = post_thread_plain World send_message token chat messages st).
  { intros cats callback Hnone.
    unfold Telegram.post_thread, Telegram.post_thread_plain.
    destruct messages as [|main replies]; [done|].
    destruct (Telegram.post_to_telegram _ _ _ _ _ _ _) as [[main_id|] st1]; [|done].
    rewrite (post_replies_plain_eq token chat main_id replies [] st1).
    destruct (Telegram.post_replies _ _ _ _ _ _ _ _) as [ids st2]. cbn [snd].
    destruct Hnone as [-> | ->]; [done|]. by destruct cats. }
  split; intros; apply H; tauto.
Qed.

End Rewrite.

End TelegramMore.

(* --------------------------------------------------------------------- *)
(** *** The enricher: what a run returns and what it writes *)
(* --------------------------------------------------------------------- *)

Module ProcessMore.
Import Config Process PyStr PyStrFacts ProcessFacts CacheFacts.

Section Results.
Variable md5_hexdigest : string -> string.
Variable VALID_CATEGORIES : list string.
Variable World : Type.
Variable generate : World -> string -> string -> Response * World.
Variable write_text : World -> string -> string -> WriteOutcome.

Abbreviation State := (State World).
Abbreviation valid_category := (valid_category VALID_CATEGORIES).
Abbreviation read_cache := (read_cache md5_hexdigest VALID_CATEGORIES).
Abbreviation cache_key := (cache_key md5_hexdigest).
Abbreviation _parse_result_line := (_parse_result_line VALID_CATEGORIES).
Abbreviation _parse_cache_line := (_parse_cache_line VALID_CATEGORIES).
Abbreviation parse_line := (parse_line md5_hexdigest VALID_CATEGORIES World write_text).
Abbreviation parse_response := (parse_response md5_hexdigest VALID_CATEGORIES World write_text).
Abbreviation attempt_loop :=
  (attempt_loop md5_hexdigest VALID_CATEGORIES World generate write_text).
Abbreviation process_stories :=
  (process_stories md5_hexdigest VALID_CATEGORIES World generate write_text).

Variable stories : list Story.
Variable contents : gmap Z string.
Variable channel : Channel.

(** A category that may be assigned: a valid one, or the default. *)
Definition assignable (r : StoryResult) : Prop :=
  valid_category (category r) = true \/ category r = "other".

(** What the loop over the response lines keeps: results for stories of
    the batch only, with assignable categories; files of other keys
    untouched; no file removed. *)
Definition kept (files : gmap string string)
  (acc : option (gmap Z StoryResult) * gmap string string) : Prop :=
  (forall results id r, fst acc = Some results -> results !! id = Some r ->
     id ∈ st_id <$> stories /\ assignable r) /\
  (forall key, key ∉ cache_key contents channel <$> stories -> snd acc !! key = files !! key) /\
  (forall key, is_Some (files !! key) -> is_Some (snd acc !! key)).

Lemma parse_result_line_assignable line num r :
  _parse_result_line line = Some (num, r) -> assignable r.
Proof.
  unfold Process._parse_result_line. destruct (negb _); [done|].
  destruct (split1 "." (strip line)) as [index [tail|]]; [|done].
  destruct (int (strip index)) as [n|]; [|done].
  intros [= <- <-]. unfold assignable. cbn [category].
  destruct (valid_category (_extract_field _ "category")) eqn:E; cbn [negb]; [by left|by right].
Qed.

Lemma parse_line_kept w files acc line :
  kept files acc -> kept files (parse_line w stories contents channel acc line).
Proof.
  destruct acc as [[results|] written]; intros (Hres & Hframe & Hmono);
    unfold Process.parse_line; cbn [fst snd] in *; [|done].
  destruct (Process._parse_result_line _ _) as [[num result]|] eqn:Hp; [|done].
  destruct (negb _); [done|].
  destruct (stories !! Z.to_nat num) as [story|] eqn:Hst; [|done].
  apply list_elem_of_lookup_2 in Hst. cbv zeta.
  assert (Hkey : forall key, key ∉ cache_key contents channel <$> stories ->
                   cache_key contents channel story <> key).
  { intros key Hkey <-. apply Hkey. by apply list_elem_of_fmap_2. }
  destruct (write_text _ _ _) as [|[residue|]]; cbn [write_file fst snd];
    (split; [|split]); cbn [fst snd].
  - intros ? id r [= <-]. destruct (decide (st_id story = id)) as [<-|E].
    + rewrite lookup_insert_eq. intros [= <-]. split; [by apply list_elem_of_fmap_2|].
      by eapply parse_result_line_assignable.
    + rewrite lookup_insert_ne by done. by apply Hres.
  - intros key Hk. rewrite lookup_insert_ne; [by apply Hframe|by apply Hkey].
  - intros key Hsome. destruct (decide (cache_key contents channel story = key)) as [<-|E].
    + rewrite lookup_insert_eq. by eexists.
    + rewrite lookup_insert_ne by done. by apply Hmono.
  - done.
  - intros key Hk. rewrite lookup_insert_ne; [by apply Hframe|by apply Hkey].
  - intros key Hsome. destruct (decide (cache_key contents channel story = key)) as [<-|E].
    + rewrite lookup_insert_eq. by eexists.
    + rewrite lookup_insert_ne by done. by apply Hmono.
  - done.
  - done.
  - done.
Qed.

Lemma parse_response_kept w files text :
  kept files (parse_response w stories contents channel files text).
Proof.
  unfold Process.parse_response.
  assert (H0 : kept files (Some ∅, files)).
  { split; [|split]; cbn [fst snd]; [|done..].
    intros ? id r [= <-] Hr. by rewrite lookup_empty in Hr. }
  revert H0. generalize (Some (∅ : gmap Z StoryResult), files).
  induction (split _ text) as [|line lines IH]; intros acc Hacc; [done|].
  simpl. apply IH. by apply parse_line_kept.
Qed.

Lemma read_cache_assignable files id r :
  read_cache files stories contents channel !! id = Some r ->
  id ∈ st_id <$> stories /\ assignable r.
Proof.
  rewrite (read_cache_foldl md5_hexdigest VALID_CATEGORIES).
  intros [H|(s & Hs & <- & Hr)]%read_step_origin; [by rewrite lookup_empty in H|].
  split; [by apply list_elem_of_fmap_2|].
  unfold entry in Hr. destruct (files !! _) as [text|]; [|done]. simpl in Hr.
  unfold Process._parse_cache_line in Hr.
  destruct (valid_category _) eqn:E; [|done]. injection Hr as <-. by left.
Qed.

(** What the loop of the attempts keeps. *)
Lemma attempt_loop_kept api_key prompt attempts : forall (st : State),
  let r := attempt_loop attempts api_key prompt stories contents channel st in
  kept (cache _ st) (fst r, cache _ (snd r)).
Proof.
  assert (Hnone : forall files, kept files (None, files)) by (intros files; by split).
  induction attempts as [|attempt rest IH]; intros st; cbn [Process.attempt_loop]; cbv zeta.
  { apply Hnone. }
  destruct (generate (world _ st) api_key prompt) as [[text|code|] w]; cbn [cache world log].
  - pose proof (parse_response_kept w (cache _ st) (strip text)) as H.
    by destruct (Process.parse_response _ _ _ _ _ _ _ _ _ _).
  - destruct (code =? 429)%Z; [|apply Hnone]. apply (IH (mkState _ _ _ _)).
  - apply Hnone.
Qed.

Lemma process_stories_kept api_key (st : State) :
  kept (cache _ st)
    (Some (fst (process_stories api_key stories contents channel st)),
     cache _ (snd (process_stories api_key stories contents channel st))).
Proof.
  assert (Hcached : forall m : gmap Z StoryResult,
            (forall id r, m !! id = Some r -> id ∈ st_id <$> stories /\ assignable r) ->
            kept (cache _ st) (Some m, cache _ st)).
  { intros m Hm. split; [|by split]. intros ? id r [= <-]. apply Hm. }
  unfold Process.process_stories. destruct (_ || _).
  { cbn [fst snd]. apply Hcached. intros id r Hr. by rewrite lookup_empty in Hr. }
  destruct (_ =? _)%nat.
  { cbn [fst snd]. apply Hcached. intros id r. apply read_cache_assignable. }
  pose proof (attempt_loop_kept api_key (_build_prompt stories contents channel)
                [0; 1; 2]%Z st) as H.
  cbv zeta in H.
  destruct (Process.attempt_loop _ _ _ _ _ _ _ _ _ _ _ _) as [[results|] st'];
    cbn [fst snd] in *; [done|].
  destruct H as (_ & Hframe & Hmono). split; [|by split].
  intros ? id r [= <-]. apply read_cache_assignable.
Qed.

(** X12: whatever the responses, every result that [process_stories]
    returns belongs to a story of the batch, and its category is a valid
    category or "other". *)
Theorem process_stories_results api_key (st : State) id r :
  fst (process_stories api_key stories contents channel st) !! id = Some r ->
  id ∈ st_id <$> stories /\
  (valid_category (category r) = true \/ category r = "other").
Proof. intros Hr. by eapply (process_stories_kept api_key st). Qed.

(** X13: a run writes only the cache files of the stories of its batch,
    and it removes no file. *)
Theorem process_stories_cache_frame api_key (st : State) key :
  (key ∉ cache_key contents channel <$> stories ->
   cache _ (snd (process_stories api_key stories contents channel st)) !! key
   = cache _ st !! key) /\
  (is_Some (cache _ st !! key) ->
   is_Some (cache _ (snd (process_stories api_key stories contents channel st)) !! key)).
Proof.
  destruct (process_stories_kept api_key st) as (_ & Hframe & Hmono).
  split; [apply Hframe|apply Hmono].
Qed.

End Results.

(** X14: the result of a response line, written to the cache and read
    back, is the same result with the white space around title and
    summary trimmed (provided "other" is a valid category). *)
Theorem cache_round_trip VALID_CATEGORIES line num r :
  Process.valid_category VALID_CATEGORIES "other" = true ->
  Process._parse_result_line VALID_CATEGORIES line = Some (num, r) ->
  Process._parse_cache_line VALID_CATEGORIES (strip (_serialize_result r))
  = Some (mkResult (category r) (is_top r) (strip (translation r)) (strip (summary r))).
Proof.
  intros Hother Hp. apply (parse_cache_line_serialize VALID_CATEGORIES).
  by eapply parse_result_line_well_formed.
Qed.

(** An instance of X14. *)
Lemma cache_round_trip_witness :
  Process._parse_cache_line PROMPT_CATEGORIES
    (strip (_serialize_result (mkResult "other" true " Reading Papers" "How to read")))
  = Some (mkResult "other" true "Reading Papers" "How to read").
Proof.
  apply (cache_round_trip PROMPT_CATEGORIES
           " 2. category=gossip, rank=top, title=' Reading Papers', summary=How to read" 1).
  - reflexivity.
  - vm_compute. reflexivity.
Defined.

(** An instance of X12: the run of [retry_scenario]. *)
Lemma process_stories_results_witness :
  (11%Z ∈ st_id <$> demo_stories) /\
  (Process.valid_category PROMPT_CATEGORIES "ai" = true \/ "ai" = "other").
Proof.
  apply (process_stories_results (fun s => s) PROMPT_CATEGORIES (list Response) scripted
           writable demo_stories ∅ demo_channel "key"
           (mkState _ ∅ [HttpStatusError 429; HttpStatusError 429;
              Generated "1. category=ai, rank=top, title=Engines, summary=About engines"] [])
           11%Z (mkResult "ai" true "Engines" "About engines")).
  vm_compute. reflexivity.
Defined.

End ProcessMore.

(* ===================================================================== *)
(** ** content.py: the text of the articles *)
(* ===================================================================== *)

Module Content.

Definition MAX_WORDS : nat := 3000.

Definition _truncate_words (text : string) (max_words : nat) : string :=
  let words := PyStr.split_ws text in
  if (length words <=? max_words)%nat then text
  else String.concat " " (firstn max_words words).

Section Fetch.

(** [hashlib.md5(url.encode()).hexdigest()] *)
Variable md5_hexdigest : string -> string.
(** [trafilatura.extract]: [None] when it finds no text. *)
Variable extract : string -> option string.
(** [session.get(url, ...)] with [raise_for_status]: the text of the page,
    or [None] for an exception. *)
Variable World : Type.
Variable download : World -> string -> option string * World.

(** The files of [CONTENT_CACHE_DIR], the network, the URLs requested.
    A file is read with [read_text], which gives every line end as a line
    feed. *)
Record Store := mkStore {
  files : gmap string string;
  net : World;
  requested : list string
}.

Definition _cache_path (url : string) : string := md5_hexdigest url +:+ ".txt".

Definition _fetch_one (url : string) (st : Store) : string * Store :=
  match files st !! _cache_path url with
  | Some text => (PyStr.universal_newlines text, st)
  | None =>
      let '(page, w) := download (net st) url in
      let text :=
        match page with
        | Some html =>
            match extract html with
            | Some extracted =>
                if negb (String.eqb extracted "") then _truncate_words extracted MAX_WORDS
                else ""
            | None => ""
            end
        | None => ""
        end in
      (text, mkStore (<[_cache_path url := text]> (files st)) w (requested st ++ [url]))
  end.

End Fetch.

End Content.

Example split_ws_ex :
  PyStr.split_ws "  the quick  brown fox " = ["the"; "quick"; "brown"; "fox"].
Proof. vm_compute. reflexivity. Qed.

(** U+00A0 separates words as a blank does. *)
Example truncate_ex :
  Content._truncate_words ("  the" +:+ Formatter.nbsp +:+ "quick  brown fox ") 2 = "the quick".
Proof. vm_compute. reflexivity. Qed.

Module ContentFacts.
Import Content PyStr PyStrFacts.

(** The first word of a list of characters and what follows it. *)
Fixpoint word_of (l : list string) : list string :=
  match l with
  | [] => []
  | ch :: r => if isspace ch then [] else ch :: word_of r
  end.

Fixpoint after_word (l : list string) : list string :=
  match l with
  | [] => []
  | ch :: r => if isspace ch then l else after_word r
  end.

Lemma word_of_after l : l = word_of l ++ after_word l.
Proof.
  induction l as [|ch r IH]; [done|]. cbn [word_of after_word].
  destruct (isspace ch); [done|]. cbn [app]. by rewrite <- IH.
Qed.

Lemma word_of_no_space l : forallb (fun ch => negb (isspace ch)) (word_of l) = true.
Proof.
  induction l as [|ch r IH]; [done|]. cbn [word_of].
  destruct (isspace ch) eqn:E; [done|]. cbn [forallb]. by rewrite E, IH.
Qed.

Lemma after_word_length l : (length (after_word l) <= length l)%nat.
Proof.
  induction l as [|ch r IH]; [done|]. cbn [after_word].
  destruct (isspace ch); cbn [length]; lia.
Qed.

Lemma after_word_start l : starts_cont (join (after_word l)) = false.
Proof.
  induction l as [|ch r IH]; [done|]. cbn [after_word].
  destruct (isspace ch) eqn:E; [|done].
  rewrite join_cons. pose proof (isspace_start ch E) as H.
  destruct ch as [|c ch]; [done|]. by rewrite append_cons.
Qed.

Lemma words_eq ch r :
  words (ch :: r) =
  if isspace ch then words r
  else match r with
       | [] => [ch]
       | d :: _ =>
           if isspace d then ch :: words r
           else match words r with
                | h :: t => (ch +:+ h) :: t
                | [] => [ch]
                end
       end.
Proof. reflexivity. Qed.

Lemma words_cons ch r :
  isspace ch = false ->
  words (ch :: r) = join (word_of (ch :: r)) :: words (after_word (ch :: r)).
Proof.
  revert ch. induction r as [|d r IH]; intros ch Hch.
  - rewrite words_eq. cbn [word_of after_word]. rewrite Hch. cbn [join fold_right].
    by rewrite append_nil_r.
  - rewrite words_eq, Hch. cbn [word_of after_word]. rewrite Hch.
    destruct (isspace d) eqn:Hd.
    + cbn [join fold_right]. by rewrite append_nil_r.
    + rewrite (IH d Hd). cbn [word_of after_word]. rewrite Hd. by rewrite join_cons.
Qed.

(** A word: some characters, none of them white space. *)
Definition is_word (w : string) : Prop :=
  chars w <> [] /\ forallb (fun ch => negb (isspace ch)) (chars w) = true.

Lemma words_of_word cs rest :
  cs <> [] -> forallb (fun ch => negb (isspace ch)) cs = true ->
  (rest = [] \/ exists d r, rest = d :: r /\ isspace d = true) ->
  words (cs ++ rest) = join cs :: words rest.
Proof.
  intros Hne Hcs Hrest.
  assert (Hw : word_of (cs ++ rest) = cs /\ after_word (cs ++ rest) = rest).
  { clear Hne. induction cs as [|c cs IH].
    - destruct Hrest as [->|(d & r & -> & Hd)]; [done|].
      cbn [app word_of after_word]. by rewrite Hd.
    - cbn [forallb] in Hcs. apply andb_prop in Hcs as [Hc Hcs].
      apply negb_true_iff in Hc. cbn [app word_of after_word]. rewrite Hc.
      destruct (IH Hcs) as [-> ->]. done. }
  destruct cs as [|c cs]; [done|]. cbn [forallb] in Hcs.
  apply andb_prop in Hcs as [Hc _]. apply negb_true_iff in Hc.
  cbn [app]. rewrite words_cons by done. cbn [app] in Hw. by destruct Hw as [-> ->].
Qed.

Lemma split_ws_word_app w rest :
  is_word w -> split_ws (w +:+ String " " rest) = w :: split_ws rest.
Proof.
  intros [Hne Hw]. unfold split_ws.
  rewrite chars_app by done. rewrite (chars_ascii " ") by done.
  rewrite words_of_word; [|done|done|right; by eexists _, _].
  rewrite join_chars. f_equal.
Qed.

Lemma split_ws_word w : is_word w -> split_ws w = [w].
Proof.
  intros [Hne Hw]. unfold split_ws.
  rewrite <- (app_nil_r (chars w)), words_of_word; [|done|done|by left].
  by rewrite join_chars.
Qed.

(** Joining words with single blanks and splitting again gives the words. *)
Lemma split_ws_join ws : Forall is_word ws -> split_ws (String.concat " " ws) = ws.
Proof.
  induction 1 as [|w ws Hw Hws IH]; [done|].
  destruct ws as [|w' ws']; [by apply split_ws_word|].
  change (String.concat " " (w :: w' :: ws'))
    with (w +:+ String " " (String.concat " " (w' :: ws'))).
  by rewrite split_ws_word_app, IH.
Qed.

(** The words of a text are words. *)
Lemma words_are_words l : chars (join l) = l -> Forall is_word (words l).
Proof.
  remember (length l) as n eqn:Hn. revert l Hn.
  induction n as [n IH] using lt_wf_ind. intros l -> Hl.
  destruct l as [|ch r]; [constructor|].
  destruct (isspace ch) eqn:Hch.
  - rewrite words_eq, Hch. apply (IH (length r)); [simpl; lia|done|].
    by apply chars_join_tail in Hl.
  - rewrite words_cons by done.
    set (c := word_of (ch :: r)). set (rest := after_word (ch :: r)).
    assert (Hsplit : ch :: r = c ++ rest) by apply word_of_after.
    assert (Hrest : chars (join rest) = rest).
    { apply (chars_join_suffix c). by rewrite <- Hsplit. }
    assert (Hc : chars (join c) = c).
    { rewrite Hsplit, join_app, chars_app, Hrest in Hl by apply after_word_start.
      by apply app_inv_tail in Hl. }
    constructor.
    + unfold is_word. rewrite Hc. split; [|apply word_of_no_space].
      unfold c. cbn [word_of]. by rewrite Hch.
    + apply (IH (length rest)); [|done|done].
      assert (length (ch :: r) = length c + length rest)%nat
        by (rewrite Hsplit at 1; apply length_app).
      assert (0 < length c)%nat; [|lia].
      unfold c. cbn [word_of]. rewrite Hch. simpl. lia.
Qed.

Lemma split_ws_words s : Forall is_word (split_ws s).
Proof. apply words_are_words. by rewrite join_chars. Qed.

Lemma truncate_words_split text max_words :
  split_ws (_truncate_words text max_words) = firstn max_words (split_ws text).
Proof.
  unfold _truncate_words. destruct (_ <=? _)%nat eqn:E.
  - apply Nat.leb_le in E. by rewrite firstn_all2.
  - apply split_ws_join. apply Forall_take, split_ws_words.
Qed.

(** X15: [_truncate_words] returns a text whose words are the first
    [max_words] words of the given text; a text that has no more words
    than that is returned as it is; and truncating twice changes nothing
    more. *)
Theorem truncate_words_spec text max_words :
  split_ws (_truncate_words text max_words) = firstn max_words (split_ws text) /\
  ((length (split_ws text) <= max_words)%nat -> _truncate_words text max_words = text) /\
  _truncate_words (_truncate_words text max_words) max_words = _truncate_words text max_words.
Proof.
  split; [apply truncate_words_split|]. split.
  - intros H. unfold _truncate_words. apply Nat.leb_le in H. by rewrite H.
  - unfold _truncate_words at 1. rewrite truncate_words_split, length_firstn.
    destruct (_ <=? _)%nat eqn:E; [done|]. apply Nat.leb_gt in E. lia.
Qed.

(** A text read from a file has no carriage return. *)
Lemma universal_newlines_clean s :
  mem_char (ascii_of_N 13) (universal_newlines s) = false.
Proof.
  remember (String.length s) as n eqn:Hn. revert s Hn.
  induction n as [n IH] using lt_wf_ind. intros s ->.
  destruct s as [|c s]; [done|]. cbn [universal_newlines].
  destruct (Ascii.eqb c (ascii_of_N 13)) eqn:Hc.
  - cbn [mem_char]. destruct s as [|d s']; [done|].
    destruct (Ascii.eqb d (ascii_of_N 10));
      [apply (IH (String.length s'))|apply (IH (String.length (String d s')))];
      simpl; (lia || done).
  - cbn [mem_char]. rewrite Ascii.eqb_sym, Hc. apply (IH (String.length s)); [simpl; lia|done].
Qed.

Section FetchFacts.
Variable md5_hexdigest : string -> string.
Variable extract : string -> option string.
Variable World : Type.
Variable download : World -> string -> option string * World.

Abbreviation _fetch_one := (_fetch_one md5_hexdigest extract World download).
Abbreviation _cache_path := (_cache_path md5_hexdigest).


End FetchFacts.

End ContentFacts.
(* ===================================================================== *)
(** ** cli.py: from the fetched stories to the digest *)
(* ===================================================================== *)

Module Cli.
Import Config Process.

(** The loop over [show_selected + ask_selected], with the list [top] and
    the set [existing_ids] it updates. *)
Fixpoint merge_loop (existing_ids : gset Z) (top extra : list Story) : list Story :=
  match extra with
  | [] => top
  | s :: rest =>
      if decide (st_id s ∈ existing_ids) then merge_loop existing_ids top rest
      else merge_loop ({[st_id s]} ∪ existing_ids) (top ++ [s]) rest
  end.

Definition merge_selected (top show_selected ask_selected : list Story) : list Story :=
  merge_loop (list_to_set (map st_id top)) top (show_selected ++ ask_selected).

Definition with_category (s : Story) (cat : string) (top : bool) : Story :=
  mkStory (st_id s) (st_title s) (st_url s) (st_points s) (st_comments s)
    (st_score s) (st_domain s) cat top.

(** The dictionary [titles] of the branch with an API key: the
    comprehension over the stories that have a result, then the loop that
    fills in the others. *)
Definition titles_of (results : gmap Z StoryResult) (top : list Story) : gmap Z string :=
  let translated :=
    foldl (fun m s => match results !! st_id s with
                      | Some r => <[st_id s := translation r]> m
                      | None => m
                      end) ∅ top in
  foldl (fun m s => match m !! st_id s with
                    | Some _ => m
                    | None => <[st_id s := st_title s]> m
                    end) translated top.

Definition summaries_of (results : gmap Z StoryResult) (top : list Story) : gmap Z string :=
  let summarized :=
    foldl (fun m s => match results !! st_id s with
                      | Some r => <[st_id s := summary r]> m
                      | None => m
                      end) ∅ top in
  foldl (fun m s => match m !! st_id s with
                    | Some _ => m
                    | None => <[st_id s := ""]> m
                    end) summarized top.

Section Digest.
Variable CATEGORIES : list (string * (list string * list string)).
Variable netloc : string -> string.
Variable md5_hexdigest : string -> string.
Variable VALID_CATEGORIES : list string.
Variable World : Type.
Variable generate : World -> string -> string -> Response * World.
Variable write_text : World -> string -> string -> WriteOutcome.
Variable SearchWorld : Type.
Variable search : SearchWorld -> HnFetch.Query -> HnFetch.SearchResponse * SearchWorld.
(** [fetch_articles], which runs [_fetch_one] in a pool of threads: the
    contents it returned for the selected stories. *)
Variable fetch_articles : list Story -> gmap Z string.

(** The body of the loop over [top] in the branch with an API key. *)
Definition annotate (results : gmap Z StoryResult) (s : Story) : Story :=
  match results !! st_id s with
  | Some r =>
      let title_lower := PyStr.lower (st_title s) in
      let cat :=
        if PyStr.startswith "show hn" title_lower then "show_hn"
        else if PyStr.startswith "ask hn" title_lower then "ask_hn"
        else category r in
      with_category s cat (is_top r)
  | None => with_category s (categorize_story CATEGORIES s) false
  end.

(** The body of the loop over [top] in the branch without API key. *)
Definition annotate_plain (s : Story) : Story :=
  with_category s (categorize_story CATEGORIES s) false.

(** The stories of the digest: the selection of the ordinary stories and
    the two best of each thread kind. *)
Definition selected (channel : Channel) (stories show_hn ask_hn : list Story) : list Story :=
  merge_selected (Hn.select_stories netloc stories (limit channel))
    (Hn.select_stories netloc show_hn 2) (Hn.select_stories netloc ask_hn 2).

(** [generate_digest]; [since] holds the three time stamps of
    [now - channel.days] that the calls of [fetch_stories] compute.
    [fetch_stories] and [select_stories] are those of hndigest/hn.py. *)
Definition generate_digest (channel : Channel) (clock : Formatter.Clock)
  (since : Z * Z * Z) (api_key : string)
  (fs : HnFetch.FetchState SearchWorld) (st : State World)
  : list string * HnFetch.FetchState SearchWorld * State World :=
  let '(since1, since2, since3) := since in
  let '(stories, fs1) :=
    HnFetch.fetch_stories SearchWorld search since1 (min_points channel) "story" fs in
  let '(show_hn, fs2) := HnFetch.fetch_stories SearchWorld search since2 30 "show_hn" fs1 in
  let '(ask_hn, fs3) := HnFetch.fetch_stories SearchWorld search since3 30 "ask_hn" fs2 in
  let top := selected channel stories show_hn ask_hn in
  let article_contents := fetch_articles top in
  if negb (String.eqb api_key "") then
    let '(results, st') :=
      process_stories md5_hexdigest VALID_CATEGORIES World generate write_text
        api_key top article_contents channel st in
    (Formatter.format_digest CATEGORIES channel clock (map (annotate results) top)
       (titles_of results top) (Some (summaries_of results top)), fs3, st')
  else
    (Formatter.format_digest CATEGORIES channel clock (map annotate_plain top)
       (foldl (fun m s => <[st_id s := st_title s]> m) ∅ top)
       (Some (foldl (fun m s => <[st_id s := ""]> m) ∅ top)), fs3, st).

End Digest.

End Cli.

Module CliFacts.
Import Config Process Cli.

Lemma merge_loop_spec extra : forall (existing : gset Z) top,
  (forall id, id ∈ existing <-> id ∈ st_id <$> top) ->
  exists added,
    merge_loop existing top extra = top ++ added /\
    added `sublist_of` extra /\
    NoDup (st_id <$> added) /\
    (forall s, s ∈ added -> st_id s ∉ st_id <$> top) /\
    (forall s, s ∈ extra -> st_id s ∈ st_id <$> (top ++ added)).
Proof.
  induction extra as [|s rest IH]; intros existing top Hex; cbn [merge_loop].
  { exists []. rewrite app_nil_r. repeat split; try done; try constructor.
    - intros s Hs. by apply elem_of_nil in Hs.
    - intros s Hs. by apply elem_of_nil in Hs. }
  destruct (decide (st_id s ∈ existing)) as [Hin|Hnin].
  - destruct (IH existing top Hex) as (added & Heq & Hsub & Hnd & Hfresh & Hall).
    exists added. split; [done|]. split; [by constructor|]. split; [done|]. split; [done|].
    intros s' [->|Hs']%elem_of_cons; [|by apply Hall].
    rewrite fmap_app, elem_of_app. left. by apply Hex.
  - destruct (IH ({[st_id s]} ∪ existing) (top ++ [s])) as (added & Heq & Hsub & Hnd & Hfresh & Hall).
    { intros id. rewrite fmap_app, elem_of_app, elem_of_union, elem_of_singleton, Hex.
      simpl. rewrite list_elem_of_singleton. tauto. }
    exists (s :: added). rewrite Heq, <- app_assoc. split; [done|].
    split; [by constructor|]. split; [|split].
    + rewrite fmap_cons. apply NoDup_cons. split; [|done].
      intros (s' & Hid & Hs')%list_elem_of_fmap. apply (Hfresh s' Hs').
      rewrite fmap_app, elem_of_app. right. rewrite <- Hid. simpl. by left.
    + intros s' [->|Hs']%elem_of_cons.
      * intros H. apply Hnin. by apply Hex.
      * intros H. apply (Hfresh s' Hs'). rewrite fmap_app, elem_of_app. by left.
    + intros s' [->|Hs']%elem_of_cons.
      * rewrite fmap_app, elem_of_app. right. rewrite fmap_cons. by left.
      * specialize (Hall s' Hs'). by rewrite <- app_assoc in Hall.
Qed.

Lemma merge_selected_spec top show_selected ask_selected :
  exists added,
    merge_selected top show_selected ask_selected = top ++ added /\
    added `sublist_of` (show_selected ++ ask_selected) /\
    NoDup (st_id <$> added) /\
    (forall s, s ∈ added -> st_id s ∉ st_id <$> top) /\
    (forall s, s ∈ show_selected ++ ask_selected -> st_id s ∈ st_id <$> (top ++ added)).
Proof.
  unfold merge_selected.
  apply (merge_loop_spec (show_selected ++ ask_selected) (list_to_set (map st_id top)) top).
  intros id. by rewrite elem_of_list_to_set.
Qed.

(** X17: the stories of the two thread kinds are added after the selected
    stories, in their order, each id once and none that the selection
    already has; nothing of the selection is replaced, and the id of every
    thread-kind story is in the merged list. *)
Theorem merge_selected_additive top show_selected ask_selected :
  exists added,
    merge_selected top show_selected ask_selected = top ++ added /\
    added `sublist_of` (show_selected ++ ask_selected) /\
    NoDup (st_id <$> added) /\
    (forall s, s ∈ added -> st_id s ∉ st_id <$> top) /\
    (forall s, s ∈ show_selected ++ ask_selected ->
       st_id s ∈ st_id <$> merge_selected top show_selected ask_selected).
Proof.
  destruct (merge_selected_spec top show_selected ask_selected)
    as (added & Heq & Hsub & Hnd & Hfresh & Hall).
  exists added. rewrite Heq. done.
Qed.

Section Fill.
Variables (value : StoryResult -> string) (dflt : Story -> string).
Variable results : gmap Z StoryResult.

Definition take_results (m : gmap Z string) (s : Story) : gmap Z string :=
  match results !! st_id s with
  | Some r => <[st_id s := value r]> m
  | None => m
  end.

Definition fill_default (m : gmap Z string) (s : Story) : gmap Z string :=
  match m !! st_id s with
  | Some _ => m
  | None => <[st_id s := dflt s]> m
  end.

Lemma take_results_step m s id :
  take_results m s !! id
  = match results !! id with
    | Some r => if decide (id = st_id s) then Some (value r) else m !! id
    | None => m !! id
    end.
Proof.
  unfold take_results. destruct (decide (id = st_id s)) as [->|Hne].
  - destruct (results !! st_id s) as [r|]; [|done]. apply lookup_insert_eq.
  - destruct (results !! st_id s) as [r'|].
    + rewrite lookup_insert_ne by done. by destruct (results !! id).
    + by destruct (results !! id).
Qed.

Lemma take_results_lookup l : forall m id,
  foldl take_results m l !! id
  = match results !! id with
    | Some r => if decide (id ∈ st_id <$> l) then Some (value r) else m !! id
    | None => m !! id
    end.
Proof.
  induction l as [|s l IH]; intros m id; cbn [foldl].
  { destruct (results !! id); [|done]. by rewrite decide_False by apply not_elem_of_nil. }
  rewrite IH, take_results_step. rewrite fmap_cons.
  destruct (results !! id) as [r|]; [|done].
  destruct (decide (id ∈ st_id <$> l)) as [Hin|Hnin].
  - rewrite decide_True; [done|]. by right.
  - destruct (decide (id = st_id s)) as [->|Hne].
    + rewrite decide_True; [done|]. by left.
    + rewrite decide_False; [done|]. rewrite not_elem_of_cons. done.
Qed.

Lemma fill_default_spec l : forall m,
  (forall id v, m !! id = Some v -> foldl fill_default m l !! id = Some v) /\
  (forall s, s ∈ l -> is_Some (foldl fill_default m l !! st_id s)) /\
  (forall id v, foldl fill_default m l !! id = Some v ->
     m !! id = Some v \/ exists s, s ∈ l /\ st_id s = id /\ v = dflt s).
Proof.
  induction l as [|s l IH]; intros m; cbn [foldl].
  { split; [done|]. split; [by intros s ?%elem_of_nil|by left]. }
  destruct (IH (fill_default m s)) as (Hkeep & Hall & Horigin).
  assert (Hstep : forall id v, m !! id = Some v -> fill_default m s !! id = Some v).
  { intros id v Hv. unfold fill_default. destruct (m !! st_id s) eqn:E; [done|].
    rewrite lookup_insert_ne; [done|]. intros <-. congruence. }
  split; [|split].
  - intros id v Hv. by apply Hkeep, Hstep.
  - intros s' [->|Hs']%elem_of_cons; [|by apply Hall].
    assert (is_Some (fill_default m s !! st_id s)) as [v Hv].
    { unfold fill_default. destruct (m !! st_id s) as [v|] eqn:E.
      - by exists v.
      - exists (dflt s). apply lookup_insert_eq. }
    exists v. by apply Hkeep.
  - intros id v Hv. apply Horigin in Hv as [Hv|(s' & Hs' & Hid & ->)].
    + unfold fill_default in Hv. destruct (m !! st_id s) eqn:E; [by left|].
      destruct (decide (st_id s = id)) as [<-|Hne].
      * rewrite lookup_insert_eq in Hv. injection Hv as <-. right. exists s.
        split; [by left|done].
      * rewrite lookup_insert_ne in Hv by done. by left.
    + right. exists s'. split; [by right|done].
Qed.

(** The dictionary after the comprehension and the loop. *)
Definition filled (top : list Story) : gmap Z string :=
  foldl fill_default (foldl take_results ∅ top) top.

Lemma filled_spec top s :
  s ∈ top ->
  match results !! st_id s with
  | Some r => filled top !! st_id s = Some (value r)
  | None => exists s', s' ∈ top /\ st_id s' = st_id s /\ filled top !! st_id s = Some (dflt s')
  end.
Proof.
  intros Hs. unfold filled.
  destruct (fill_default_spec top (foldl take_results ∅ top)) as (Hkeep & Hall & Horigin).
  destruct (results !! st_id s) as [r|] eqn:Hr.
  - apply Hkeep. rewrite take_results_lookup, Hr.
    rewrite decide_True; [done|]. by apply list_elem_of_fmap_2.
  - destruct (Hall s Hs) as [v Hv]. destruct (Horigin _ _ Hv) as [H|(s' & Hs' & Hid & ->)].
    + rewrite take_results_lookup, Hr, lookup_empty in H. done.
    + by exists s'.
Qed.

End Fill.

(** X18: in the branch with an API key, every story of the digest gets a
    title and a summary: the translation and the summary of its result
    when it has one, otherwise the empty summary and the original title
    of a story of that id. *)
Theorem titles_and_summaries results top s :
  s ∈ top ->
  match results !! st_id s with
  | Some r =>
      titles_of results top !! st_id s = Some (translation r) /\
      summaries_of results top !! st_id s = Some (summary r)
  | None =>
      summaries_of results top !! st_id s = Some "" /\
      exists s', s' ∈ top /\ st_id s' = st_id s /\
        titles_of results top !! st_id s = Some (st_title s')
  end.
Proof.
  intros Hs.
  pose proof (filled_spec translation st_title results top s Hs) as Ht.
  pose proof (filled_spec summary (fun _ => "") results top s Hs) as Hsum.
  change (filled translation st_title results top) with (titles_of results top) in Ht.
  change (filled summary (fun _ => "") results top) with (summaries_of results top) in Hsum.
  destruct (results !! st_id s) as [r|]; [done|].
  destruct Hsum as (s' & _ & _ & Hsum). done.
Qed.

(** An instance of X18: the first of two stories has a result, the second
    has none. *)
Lemma titles_and_summaries_witness :
  titles_of {[ 11%Z := mkResult "data" true "Engines" "About engines" ]}
    ProcessFacts.demo_stories !! 11%Z = Some "Engines" /\
  summaries_of {[ 11%Z := mkResult "data" true "Engines" "About engines" ]}
    ProcessFacts.demo_stories !! 11%Z = Some "About engines".
Proof.
  exact (titles_and_summaries
           {[ 11%Z := mkResult "data" true "Engines" "About engines" ]}
           ProcessFacts.demo_stories
           (fetched 11 "A new kind of database engine" "https://a.example/db" 100 5)
           ltac:(by left)).
Defined.

(** A dictionary comprehension [{s["id"]: f(s) for s in top}]. *)
Lemma comprehension_lookup (f : Story -> string) (top : list Story) s :
  s ∈ top ->
  exists s', s' ∈ top /\ st_id s' = st_id s /\
    foldl (fun m s => <[st_id s := f s]> m) (∅ : gmap Z string) top !! st_id s = Some (f s').
Proof.
  induction top as [|x l IH] using rev_ind; [by intros ?%elem_of_nil|].
  rewrite foldl_app. cbn [foldl]. intros Hs.
  destruct (decide (st_id x = st_id s)) as [Hid|Hne].
  - exists x. split; [apply elem_of_app; right; by left|]. split; [done|].
    rewrite <- Hid. apply lookup_insert_eq.
  - apply elem_of_app in Hs as [Hs|Hs%list_elem_of_singleton]; [|congruence].
    destruct (IH Hs) as (s' & Hs' & Hid & Hv). exists s'.
    split; [apply elem_of_app; by left|]. split; [done|].
    by rewrite lookup_insert_ne.
Qed.

Lemma comprehension_fresh (f : Story -> string) (top : list Story) id :
  id ∉ st_id <$> top ->
  foldl (fun m s => <[st_id s := f s]> m) (∅ : gmap Z string) top !! id = None.
Proof.
  induction top as [|x l IH] using rev_ind; [done|].
  rewrite foldl_app, fmap_app. cbn [foldl]. intros Hid.
  rewrite lookup_insert_ne.
  - apply IH. intros H. apply Hid, elem_of_app. by left.
  - intros <-. apply Hid, elem_of_app. right. cbn. left.
Qed.

Section DigestFacts.
Variable CATEGORIES : list (string * (list string * list string)).
Variable netloc : string -> string.
Variable md5_hexdigest : string -> string.
Variable VALID_CATEGORIES : list string.
Variable World : Type.
Variable generate : World -> string -> string -> Response * World.
Variable write_text : World -> string -> string -> WriteOutcome.
Variable SearchWorld : Type.
Variable search : SearchWorld -> HnFetch.Query -> HnFetch.SearchResponse * SearchWorld.
Variable fetch_articles : list Story -> gmap Z string.

Abbreviation selected := (selected netloc).
Abbreviation annotate_plain := (annotate_plain CATEGORIES).
Abbreviation fetch_stories := (HnFetch.fetch_stories SearchWorld search).
Abbreviation generate_digest :=
  (generate_digest CATEGORIES netloc md5_hexdigest VALID_CATEGORIES World generate write_text
     SearchWorld search fetch_articles).

(** X19: with a positive limit, the digest is made of at most [limit]
    stories plus four of the thread kinds, and the selected ordinary
    stories come first. *)
Theorem selected_size channel stories show_hn ask_hn :
  (0 < limit channel)%Z ->
  (Z.of_nat (length (selected channel stories show_hn ask_hn)) <= limit channel + 4)%Z /\
  Hn.select_stories netloc stories (limit channel)
  `prefix_of` selected channel stories show_hn ask_hn.
Proof.
  intros Hlim. unfold Cli.selected.
  destruct (merge_selected_spec (Hn.select_stories netloc stories (limit channel))
              (Hn.select_stories netloc show_hn 2) (Hn.select_stories netloc ask_hn 2))
    as (added & -> & Hsub & _).
  split; [|by eexists].
  apply sublist_length in Hsub. rewrite length_app in Hsub |- *.
  pose proof (HnFacts.select_stories_length_pos netloc stories (limit channel) Hlim).
  pose proof (HnFacts.select_stories_length_pos netloc show_hn 2 ltac:(lia)).
  pose proof (HnFacts.select_stories_length_pos netloc ask_hn 2 ltac:(lia)).
  lia.
Qed.

(** X20: without API key, [generate_digest] makes no request to the
    generation API and leaves the cache alone; it fetches the stories,
    the Show HN and the Ask HN threads in this order, and the digest is
    the one that [format_digest] makes of the selected stories, each not
    flagged top and with the category of the keyword classifier, with the
    title of a selected story of its id and the empty summary; the top
    section of its main post is made of the first ten of these stories. *)
Theorem generate_digest_without_key channel clock since1 since2 since3 fs st :
  let r := generate_digest channel clock (since1, since2, since3) "" fs st in
  let f1 := fetch_stories since1 (min_points channel) "story" fs in
  let f2 := fetch_stories since2 30 "show_hn" (snd f1) in
  let f3 := fetch_stories since3 30 "ask_hn" (snd f2) in
  let top := selected channel (fst f1) (fst f2) (fst f3) in
  let plain := map (fun s => with_category s (categorize_story CATEGORIES s) false) top in
  let titles := foldl (fun m s => <[st_id s := st_title s]> m) (∅ : gmap Z string) top in
  let summaries := foldl (fun m s => <[st_id s := ""]> m) (∅ : gmap Z string) top in
  r = (Formatter.format_digest CATEGORIES channel clock plain titles (Some summaries),
       snd f3, st) /\
  (forall s, s ∈ top ->
     (exists s', s' ∈ top /\ st_id s' = st_id s /\ titles !! st_id s = Some (st_title s')) /\
     summaries !! st_id s = Some "") /\
  (forall id, id ∉ st_id <$> top -> titles !! id = None /\ summaries !! id = None) /\
  fst (fst r) !! 0%nat
  = Some (Formatter.main_message channel clock titles summaries (firstn 10 plain)).
Proof.
  cbv zeta. unfold Cli.generate_digest.
  destruct (fetch_stories since1 _ _ _) as [stories fs1]. cbn [fst snd].
  destruct (fetch_stories since2 _ _ _) as [show_hn fs2]. cbn [fst snd].
  destruct (fetch_stories since3 _ _ _) as [ask_hn fs3].
  cbn [negb String.eqb fst snd].
  set (top := selected channel stories show_hn ask_hn).
  split; [done|]. split; [|split].
  - intros s Hs. split.
    + exact (comprehension_lookup st_title top s Hs).
    + destruct (comprehension_lookup (fun _ => "") top s Hs) as (s0 & _ & _ & Hv).
      exact Hv.
  - intros id Hid. split; by apply comprehension_fresh.
  - rewrite FormatterFacts.format_digest_messages. cbn [lookup list_lookup default].
    do 2 f_equal. apply FormatterFacts.top_stories_fallback.
    induction top as [|s l IH]; [done|]. simpl. exact IH.
Qed.

End DigestFacts.

(** An instance of X19: three stories selected of six, no thread-kind
    stories, and a limit of fifty. *)
Lemma selected_size_witness :
  (Z.of_nat (length (selected Urllib.netloc ProcessFacts.demo_channel HnOrder.sample [] []))
   <= limit ProcessFacts.demo_channel + 4)%Z /\
  Hn.select_stories Urllib.netloc HnOrder.sample (limit ProcessFacts.demo_channel)
  `prefix_of` selected Urllib.netloc ProcessFacts.demo_channel HnOrder.sample [] [].
Proof.
  apply (selected_size Urllib.netloc ProcessFacts.demo_channel HnOrder.sample [] []).
  vm_compute. reflexivity.
Defined.

End CliFacts.

(* ===================================================================== *)
(** ** hndigest/categorize.py: categories and ranks in one request *)
(* ===================================================================== *)

Module Categorize.
Import Process.

(** [CATEGORIZE_PROMPT.format(stories=...)] *)
Definition CATEGORIZE_PROMPT (stories : string) : string :=
  String.concat PyStr.nl
    ["You are a Hacker News editor curating a weekly digest.";
     "";
     "1. Categorize each story into ONE category:";
     "   ai, dev, ops, data, science, security, tech, career, culture";
     "   (Do NOT assign show_hn or ask_hn — those are detected separately)";
     "";
     "2. Mark the 10 most interesting stories as " +:+ PyStr.dquote +:+ "top" +:+ PyStr.dquote +:+ ":";
     "   - Genuinely novel, important, or thought-provoking";
     "   - NOT just highest points — a brilliant technical post beats routine drama";
     "   - Prefer diversity: don't put 10 AI stories in top";
     "";
     "Category guide:";
     "- ai: AI/ML, LLMs, autonomous vehicles, neural networks, robotics";
     "- dev: Programming languages, compilers, algorithms, software architecture, WebAssembly";
     "- ops: Linux, Docker, Kubernetes, databases, serverless, sysadmin, hardware";
     "- data: Data engineering, analytics, visualization, spreadsheets, big data";
     "- science: Physics, space, biology, climate, mathematics, energy";
     "- security: Vulnerabilities, breaches, malware, privacy, encryption, CVEs";
     "- tech: Startups, VC, antitrust, Big Tech, regulations, policy";
     "- career: Remote work, hiring, burnout, productivity, salaries";
     "- culture: History, urbanism, philosophy, gaming, typography, design, copyright, digital rights";
     "";
     "Stories:";
     stories;
     "";
     "Return EXACTLY one line per story:";
     "1. category=ai, rank=top";
     "2. category=dev, rank=regular";
     "..."].

Definition VALID_CATEGORIES : list string :=
  ["ai"; "dev"; "ops"; "data"; "science"; "security"; "tech"; "career"; "culture"].

Definition valid (cat : string) : bool := valid_category VALID_CATEGORIES cat.

Definition _parse_cache_value (val : string) : string * bool :=
  let cat := _extract_field val "category" in
  let rank := _extract_field val "rank" in
  if negb (valid cat) then ("", false)
  else (cat, String.eqb rank "top").

(** The text written to the cache file of a story. *)
Definition cache_val (cat : string) (is_top : bool) : string :=
  "category=" +:+ cat +:+ ",rank=" +:+ (if is_top then "top" else "regular").

Definition story_line (i : nat) (s : Story) : string :=
  PyStr.of_Z (Z.of_nat i + 1) +:+ ". " +:+ st_title s +:+ " ("
  +:+ PyStr.of_Z (st_points s) +:+ " pts, " +:+ PyStr.of_Z (st_comments s) +:+ " comments)".

Section Batch.

(** [hashlib.md5(s.encode()).hexdigest()] *)
Variable md5_hexdigest : string -> string.
(** The generation API behind [session.post] and the outcome of
    [write_text], as in hn_digest/process.py. *)
Variable World : Type.
Variable generate : World -> string -> string -> Response * World.
Variable write_text : World -> string -> string -> WriteOutcome.

Abbreviation State := (State World).

Definition cache_key (s : Story) : string :=
  md5_hexdigest ("cat_v1|" +:+ PyStr.of_Z (st_id s) +:+ "|" +:+ st_title s).

(** The body of the first loop: [cached] and [uncached] after one story. *)
Definition check_cache (files : gmap string string)
  (acc : gmap Z (string * bool) * list Story) (s : Story)
  : gmap Z (string * bool) * list Story :=
  match files !! cache_key s with
  | Some text =>
      let '(cat, is_top) := _parse_cache_value (PyStr.strip (PyStr.universal_newlines text)) in
      if negb (String.eqb cat "") then (<[st_id s := (cat, is_top)]> (fst acc), snd acc)
      else (fst acc, snd acc ++ [s])
  | None => (fst acc, snd acc ++ [s])
  end.

(** The body of the loop over the lines of the response: [cached], the
    files of the cache and whether an exception has ended the loop, after
    one line.  The entry is put into [cached] before the file is written,
    so it stays when the write raises. *)
Definition parse_line (w : World) (uncached : list Story)
  (acc : gmap Z (string * bool) * gmap string string * bool) (line : string)
  : gmap Z (string * bool) * gmap string string * bool :=
  let '(cached, files, raised) := acc in
  if raised then acc
  else
    let line := PyStr.strip line in
    if negb (first_is_digit line) then acc
    else
      match PyStr.split1 "." line with
      | (_, None) => acc
      | (index, Some tail) =>
          match PyStr.int (PyStr.strip index) with
          | None => acc
          | Some n =>
              let num := (n - 1)%Z in
              if negb ((0 <=? num)%Z && (num <? Z.of_nat (length uncached))%Z) then acc
              else
                let rest := PyStr.lower (PyStr.strip tail) in
                let cat := _extract_field rest "category" in
                let rank := _extract_field rest "rank" in
                let cat := if negb (valid cat) then "culture" else cat in
                let is_top := String.eqb rank "top" in
                match uncached !! Z.to_nat num with
                | None => acc
                | Some s =>
                    let outcome := write_text w (cache_key s) (cache_val cat is_top) in
                    (<[st_id s := (cat, is_top)]> cached,
                     write_file outcome (cache_key s) (cache_val cat is_top) files,
                     match outcome with Written => false | WriteError _ => true end)
                end
          end
      end.

(** The retry loop [for attempt in range(3)], over the attempts left. *)
Fixpoint attempt_loop (attempts : list Z) (api_key prompt : string) (uncached : list Story)
  (cached : gmap Z (string * bool)) (st : State) : gmap Z (string * bool) * State :=
  match attempts with
  | [] => (cached, st)
  | attempt :: rest =>
      let '(response, w) := generate (world _ st) api_key prompt in
      let st1 := mkState _ (cache _ st) w (log _ st ++ [Request prompt response]) in
      match response with
      | Generated text =>
          let '(cached', files, _) :=
            foldl (parse_line w uncached) (cached, cache _ st1, false)
              (PyStr.split (ascii_of_N 10) (PyStr.strip text)) in
          (cached', mkState _ files (world _ st1) (log _ st1))
      | HttpStatusError status_code =>
          if (status_code =? 429)%Z then
            let wait := ((attempt + 1) * 10)%Z in
            attempt_loop rest api_key prompt uncached cached
              (mkState _ (cache _ st1) (world _ st1) (log _ st1 ++ [Sleep wait]))
          else (cached, st1)
      | OtherException => (cached, st1)
      end
  end.

Definition categorize_and_rank_batch (api_key : string) (stories : list Story) (st : State)
  : gmap Z (string * bool) * State :=
  if String.eqb api_key "" || match stories with [] => true | _ => false end then (∅, st)
  else
    let '(cached, uncached) := foldl (check_cache (cache _ st)) (∅, []) stories in
    match uncached with
    | [] => (cached, st)
    | _ =>
        let prompt := CATEGORIZE_PROMPT (String.concat PyStr.nl (imap story_line uncached)) in
        attempt_loop [0; 1; 2]%Z api_key prompt uncached cached st
    end.

End Batch.

End Categorize.

Module CategorizeFacts.
Import Process Categorize.

Lemma valid_elem cat : valid cat = true -> cat ∈ VALID_CATEGORIES.
Proof.
  unfold valid, valid_category. intros (x & Hx & Heq)%existsb_exists.
  apply String.eqb_eq in Heq as ->. by apply list_elem_of_In.
Qed.

(** X23: the text that a response line writes to the cache file of a
    story is read back as the category and the rank that were written. *)
Theorem cache_value_round_trip cat is_top :
  cat ∈ VALID_CATEGORIES ->
  _parse_cache_value (PyStr.strip (cache_val cat is_top)) = (cat, is_top).
Proof.
  unfold VALID_CATEGORIES. intros H.
  repeat (apply elem_of_cons in H as [->|H]; [destruct is_top; vm_compute; reflexivity|]).
  by apply elem_of_nil in H.
Qed.

(** An instance of X23. *)
Lemma cache_value_round_trip_witness :
  _parse_cache_value (PyStr.strip (cache_val "security" false)) = ("security", false).
Proof.
  apply (cache_value_round_trip "security" false).
  unfold VALID_CATEGORIES. compute_done.
Defined.

Section BatchFacts.
Variable md5_hexdigest : string -> string.
Variable World : Type.
Variable generate : World -> string -> string -> Response * World.
Variable write_text : World -> string -> string -> WriteOutcome.

Abbreviation State := (State World).
Abbreviation cache_key := (cache_key md5_hexdigest).
Abbreviation check_cache := (check_cache md5_hexdigest).
Abbreviation parse_line := (parse_line md5_hexdigest World write_text).
Abbreviation attempt_loop := (attempt_loop md5_hexdigest World generate write_text).
Abbreviation categorize_and_rank_batch :=
  (categorize_and_rank_batch md5_hexdigest World generate write_text).

Variable stories : list Story.

(** The entries are for stories of the batch, and their categories are
    among the nine. *)
Definition sound (cached : gmap Z (string * bool)) : Prop :=
  forall id v, cached !! id = Some v ->
    id ∈ st_id <$> stories /\ fst v ∈ VALID_CATEGORIES.

Lemma sound_insert cached s cat is_top :
  sound cached -> s ∈ stories -> cat ∈ VALID_CATEGORIES ->
  sound (<[st_id s := (cat, is_top)]> cached).
Proof.
  intros Hc Hs Hcat id v. destruct (decide (st_id s = id)) as [<-|Hne].
  - rewrite lookup_insert_eq. intros [= <-]. split; [by apply list_elem_of_fmap_2|done].
  - rewrite lookup_insert_ne by done. apply Hc.
Qed.

Lemma check_cache_sound files l : forall acc,
  l ⊆ stories -> sound (fst acc) -> snd acc ⊆ stories ->
  sound (fst (foldl (check_cache files) acc l)) /\
  snd (foldl (check_cache files) acc l) ⊆ stories.
Proof.
  induction l as [|s l IH]; intros acc Hl Hc Hu; cbn [foldl]; [done|].
  assert (Hs : s ∈ stories) by (apply Hl; by left).
  assert (Hl' : l ⊆ stories) by (intros x Hx; apply Hl; by right).
  assert (Hu' : snd acc ++ [s] ⊆ stories).
  { intros x [Hx|Hx%list_elem_of_singleton]%elem_of_app; [by apply Hu|by subst]. }
  apply IH; [done|..]; unfold Categorize.check_cache;
    destruct (files !! cache_key s) as [text|]; cbn [fst snd]; try done.
  - unfold _parse_cache_value. destruct (valid _) eqn:Hv; cbn [negb]; [|done].
    destruct (String.eqb _ "") eqn:He; cbn [negb fst snd]; [done|].
    apply sound_insert; [done..|]. by apply valid_elem.
  - unfold _parse_cache_value. destruct (valid _) eqn:Hv; cbn [negb]; [|done].
    by destruct (String.eqb _ "").
Qed.

Lemma parse_line_sound w uncached acc line :
  uncached ⊆ stories -> sound (fst (fst acc)) ->
  sound (fst (fst (parse_line w uncached acc line))).
Proof.
  destruct acc as [[cached files] raised]. cbn [fst].
  intros Hu Hc. unfold Categorize.parse_line. cbv zeta.
  destruct raised; [done|].
  destruct (negb (first_is_digit _)); [done|].
  destruct (PyStr.split1 "." _) as [index [tail|]]; [|done].
  destruct (PyStr.int _) as [n|]; [|done].
  destruct (negb (_ && _)); [done|].
  destruct (uncached !! _) as [s|] eqn:Hs; [|done]. cbn [fst].
  apply list_elem_of_lookup_2 in Hs. apply sound_insert; [done|by apply Hu|].
  destruct (valid _) eqn:Hv; cbn [negb]; [by apply valid_elem|].
  unfold VALID_CATEGORIES. compute_done.
Qed.

Lemma parse_lines_sound w uncached lines : forall acc,
  uncached ⊆ stories -> sound (fst (fst acc)) ->
  sound (fst (fst (foldl (parse_line w uncached) acc lines))).
Proof.
  induction lines as [|line lines IH]; intros acc Hu Hc; cbn [foldl]; [done|].
  apply IH; [done|]. by apply parse_line_sound.
Qed.

Lemma attempt_loop_sound attempts api_key prompt uncached cached : forall st : State,
  uncached ⊆ stories -> sound cached ->
  sound (fst (attempt_loop attempts api_key prompt uncached cached st)).
Proof.
  induction attempts as [|attempt rest IH]; intros st Hu Hc;
    cbn [Categorize.attempt_loop]; [done|].
  destruct (generate _ _ _) as [[text|code|] w]; cbn [cache world log]; [| |done].
  - pose proof (parse_lines_sound w uncached
                  (PyStr.split (ascii_of_N 10) (PyStr.strip text))
                  (cached, cache _ st, false) Hu Hc) as H.
    by destruct (foldl _ _ _) as [[? ?] ?].
  - destruct (code =? 429)%Z; [by apply IH|done].
Qed.

(** X24: whatever the cache files hold and whatever the responses are,
    every entry that [categorize_and_rank_batch] returns is for a story
    of the batch and carries one of the nine categories. *)
Theorem categorize_batch_sound api_key (st : State) id cat is_top :
  fst (categorize_and_rank_batch api_key stories st) !! id = Some (cat, is_top) ->
  id ∈ st_id <$> stories /\ cat ∈ VALID_CATEGORIES.
Proof.
  intros H. cut (sound (fst (categorize_and_rank_batch api_key stories st))).
  { intros Hs. apply (Hs id (cat, is_top) H). }
  clear H. unfold Categorize.categorize_and_rank_batch.
  destruct (_ || _); [by intros id' v|].
  destruct (check_cache_sound (cache _ st) stories (∅, [])) as [Hc Hu];
    [done|by intros id' v|by intros x ?%elem_of_nil|].
  destruct (foldl _ _ stories) as [cached uncached]. cbn [fst snd] in *.
  destruct uncached as [|u us]; [done|].
  by apply attempt_loop_sound.
Qed.

End BatchFacts.

(** An instance of X24: the category of the first line is not one of the
    nine. *)
Lemma categorize_batch_sound_witness :
  (11%Z ∈ st_id <$> ProcessFacts.demo_stories) /\ "culture" ∈ VALID_CATEGORIES.
Proof.
  apply (categorize_batch_sound (fun s => s) (list Response) scripted writable
           ProcessFacts.demo_stories "key"
           (mkState _ ∅ [Generated ("1. category=gossip, rank=top" +:+ PyStr.nl
                                    +:+ "2. category=career, rank=regular")] [])
           11%Z "culture" true).
  vm_compute. reflexivity.
Defined.

End CategorizeFacts.

(* ===================================================================== *)
(** ** hndigest/translate.py: the titles translated in one request *)
(* ===================================================================== *)

Module Translate.
Import Process.

(** [d[k] = v] on a dictionary in insertion order: the value of a key
    that is present is replaced where it stands. *)
Fixpoint dict_set (k : Z) (v : string) (d : list (Z * string)) : list (Z * string) :=
  match d with
  | [] => [(k, v)]
  | (k', v') :: r => if (k =? k')%Z then (k, v) :: r else (k', v') :: dict_set k v r
  end.

(** [enumerate(l)] *)
Definition enumerate {A} (l : list A) : list (nat * A) := imap pair l.

Definition numbered_line (i : nat) (t : string) : string :=
  PyStr.of_Z (Z.of_nat i + 1) +:+ ". " +:+ t.

Definition batch_prompt (prompt_base numbered : string) : string :=
  String.concat PyStr.nl
    [prompt_base;
     "";
     "Quyidagi sarlavhalarni tarjima qil. Har bir tarjimani yangi qatordan yoz, raqamlari bilan:";
     "";
     numbered;
     "";
     "Faqat tarjimalarni qaytar, raqamlari bilan (1. tarjima, 2. tarjima, ...)"].

(** The body of the loop over the lines of the response, for [n]
    uncached titles.  [None] is the [ValueError] that [int] raises, which
    leaves the [try] block. *)
Definition parse_line (n : nat) (acc : option (list (Z * string))) (line : string)
  : option (list (Z * string)) :=
  match acc with
  | None => None
  | Some translations =>
      let line := PyStr.strip line in
      if first_is_digit line then
        match PyStr.split1 "." line with
        | (index, Some tail) =>
            match PyStr.int (PyStr.strip index) with
            | None => None
            | Some k =>
                let num := (k - 1)%Z in
                let trans := PyStr.strip_chars quotes (PyStr.strip tail) in
                if (0 <=? num)%Z && (num <? Z.of_nat n)%Z
                then Some (dict_set num trans translations)
                else Some translations
            end
        | (_, None) => Some translations
        end
      else Some translations
  end.

(** [[cached.get(i, titles[i]) for i in range(len(titles))]] *)
Definition result (cached : gmap nat string) (titles : list string) : list string :=
  imap (fun i title => default title (cached !! i)) titles.

Section Batch.

(** [hashlib.md5(s.encode()).hexdigest()] *)
Variable md5_hexdigest : string -> string.
(** The generation API behind [session.post] and the outcome of
    [write_text], as in hn_digest/process.py. *)
Variable World : Type.
Variable generate : World -> string -> string -> Response * World.
Variable write_text : World -> string -> string -> WriteOutcome.

Abbreviation State := (State World).

Definition cache_key (prompt_base title : string) : string :=
  md5_hexdigest (PyStr.take 20 prompt_base +:+ "|" +:+ title).

(** The body of the first loop: [cached] and [uncached_idx] after one
    title. *)
Definition check_cache (files : gmap string string) (prompt_base : string)
  (acc : gmap nat string * list nat) (item : nat * string) : gmap nat string * list nat :=
  let '(i, title) := item in
  match files !! cache_key prompt_base title with
  | Some text => (<[i := PyStr.strip (PyStr.universal_newlines text)]> (fst acc), snd acc)
  | None => (fst acc, snd acc ++ [i])
  end.

(** The body of the loop over [translations.items()]: [cached], the
    files of the cache and whether an exception has ended the loop, after
    one translation.  The file is written before [cached] is updated, so
    a write that raises leaves [cached] alone.  The indices come from
    [enumerate] and from the range test of [parse_line], so that the two
    look-ups succeed. *)
Definition store (w : World) (prompt_base : string) (titles : list string)
  (uncached_idx : list nat)
  (acc : gmap nat string * gmap string string * bool) (item : Z * string)
  : gmap nat string * gmap string string * bool :=
  let '(cached, files, raised) := acc in
  let '(local_idx, trans) := item in
  if raised then acc
  else
    match uncached_idx !! Z.to_nat local_idx with
    | Some orig_idx =>
        match titles !! orig_idx with
        | Some title =>
            let key := cache_key prompt_base title in
            let outcome := write_text w key trans in
            (match outcome with Written => <[orig_idx := trans]> cached | WriteError _ => cached end,
             write_file outcome key trans files,
             match outcome with Written => false | WriteError _ => true end)
        | None => acc
        end
    | None => acc
    end.

(** The retry loop [for attempt in range(3)], over the attempts left. *)
Fixpoint attempt_loop (attempts : list Z) (api_key prompt prompt_base : string)
  (titles : list string) (uncached_idx : list nat) (n : nat)
  (cached : gmap nat string) (st : State) : gmap nat string * State :=
  match attempts with
  | [] => (cached, st)
  | attempt :: rest =>
      let '(response, w) := generate (world _ st) api_key prompt in
      let st1 := mkState _ (cache _ st) w (log _ st ++ [Request prompt response]) in
      match response with
      | Generated text =>
          match foldl (parse_line n) (Some [])
                  (PyStr.split (ascii_of_N 10) (PyStr.strip text)) with
          | None => (cached, st1)
          | Some translations =>
              let '(cached', files, _) :=
                foldl (store w prompt_base titles uncached_idx) (cached, cache _ st1, false)
                  translations in
              (cached', mkState _ files (world _ st1) (log _ st1))
          end
      | HttpStatusError status_code =>
          if (status_code =? 429)%Z then
            let wait := ((attempt + 1) * 10)%Z in
            attempt_loop rest api_key prompt prompt_base titles uncached_idx n cached
              (mkState _ (cache _ st1) (world _ st1) (log _ st1 ++ [Sleep wait]))
          else (cached, st1)
      | OtherException => (cached, st1)
      end
  end.

Definition translate_batch (api_key prompt_base : string) (titles : list string) (st : State)
  : list string * State :=
  if String.eqb prompt_base "" || match titles with [] => true | _ => false end
  then (titles, st)
  else
    let '(cached, uncached_idx) :=
      foldl (check_cache (cache _ st) prompt_base) (∅, []) (enumerate titles) in
    match uncached_idx with
    | [] => (result cached titles, st)
    | _ =>
        let uncached_titles := omap (fun i => titles !! i) uncached_idx in
        let numbered := String.concat PyStr.nl (imap numbered_line uncached_titles) in
        let '(cached', st') :=
          attempt_loop [0; 1; 2]%Z api_key (batch_prompt prompt_base numbered) prompt_base
            titles uncached_idx (length uncached_titles) cached st in
        (result cached' titles, st')
    end.

(** What the cache files alone make of the titles: the text of the file
    of a title as [read_text] gives it, stripped; the title itself when it
    has no file. *)
Definition from_cache (files : gmap string string) (prompt_base : string)
  (titles : list string) : list string :=
  (fun title =>
     default title
       ((fun text => PyStr.strip (PyStr.universal_newlines text))
          <$> files !! cache_key prompt_base title))
    <$> titles.

End Batch.

End Translate.

Module TranslateFacts.
Import Process Translate.

Lemma enumerate_snoc {A} (l : list A) x :
  enumerate (l ++ [x]) = enumerate l ++ [(length l, x)].
Proof.
  unfold enumerate. rewrite imap_app. cbn [imap]. by rewrite Nat.add_0_r.
Qed.

Lemma parse_lines_none n lines : foldl (parse_line n) None lines = None.
Proof. by induction lines. Qed.

(** A numbered line whose number [int] does not read. *)
Definition unreadable (line : string) : Prop :=
  let line := PyStr.strip line in
  first_is_digit line = true /\
  exists index tail,
    PyStr.split1 "." line = (index, Some tail) /\ PyStr.int (PyStr.strip index) = None.

Lemma parse_line_unreadable n acc line : unreadable line -> parse_line n acc line = None.
Proof.
  intros (Hd & index & tail & Hs & Hi). unfold parse_line.
  destruct acc as [d|]; [|done]. cbv zeta. by rewrite Hd, Hs, Hi.
Qed.

(** A line led by a superscript two passes [isdigit], and [int] does not
    read it; an index written with an Arabic-Indic digit is read. *)
Example parse_line_superscript : parse_line 3 (Some []) "². Qog'ozlar" = None.
Proof. vm_compute. reflexivity. Qed.

Example parse_line_arabic_indic :
  parse_line 12 (Some []) "1٢. Qog'ozlar" = Some [(11%Z, "Qog'ozlar")].
Proof. vm_compute. reflexivity. Qed.

Lemma parse_lines_unreadable n lines line : forall acc,
  line ∈ lines -> unreadable line -> foldl (parse_line n) acc lines = None.
Proof.
  induction lines as [|l lines IH]; intros acc Hin Hbad; [by apply elem_of_nil in Hin|].
  cbn [foldl]. apply elem_of_cons in Hin as [<-|Hin].
  - rewrite parse_line_unreadable by done. apply parse_lines_none.
  - by apply IH.
Qed.

Section BatchFacts.
Variable md5_hexdigest : string -> string.
Variable World : Type.
Variable generate : World -> string -> string -> Response * World.
Variable write_text : World -> string -> string -> WriteOutcome.

Abbreviation State := (State World).
Abbreviation cache_key := (cache_key md5_hexdigest).
Abbreviation check_cache := (check_cache md5_hexdigest).
Abbreviation attempt_loop := (attempt_loop md5_hexdigest World generate write_text).
Abbreviation translate_batch := (translate_batch md5_hexdigest World generate write_text).
Abbreviation from_cache := (from_cache md5_hexdigest).

Lemma check_cache_lookup files prompt_base titles i :
  fst (foldl (check_cache files prompt_base) (∅, []) (enumerate titles)) !! i
  = titles !! i ≫= (fun title =>
       (fun text => PyStr.strip (PyStr.universal_newlines text))
         <$> files !! cache_key prompt_base title).
Proof.
  induction titles as [|x l IH] using rev_ind; [done|].
  rewrite enumerate_snoc, foldl_app. cbn [foldl].
  destruct (foldl _ _ (enumerate l)) as [cached idx]. cbn [fst] in IH.
  unfold Translate.check_cache.
  destruct (decide (i = length l)) as [->|Hne].
  - rewrite list_lookup_middle by done. cbn.
    destruct (files !! cache_key prompt_base x) as [text|]; cbn [fst fmap option_fmap option_map].
    + by rewrite lookup_insert_eq.
    + rewrite IH. by rewrite (lookup_ge_None_2 l (length l)) by lia.
  - assert ((l ++ [x]) !! i = l !! i) as ->.
    { destruct (decide (i < length l)%nat); [by rewrite lookup_app_l|].
      rewrite !lookup_ge_None_2; [done|lia|rewrite length_app; simpl; lia]. }
    destruct (files !! cache_key prompt_base x) as [text|]; cbn [fst]; [|done].
    by rewrite lookup_insert_ne.
Qed.

Lemma result_from_cache files prompt_base titles :
  result (fst (foldl (check_cache files prompt_base) (∅, []) (enumerate titles))) titles
  = from_cache files prompt_base titles.
Proof.
  apply list_eq. intros i. unfold result, Translate.from_cache.
  rewrite list_lookup_imap, list_lookup_fmap, check_cache_lookup.
  by destruct (titles !! i).
Qed.

(** The loop: what it logs, and the two ways in which it changes
    nothing. *)
Lemma translate_attempts attempts api_key prompt prompt_base titles idx n cached :
  forall st : State,
  let r := attempt_loop attempts api_key prompt prompt_base titles idx n cached st in
  exists tr,
    log _ (snd r) = log _ st ++ tr /\
    (forall p x, head tr = Some (Request p x) ->
       p = prompt /\ (failed x = false -> tr = [Request p x])) /\
    (Forall (fun x => failed x = true) (responses tr) ->
     fst r = cached /\ cache _ (snd r) = cache _ st) /\
    (forall text line, head tr = Some (Request prompt (Generated text)) ->
       line ∈ PyStr.split (ascii_of_N 10) (PyStr.strip text) -> unreadable line ->
       fst r = cached /\ cache _ (snd r) = cache _ st).
Proof.
  induction attempts as [|attempt rest IH]; intros st; cbv zeta;
    cbn [Translate.attempt_loop].
  { exists []. rewrite app_nil_r. repeat split; try done. }
  destruct (generate _ _ _) as [[text|code|] w]; cbn [cache world log].
  - exists [Request prompt (Generated text)].
    destruct (foldl _ (Some []) _) as [translations|] eqn:Hp.
    + destruct (foldl _ (cached, _, false) translations) as [[cached' files] raised].
      cbn [fst snd log cache].
      split; [done|]. split; [by intros p x [= <- <-]|]. split.
      * intros H. by apply Forall_cons in H as [? _].
      * intros text' line [= <-] Hin Hbad.
        by rewrite (parse_lines_unreadable n _ line (Some []) Hin Hbad) in Hp.
    + cbn [fst snd log cache]. split; [done|]. split; [by intros p x [= <- <-]|]. done.
  - destruct (code =? 429)%Z.
    + match goal with |- context [Translate.attempt_loop _ _ _ _ rest _ _ _ _ _ _ _ ?s] =>
        destruct (IH s) as (tr & Hlog & _ & Hfail & _) end.
      cbn [log cache] in *.
      exists (Request prompt (HttpStatusError code) :: Sleep ((attempt + 1) * 10) :: tr).
      split; [by rewrite Hlog, <- !app_assoc|].
      split; [by intros p x [= <- <-]|]. split; [|done].
      intros H. apply Forall_cons in H as [_ H]. by apply Hfail.
    + exists [Request prompt (HttpStatusError code)]. cbn [fst snd log cache].
      split; [done|]. split; [by intros p x [= <- <-]|]. done.
  - exists [Request prompt OtherException]. cbn [fst snd log cache].
    split; [done|]. split; [by intros p x [= <- <-]|]. done.
Qed.

(** X25: the list returned has one title for each title given; and when
    the run makes no request or gets no text from any of its requests,
    the titles returned are those that the cache files give (a title
    without file is returned as it is), and no file is written. *)
Theorem translate_batch_failure api_key prompt_base titles (st : State) tr :
  let r := translate_batch api_key prompt_base titles st in
  length (fst r) = length titles /\
  (prompt_base <> "" ->
   log _ (snd r) = log _ st ++ tr ->
   Forall (fun x => failed x = true) (responses tr) ->
   fst r = from_cache (cache _ st) prompt_base titles /\ cache _ (snd r) = cache _ st).
Proof.
  cbv zeta. unfold Translate.translate_batch.
  destruct (String.eqb prompt_base "") eqn:Hpb; cbn [orb].
  { apply String.eqb_eq in Hpb. split; [done|]. by intros []. }
  destruct titles as [|t0 ts]; [by split|]. set (titles := t0 :: ts).
  pose proof (result_from_cache (cache _ st) prompt_base titles) as Hres.
  destruct (foldl _ _ (enumerate titles)) as [cached idx]. cbn [fst] in Hres.
  destruct idx as [|i idx].
  { cbn [fst snd]. split; [apply length_imap|]. by intros _ _ _. }
  match goal with |- context [Translate.attempt_loop _ _ _ _ ?a ?k ?p ?pb ?ti ?ix ?n ?c ?s] =>
    destruct (translate_attempts a k p pb ti ix n c s) as (tr0 & Hlog & _ & Hfail & _);
    destruct (Translate.attempt_loop _ _ _ _ a k p pb ti ix n c s) as [cached' st'] end.
  cbn [fst snd] in *. split; [apply length_imap|].
  intros _ Htr Hall. rewrite Hlog in Htr. apply app_inv_head in Htr as <-.
  destruct (Hfail Hall) as [-> ->]. by rewrite Hres.
Qed.

(** X26: one numbered line whose number cannot be read loses the whole
    response: no translation of it is used and none is written to the
    cache, even those of the lines read before. *)
Theorem translate_batch_unreadable api_key prompt_base titles (st : State) tr p text line :
  let r := translate_batch api_key prompt_base titles st in
  log _ (snd r) = log _ st ++ tr ->
  head tr = Some (Request p (Generated text)) ->
  line ∈ PyStr.split (ascii_of_N 10) (PyStr.strip text) ->
  unreadable line ->
  tr = [Request p (Generated text)] /\
  fst r = from_cache (cache _ st) prompt_base titles /\ cache _ (snd r) = cache _ st.
Proof.
  cbv zeta. unfold Translate.translate_batch.
  destruct (_ || _).
  { cbn [fst snd]. intros Htr Hhd. rewrite <- (app_nil_r (log _ st)) in Htr at 1.
    apply app_inv_head in Htr as <-. done. }
  pose proof (result_from_cache (cache _ st) prompt_base titles) as Hres.
  destruct (foldl _ _ (enumerate titles)) as [cached idx]. cbn [fst] in Hres.
  destruct idx as [|i idx].
  { cbn [fst snd]. intros Htr Hhd. rewrite <- (app_nil_r (log _ st)) in Htr at 1.
    apply app_inv_head in Htr as <-. done. }
  match goal with |- context [Translate.attempt_loop _ _ _ _ ?a ?k ?q ?pb ?ti ?ix ?n ?c ?s] =>
    destruct (translate_attempts a k q pb ti ix n c s) as (tr0 & Hlog & Hhead & _ & Hbad);
    destruct (Translate.attempt_loop _ _ _ _ a k q pb ti ix n c s) as [cached' st'] end.
  cbn [fst snd] in *. intros Htr Hhd Hin Hline.
  rewrite Hlog in Htr. apply app_inv_head in Htr as <-.
  destruct (Hhead _ _ Hhd) as [-> Hone]. split; [by apply Hone|].
  destruct (Hbad text line Hhd Hin Hline) as [-> ->]. by rewrite Hres.
Qed.

End BatchFacts.

(** An instance of X25: the only request is refused, and the file of the
    second title is found under the first 20 characters of the prompt,
    which are 21 bytes. *)
Lemma translate_batch_failure_witness :
  fst (translate_batch (fun s => s) (list Response) scripted writable "key"
         "Sarlavhani oʻzbek tiliga tarjima qil."
         ["Engines"; "Papers"]
         (mkState _ {[ "Sarlavhani oʻzbek ti|Papers" := " Qog'ozlar " ]}
            [HttpStatusError 500] []))
  = ["Engines"; "Qog'ozlar"].
Proof.
  assert (E : from_cache (fun s => s) {[ "Sarlavhani oʻzbek ti|Papers" := " Qog'ozlar " ]}
                "Sarlavhani oʻzbek tiliga tarjima qil." ["Engines"; "Papers"]
              = ["Engines"; "Qog'ozlar"])
    by (vm_compute; reflexivity).
  rewrite <- E.
  refine (proj1 (proj2 (translate_batch_failure (fun s => s) (list Response) scripted writable
           "key" "Sarlavhani oʻzbek tiliga tarjima qil." ["Engines"; "Papers"]
           (mkState _ {[ "Sarlavhani oʻzbek ti|Papers" := " Qog'ozlar " ]}
              [HttpStatusError 500] [])
           [Request (batch_prompt "Sarlavhani oʻzbek tiliga tarjima qil." "1. Engines")
              (HttpStatusError 500)]) _ _ _)).
  - discriminate.
  - vm_compute. reflexivity.
  - repeat constructor.
Defined.

(** An instance of X26: the second line of the response is numbered "2a". *)
Lemma translate_batch_unreadable_witness :
  [Request (batch_prompt "Translate" ("1. Engines" +:+ PyStr.nl +:+ "2. Papers"))
     (Generated ("1. Dvigatellar" +:+ PyStr.nl +:+ "2a. Qog'ozlar"))]
  = [Request (batch_prompt "Translate" ("1. Engines" +:+ PyStr.nl +:+ "2. Papers"))
       (Generated ("1. Dvigatellar" +:+ PyStr.nl +:+ "2a. Qog'ozlar"))] /\
  fst (translate_batch (fun s => s) (list Response) scripted writable "key" "Translate"
         ["Engines"; "Papers"]
         (mkState _ ∅ [Generated ("1. Dvigatellar" +:+ PyStr.nl +:+ "2a. Qog'ozlar")] []))
  = from_cache (fun s => s) ∅ "Translate" ["Engines"; "Papers"] /\
  cache _ (snd (translate_batch (fun s => s) (list Response) scripted writable "key" "Translate"
         ["Engines"; "Papers"]
         (mkState _ ∅ [Generated ("1. Dvigatellar" +:+ PyStr.nl +:+ "2a. Qog'ozlar")] [])))
  = ∅.
Proof.
  apply (translate_batch_unreadable (fun s => s) (list Response) scripted writable "key" "Translate"
           ["Engines"; "Papers"]
           (mkState _ ∅ [Generated ("1. Dvigatellar" +:+ PyStr.nl +:+ "2a. Qog'ozlar")] [])
           _ _ _ "2a. Qog'ozlar").
  - vm_compute. reflexivity.
  - reflexivity.
  - vm_compute. right. left.
  - split; [vm_compute; reflexivity|].
    exists "2a", " Qog'ozlar". split; vm_compute; reflexivity.
Defined.

End TranslateFacts.

